(** * h2ws: WebSocket framing over HTTP/2 streams and the server mesh

    A shallow embedding of the framing channel ([streams/ws-h2stream.mjs]),
    the plain stream wrapper ([streams/h2stream.mjs]) and the mesh coordinator
    ([mesh.mjs], the complete third draft of the class), followed by the
    properties of the specification stated against that embedding. *)

From Stdlib Require Import ZArith List String Ascii Lia Bool.
From Stdlib Require Import Strings.Byte.
From stdpp Require Import base option list gmap strings pretty.

Local Open Scope Z_scope.

(** ** JavaScript completions *)

Module Js.

(** The error classes the modelled code can raise; [PlainError] is [new Error(msg)]. *)
Inductive Error : Type :=
| TypeError (msg : string)
| RangeError (msg : string)
| PlainError (msg : string).

(** A call either returns normally or throws. *)
Inductive Completion (A : Type) : Type :=
| Normal (a : A)
| Throw (e : Error).
Arguments Normal {A} a.
Arguments Throw {A} e.

Definition bindC {A B} (c : Completion A) (k : A -> Completion B) : Completion B :=
  match c with
  | Normal a => k a
  | Throw e => Throw e
  end.

(** Code that mutates an object of type [S] and may throw: the mutations
    made before a throw stay in place. *)
Definition M (S A : Type) : Type := S -> Completion A * S.

Definition ret {S A} (a : A) : M S A := fun s => (Normal a, s).
Definition throw {S A} (e : Error) : M S A := fun s => (Throw e, s).
Definition bind {S A B} (m : M S A) (k : A -> M S B) : M S B :=
  fun s => match m s with
           | (Normal a, s') => k a s'
           | (Throw e, s') => (Throw e, s')
           end.
Definition lift {S A} (c : Completion A) : M S A := fun s => (c, s).
Definition modify {S} (f : S -> S) : M S unit := fun s => (Normal tt, f s).
Definition gets {S A} (f : S -> A) : M S A := fun s => (Normal (f s), s).

Definition is_throw {A} (c : Completion A) : bool :=
  match c with Throw _ => true | Normal _ => false end.

(** Reading a property of [undefined]. *)
Definition undefined_read (prop : string) : Error :=
  TypeError ("Cannot read properties of undefined (reading '" +:+ prop +:+ "')").

End Js.

Import Js.

Declare Scope js_scope.
Delimit Scope js_scope with js.
Notation "x <- c ;; k" := (Js.bind c (fun x => k))
  (at level 20, c at level 99, k at level 200, only parsing) : js_scope.

(** ** Typed arrays and buffers *)

Module Buffer.

Definition byte_val (b : byte) : Z := Z.of_N (Byte.to_N b).

(** Storing a number into a [Uint8Array] slot keeps its low eight bits. *)
Definition to_uint8 (z : Z) : byte :=
  default x00 (Byte.of_N (Z.to_N (z mod 256))).

(** An element of a plain array handed to [Buffer.from]. *)
Inductive Element : Type :=
| Num (z : Z)
| BigInt (z : Z).

(** [Buffer.from(array)]: every element goes through ToNumber, which
    throws on a BigInt, and is then stored as a byte. *)
Fixpoint from (elements : list Element) : Completion (list byte) :=
  match elements with
  | [] => Normal []
  | Num z :: rest => bindC (from rest) (fun bs => Normal (to_uint8 z :: bs))
  | BigInt _ :: _ => Throw (TypeError "Cannot convert a BigInt value to a number")
  end.

(** [new Uint16Array([n])] spread into an array literal: one element. *)
Definition spread_Uint16Array (ns : list Z) : list Element :=
  map (fun n => Num (n mod 65536)) ns.

(** [new BigUint64Array([BigInt(n)])] spread into an array literal. *)
Definition spread_BigUint64Array (ns : list Z) : list Element :=
  map (fun n => BigInt (n mod 2 ^ 64)) ns.

(** [buf.slice(a, b)] for non-negative bounds, clamped to the buffer. *)
Definition slice (buf : list byte) (a b : nat) : list byte :=
  take (b - a) (drop a buf).

(** [buf[i] & mask]; an index past the end reads [undefined], and
    [undefined & mask] is 0. *)
Definition index_and (buf : list byte) (i : nat) (mask : Z) : Z :=
  Z.land (from_option byte_val 0 (buf !! i)) mask.

(** Value of a payload length field as the decoder stores it. *)
Inductive LengthValue : Type :=
| LenUndefined
| LenNumber (n : Z)
| LenBigInt (n : Z).

(** [new Uint16Array(new Uint8Array(bytes))[0]]: constructing a typed
    array from another typed array copies it element by element, so
    element 0 is the first byte. *)
Definition Uint16Array_of_elements_first (bytes : list byte) : LengthValue :=
  match bytes !! 0%nat with
  | Some b => LenNumber (byte_val b mod 65536)
  | None => LenUndefined
  end.

(** Byte order of the machine, which typed-array views over an
    [ArrayBuffer] use. *)
Inductive ByteOrder : Type := LittleEndian | BigEndian.

Fixpoint little_endian (bytes : list byte) : Z :=
  match bytes with
  | [] => 0
  | b :: rest => byte_val b + 256 * little_endian rest
  end.

Definition big_endian (bytes : list byte) : Z := little_endian (rev bytes).

(** [new BigUint64Array(new Uint8Array(bytes).buffer)[0]]: a view over
    the copied bytes, whose length must be a multiple of 8. *)
Definition BigUint64Array_of_buffer_first (host : ByteOrder) (bytes : list byte)
  : Completion LengthValue :=
  if (length bytes mod 8 =? 0)%nat then
    match bytes with
    | [] => Normal LenUndefined
    | _ => Normal (LenBigInt (match host with
                              | LittleEndian => little_endian (take 8 bytes)
                              | BigEndian => big_endian (take 8 bytes)
                              end))
    end
  else Throw (RangeError "byte length of BigUint64Array should be a multiple of 8").

End Buffer.

Import Buffer.

(** ** The framing channel: [WsH2Stream] *)

Module WsH2Stream.

(** [static #WS_CONSTANTS] *)
Module OPCODES.
Definition CONTINUATION : Z := 0.
Definition TEXT : Z := 1.
Definition BINARY : Z := 2.
Definition CLOSE : Z := 8.
Definition PING : Z := 9.
Definition PONG : Z := 10.
End OPCODES.

Module FIRST_BYTE.
Definition FINAL : Z := 128.
Definition RSV1 : Z := 64.
Definition RSV2 : Z := 32.
Definition RSV3 : Z := 16.
End FIRST_BYTE.

(** The public static members the class declares. The opcode table is
    reachable only through the private [#WS_CONSTANTS]. *)
Definition public_statics : list string := ["acceptedProtocols"].

(** The expression [WsH2Stream.OPCODES.<member>]: [WsH2Stream.OPCODES] is
    a lookup among the public statics. *)
Definition public_OPCODES (member : string) : Completion Z :=
  if bool_decide ("OPCODES" ∈ public_statics) then
    Normal (if bool_decide (member = "CLOSE") then OPCODES.CLOSE
            else if bool_decide (member = "PING") then OPCODES.PING
            else OPCODES.PONG)
  else Throw (undefined_read member).

(** What [#fragmentInterpreter] returns for a non-empty chunk. *)
Record FragmentDetails : Type := {
  isFinal : Z;
  rsv1 : Z;
  rsv2 : Z;
  rsv3 : Z;
  opcode : Z;
  payloadLength : LengthValue;
  maskingKey : option (list byte);
  usesMasking : bool;
  payload : list byte
}.

(** [static #fragmentInterpreter(fragment)]; [None] is the bare [return]. *)
Definition fragmentInterpreter (host : ByteOrder) (fastFragment : list byte)
  : Completion (option FragmentDetails) :=
  if (length fastFragment =? 0)%nat then Normal None
  else
    let currentOffset := 2%nat in
    let payloadLength := index_and fastFragment 1 127 in
    bindC
      (if payloadLength =? 126 then
         Normal (Uint16Array_of_elements_first (slice fastFragment 2 4),
                 (currentOffset + 2)%nat)
       else if payloadLength =? 127 then
         bindC (BigUint64Array_of_buffer_first host (slice fastFragment 2 10))
               (fun len => Normal (len, (currentOffset + 8)%nat))
       else Normal (LenNumber payloadLength, currentOffset))
      (fun '(len, currentOffset) =>
         let masked := index_and fastFragment 1 128 in
         let key :=
           if masked =? 0 then None
           else Some (slice fastFragment currentOffset (currentOffset + 4)) in
         let currentOffset :=
           if masked =? 0 then currentOffset else (currentOffset + 4)%nat in
         Normal (Some {| isFinal := index_and fastFragment 0 128;
                         rsv1 := index_and fastFragment 0 64;
                         rsv2 := index_and fastFragment 0 32;
                         rsv3 := index_and fastFragment 0 16;
                         opcode := index_and fastFragment 0 15;
                         payloadLength := len;
                         maskingKey := key;
                         usesMasking := negb (masked =? 0);
                         payload := drop currentOffset fastFragment |})).

(** Events the channel emits. *)
Inductive FramePayload : Type :=
| Utf8Text (bytes : list byte)
| Binary (bytes : list byte).

Record FrameDetails : Type := {
  frame_opcode : Z;
  frame_type : string;
  frame_payload : FramePayload
}.

Inductive Event : Type :=
| EvFrame (details : FrameDetails)
| EvPong (payload : list byte)
| EvError
| EvEnd.

(** The instance state the data path touches. [logger] is
    [options.logger] ([None] when the caller passed none); [written] and
    [endCalls] record the calls made on the underlying stream. *)
Record Channel : Type := {
  currentFrameFragments : list (option FragmentDetails);
  logger : option (list string);
  written : list (list byte);
  endCalls : nat;
  emitted : list Event
}.

Definition set_fragments (f : list (option FragmentDetails)) (c : Channel) : Channel :=
  {| currentFrameFragments := f; logger := logger c; written := written c;
     endCalls := endCalls c; emitted := emitted c |}.

Definition stream_write (chunk : list byte) : M Channel unit :=
  modify (fun c => {| currentFrameFragments := currentFrameFragments c;
                      logger := logger c; written := written c ++ [chunk];
                      endCalls := endCalls c; emitted := emitted c |}).

Definition stream_end : M Channel unit :=
  modify (fun c => {| currentFrameFragments := currentFrameFragments c;
                      logger := logger c; written := written c;
                      endCalls := S (endCalls c); emitted := emitted c |}).

Definition emit (e : Event) : M Channel unit :=
  modify (fun c => {| currentFrameFragments := currentFrameFragments c;
                      logger := logger c; written := written c;
                      endCalls := endCalls c; emitted := emitted c ++ [e] |}).

(** [this.#logger.<level>(line)] *)
Definition log (level line : string) : M Channel unit :=
  fun c => match logger c with
           | None => (Throw (undefined_read level), c)
           | Some lines =>
               (Normal tt,
                {| currentFrameFragments := currentFrameFragments c;
                   logger := Some (lines ++ [line]); written := written c;
                   endCalls := endCalls c; emitted := emitted c |})
           end.

Record FrameOptions : Type := {
  opt_opcode : Z;
  opt_payload : option (list byte)
}.

Local Open Scope js_scope.

(** [#sendFrame(options)] *)
Definition sendFrame (options : FrameOptions) : M Channel unit :=
  let op := opt_opcode options in
  if op =? OPCODES.CLOSE then
    code <- lift (public_OPCODES "CLOSE") ;;
    bytes <- lift (Buffer.from [Num (Z.lor FIRST_BYTE.FINAL code); Num 0]) ;;
    stream_write bytes
  else if op =? OPCODES.PING then
    code <- lift (public_OPCODES "PING") ;;
    bytes <- lift (Buffer.from [Num (Z.lor FIRST_BYTE.FINAL code); Num 0]) ;;
    stream_write bytes
  else if op =? OPCODES.PONG then
    code <- lift (public_OPCODES "PONG") ;;
    bytes <- lift (Buffer.from [Num (Z.lor FIRST_BYTE.FINAL code); Num 0]) ;;
    stream_write bytes
  else if (op =? OPCODES.TEXT) || (op =? OPCODES.BINARY) then
    match opt_payload options with
    | None => throw (undefined_read "length")
    | Some data =>
        let payloadLength := Z.of_nat (length data) in
        payloadLengthBytes <-
          lift (if payloadLength <? 126 then Buffer.from [Num payloadLength]
                else if payloadLength <? 65536 then
                  Buffer.from (Num 126 :: spread_Uint16Array [payloadLength])
                else
                  Buffer.from (Num 127 :: spread_BigUint64Array [payloadLength])) ;;
        first <- lift (Buffer.from [Num (Z.lor FIRST_BYTE.FINAL op)]) ;;
        stream_write (concat [first; payloadLengthBytes; data])
    end
  else ret tt.

(** [pong()] *)
Definition pong : M Channel unit :=
  sendFrame {| opt_opcode := OPCODES.PONG; opt_payload := None |}.

(** [ping()]: the source passes the PONG opcode here as well. *)
Definition ping : M Channel unit :=
  sendFrame {| opt_opcode := OPCODES.PONG; opt_payload := None |}.

(** [sendText(data)], with [data] already as the bytes of [Buffer.from(data)]. *)
Definition sendText (data : list byte) : M Channel unit :=
  sendFrame {| opt_opcode := OPCODES.TEXT; opt_payload := Some data |}.

(** The mapper of [#parseFrame]:
    [byte ^ fragment.maskingKey[index % 4]] over a masked payload. *)
Definition unmask (fragment : FragmentDetails) : list byte :=
  if usesMasking fragment then
    imap (fun index b =>
            to_uint8 (Z.lxor (byte_val b)
                        (from_option byte_val 0
                           (default [] (maskingKey fragment) !! (index mod 4)%nat))))
         (payload fragment)
  else payload fragment.

Fixpoint unmask_all (fragments : list (option FragmentDetails))
  : Completion (list (list byte)) :=
  match fragments with
  | [] => Normal []
  | None :: _ => Throw (undefined_read "usesMasking")
  | Some fragment :: rest =>
      bindC (unmask_all rest) (fun ps => Normal (unmask fragment :: ps))
  end.

Definition frame_type_of (op : Z) : string :=
  if op =? OPCODES.TEXT then "text"
  else if op =? OPCODES.BINARY then "binary"
  else "unknown".

(** [#parseFrame()] *)
Definition parseFrame : M Channel unit :=
  fragments <- gets currentFrameFragments ;;
  match default None (last fragments) with
  | None => throw (undefined_read "isFinal")
  | Some lastFragment =>
      if isFinal lastFragment =? 0 then ret tt
      else if 8 <=? opcode lastFragment then
        _ <- (if opcode lastFragment =? OPCODES.CLOSE then
                _ <- log "debug" "Close frame received." ;;
                stream_end
              else if opcode lastFragment =? OPCODES.PING then
                _ <- log "debug" "Ping received." ;;
                pong
              else if opcode lastFragment =? OPCODES.PONG then
                _ <- log "debug" "Pong received." ;;
                emit (EvPong (payload lastFragment))
              else
                _ <- log "error" "Unknown opcode" ;;
                stream_end) ;;
        modify (fun c => set_fragments (removelast (currentFrameFragments c)) c)
      else
        match default None (fragments !! 0%nat) with
        | None => throw (undefined_read "opcode")
        | Some firstFragment =>
            payloads <- lift (unmask_all fragments) ;;
            let type := frame_type_of (opcode firstFragment) in
            let bytes := concat payloads in
            let frameDetails :=
              {| frame_opcode := opcode firstFragment;
                 frame_type := type;
                 frame_payload := if bool_decide (type = "text")
                                  then Utf8Text bytes else Binary bytes |} in
            _ <- log "debug" "Frame received" ;;
            _ <- emit (EvFrame frameDetails) ;;
            modify (set_fragments [])
        end
  end.

(** [#dataListener(fragment)] *)
Definition dataListener (host : ByteOrder) (fragment : list byte) : M Channel unit :=
  parsedFragment <- lift (fragmentInterpreter host fragment) ;;
  _ <- modify (fun c => set_fragments (currentFrameFragments c ++ [parsedFragment]) c) ;;
  parseFrame.

(** *** Subprotocol negotiation *)

(** [s.split(",")] *)
Fixpoint split_comma (s : string) : list string :=
  match s with
  | EmptyString => [EmptyString]
  | String c rest =>
      if Ascii.eqb c "," then EmptyString :: split_comma rest
      else match split_comma rest with
           | piece :: pieces => String c piece :: pieces
           | [] => [String c EmptyString]
           end
  end.

(** [pieces.join(",")] *)
Fixpoint join_comma (pieces : list string) : string :=
  match pieces with
  | [] => EmptyString
  | [piece] => piece
  | piece :: rest => piece +:+ "," +:+ join_comma rest
  end.

Inductive HeaderValue : Type :=
| HNum (n : Z)
| HStr (s : string).

Definition HTTP2_HEADER_STATUS : string := ":status".
Definition HTTP2_HEADER_WS_PROTO : string := "sec-websocket-protocol".
Definition HTTP_STATUS_OK : Z := 200.

(** A string is truthy when it is not empty. *)
Definition truthy (s : string) : bool :=
  match s with EmptyString => false | String _ _ => true end.

(** [#handshake()]: the value left in [#requestedWsProtocols] ([None] for
    the initial [null]) and the headers handed to [#stream.respond]. *)
Definition handshake (acceptedProtocols : list string)
    (incomingHeaders : gmap string string)
  : option (list string) * gmap string HeaderValue :=
  let responseHeaders : gmap string HeaderValue :=
    {[ HTTP2_HEADER_STATUS := HNum HTTP_STATUS_OK ]} in
  let requestedWsProtocols :=
    match incomingHeaders !! HTTP2_HEADER_WS_PROTO with
    | Some value => if truthy value then Some (split_comma value) else None
    | None => None
    end in
  let matchedProtocols :=
    filter (fun protocol => protocol ∈ acceptedProtocols) <$> requestedWsProtocols in
  let responseHeaders :=
    match matchedProtocols with
    | Some (first :: others) =>
        <[ HTTP2_HEADER_WS_PROTO := HStr (join_comma (first :: others)) ]> responseHeaders
    | _ => responseHeaders
    end in
  (requestedWsProtocols, responseHeaders).

End WsH2Stream.

(** ** The plain stream wrapper: [H2Stream] *)

Module H2Stream.

Definition Headers : Type := gmap string WsH2Stream.HeaderValue.

Record ResponseOptions : Type := {
  waitForTrailers : bool;
  endStream : bool
}.

(** Calls made on the underlying HTTP/2 stream. *)
Inductive StreamCall : Type :=
| CallRespond (headers : option Headers) (withTrailers : bool)
| CallWrite (data : list byte)
| CallEnd (endStatus : option Z).

(** The private fields; [logger] is [None] when the constructor received
    no [options.logger]. [calls] records what reached [#stream]. *)
Record State : Type := {
  sentHeaders : option Headers;
  closed : bool;
  errorProtocol : string;
  logger : option (list string);
  calls : list StreamCall
}.

(** [new H2Stream(stream, incomingHeaders, options)] *)
Definition construct (options_logger : option (list string)) : State :=
  {| sentHeaders := None; closed := false; errorProtocol := "logger";
     logger := options_logger; calls := [] |}.

Definition stream_call (call : StreamCall) : M State unit :=
  modify (fun s => {| sentHeaders := sentHeaders s; closed := closed s;
                      errorProtocol := errorProtocol s; logger := logger s;
                      calls := calls s ++ [call] |}).

Definition logger_error (line : string) : M State unit :=
  fun s => match logger s with
           | None => (Throw (undefined_read "error"), s)
           | Some lines =>
               (Normal tt,
                {| sentHeaders := sentHeaders s; closed := closed s;
                   errorProtocol := errorProtocol s;
                   logger := Some (lines ++ [line]); calls := calls s |})
           end.

Local Open Scope js_scope.

(** [end(endStatus)] *)
Definition end_ (endStatus : option Z) : M State unit :=
  _ <- modify (fun s => {| sentHeaders := sentHeaders s; closed := true;
                           errorProtocol := errorProtocol s; logger := logger s;
                           calls := calls s |}) ;;
  stream_call (CallEnd endStatus).

(** [respond(headers, responseOptions)]; an absent argument is [None]. *)
Definition respond (headers : option Headers) (responseOptions : option ResponseOptions)
  : M State unit :=
  sent <- gets sentHeaders ;;
  match sent with
  | Some _ =>
      protocol <- gets errorProtocol ;;
      if bool_decide (protocol = "throw") then
        throw (PlainError "Headers already sent.")
      else logger_error "Headers already sent."
  | None =>
      _ <- modify (fun s => {| sentHeaders := headers; closed := closed s;
                               errorProtocol := errorProtocol s; logger := logger s;
                               calls := calls s |}) ;;
      _ <- stream_call (CallRespond headers
                          (from_option waitForTrailers false responseOptions)) ;;
      if from_option endStream false responseOptions then end_ None else ret tt
  end.

(** [sendData(data)] *)
Definition sendData (data : list byte) : M State unit :=
  sent <- gets sentHeaders ;;
  match sent with
  | None => throw (PlainError "Must respond before sending data")
  | Some _ => stream_call (CallWrite data)
  end.

End H2Stream.

(** ** The mesh coordinator: [Mesh] *)

Module Mesh.

Definition localhostVariants : list string := ["localhost"; "127.0.0.1"; "::1"].
Definition MESH_IP_HEADER : string := "mesh-ip".
Definition MESH_PORT_HEADER : string := "mesh-port".

(** A value used as a property key: [undefined] becomes the key
    ["undefined"]. *)
Definition property_key (value : option string) : string :=
  default "undefined" value.

(** The properties of an HTTP/2 session object the class reads. *)
Record Session : Type := {
  session_id : option string;
  session_sessionId : option string;
  socket_remoteAddress : option string
}.

(** A stream object: [handle] tells objects apart. *)
Record Stream : Type := {
  handle : nat;
  stream_id : option string;
  stream_session : Session
}.

Record SessionEntry : Type := {
  entry_session : Session;
  entry_streams : gmap string Stream
}.

(** [#knownServerConnections] *)
Record KnownServerConnections : Type := {
  bySession : gmap string SessionEntry;
  byIPAndPort : gmap string Stream
}.

(** Listeners the class attaches to a stream or a session. *)
Inductive Listener : Type :=
| StreamClose (sessionId streamId remoteIpAndPort : string)
| StreamData
| StreamEnd (remoteIpAndPort : string) (isOut : bool)
| SessionStream
| SessionClose.

(** What a handler does to the outside, in order. *)
Inductive Effect : Type :=
| Respond (stream : Stream) (status : Z) (endStream : bool)
| Log (level line : string)
| On (stream : Stream) (event : string) (listener : Listener)
| SessionOn (session : Session) (event : string) (listener : Listener)
| Write (stream : Stream) (data : string)
| StreamEndCall (stream : Stream).

Record State : Type := {
  knownServerConnections : KnownServerConnections;
  effects : list Effect
}.

Definition perform (e : Effect) : M State unit :=
  modify (fun s => {| knownServerConnections := knownServerConnections s;
                      effects := effects s ++ [e] |}).

Definition set_known (k : KnownServerConnections) : M State unit :=
  modify (fun s => {| knownServerConnections := k; effects := effects s |}).

Local Open Scope js_scope.

(** [localhostVariants.includes(value)] *)
Definition includes (value : option string) : bool :=
  match value with
  | Some v => bool_decide (v ∈ localhostVariants)
  | None => false
  end.

(** [#processMeshStreamData(stream, remoteIpAndPort, isOut)] *)
Definition processMeshStreamData (stream : Stream) (remoteIpAndPort : string)
    (isOut : bool) : M State unit :=
  _ <- perform (Log "debug" "Processing mesh server stream data: ") ;;
  let sessionId := property_key (session_sessionId (stream_session stream)) in
  let streamId := property_key (stream_id stream) in
  _ <- perform (On stream "close" (StreamClose sessionId streamId remoteIpAndPort)) ;;
  _ <- perform (On stream "data" StreamData) ;;
  perform (On stream "end" (StreamEnd remoteIpAndPort isOut)).

(** The ["close"] listener of [#processMeshStreamData]. *)
Definition streamCloseListener (sessionId streamId remoteIpAndPort : string)
  : M State unit :=
  _ <- perform (Log "info" "Mesh server connection closed: ") ;;
  known <- gets knownServerConnections ;;
  let sessions :=
    match bySession known !! sessionId with
    | Some entry =>
        <[ sessionId := {| entry_session := entry_session entry;
                           entry_streams := delete streamId (entry_streams entry) |} ]>
          (bySession known)
    | None => bySession known
    end in
  set_known {| bySession := sessions;
               byIPAndPort := delete remoteIpAndPort (byIPAndPort known) |}.

(** The ["end"] listener of [#processMeshStreamData]. *)
Definition streamEndListener (stream : Stream) : M State unit :=
  _ <- perform (Log "debug" "Incoming mesh server stream ended: ") ;;
  perform (StreamEndCall stream).

(** [#meshSessionHandler(session)] *)
Definition meshSessionHandler (session : Session) : M State unit :=
  known <- gets knownServerConnections ;;
  _ <- set_known {| bySession := <[ property_key (session_id session) :=
                                      {| entry_session := session;
                                         entry_streams := ∅ |} ]> (bySession known);
                    byIPAndPort := byIPAndPort known |} ;;
  _ <- perform (SessionOn session "stream" SessionStream) ;;
  perform (SessionOn session "close" SessionClose).

(** [#meshStreamHandler(stream, headers)] *)
Definition meshStreamHandler (stream : Stream) (headers : gmap string string)
  : M State unit :=
  let remoteIpHeader := headers !! MESH_IP_HEADER in
  let remotePortHeader := headers !! MESH_PORT_HEADER in
  let remoteSocketAddress := socket_remoteAddress (stream_session stream) in
  match remoteIpHeader, remotePortHeader with
  | Some ip, Some port =>
      if bool_decide (remoteIpHeader ≠ remoteSocketAddress)
         && negb (includes remoteIpHeader && includes remoteSocketAddress)
      then
        _ <- perform (Respond stream 400 true) ;;
        perform (Log "error" "Invalid remote ip: ")
      else
        let remoteIpAndPort := ip +:+ ":" +:+ port in
        known <- gets knownServerConnections ;;
        match byIPAndPort known !! remoteIpAndPort with
        | Some _ =>
            _ <- perform (Respond stream 404 true) ;;
            perform (Log "error" "Existing server connection: ")
        | None =>
            let sessionId := property_key (session_sessionId (stream_session stream)) in
            let streamId := property_key (stream_id stream) in
            match bySession known !! sessionId with
            | None => throw (undefined_read "streams")
            | Some entry =>
                _ <- set_known
                       {| bySession :=
                            <[ sessionId :=
                                 {| entry_session := entry_session entry;
                                    entry_streams :=
                                      <[ streamId := stream ]> (entry_streams entry) |} ]>
                              (bySession known);
                          byIPAndPort :=
                            <[ remoteIpAndPort := stream ]> (byIPAndPort known) |} ;;
                _ <- perform (Log "info" "New inbound mesh server connection: ") ;;
                _ <- processMeshStreamData stream remoteIpAndPort false ;;
                perform (Respond stream 200 false)
            end
        end
  | _, _ =>
      _ <- perform (Respond stream 400 true) ;;
      perform (Log "error" "Missing required headers: ")
  end.

(** The ["response"] listener [#connectToMeshServers] attaches to the
    outbound stream opened towards [serverIpAndPort1]. The response
    headers are only logged. *)
Definition outboundResponseListener (outboundStream : Stream)
    (serverIpAndPort1 : string) (headers : gmap string string) : M State unit :=
  _ <- perform (Log "debug" "Outbound mesh stream connected to: ") ;;
  _ <- processMeshStreamData outboundStream serverIpAndPort1 true ;;
  _ <- perform (Log "debug" "Sending ping to: ") ;;
  perform (Write outboundStream "ping").

(** The servers [#connectToMeshServers] iterates over: everything but
    the node's own ["ip:port"]. *)
Definition connectTargets (meshIp meshPort : string) (otherMeshServers : list string)
  : list string :=
  filter (fun serverIpAndPort => serverIpAndPort ≠ meshIp +:+ ":" +:+ meshPort)
         otherMeshServers.

End Mesh.

(** ** Start-up and shutdown of the coordinating process *)

Module Lifecycle.

(** The objects the coordinator attaches listeners to. *)
Inductive Emitter : Type := MeshHttp2Server | ProcessObject | Cluster.

#[global] Instance Emitter_eq_dec : EqDecision Emitter.
Proof. solve_decision. Defined.

(** The private handlers of the class. *)
Inductive Handler : Type :=
| MeshSessionHandler
| MeshCloseHandler
| MeshServerErrorHandler
| MeshListeningHandler
| SigIntHandler
| WorkerDisconnectHandler
| WorkerMessageHandler.

#[global] Instance Handler_eq_dec : EqDecision Handler.
Proof. solve_decision. Defined.

(** Calls that leave the class. *)
Inductive Action : Type :=
| GetOtherMeshServers
| LogLine (level line : string)
| ConnectTo (server : string)
| CreateServer
| Listen (port ip : string)
| RegisterServer (ip port : string)
| UnRegisterServer (ip port : string)
| UnRegisterPeer (server : string)
| RecordSession
| ClusterDisconnect
| ServerClose
| CloseAllConnections
| SetTimeout (ms : Z)
| EmitMesh (event : string)
| WorkerListen
| StartSequence
| Exit (code : Z).

(** What the runtime delivers to the process: an event emitted on one
    of the emitters, the settlement of a promise the class waits on, the
    callback of [cluster.disconnect], or the shutdown timer. *)
Inductive Input : Type :=
| Emitted (emitter : Emitter) (event : string)
| RegistrationResolved
| RegistrationRejected
| UnRegistrationResolved
| ClusterDisconnected
| TimerFired.

Inductive Entry : Type :=
| Got (input : Input)
| Did (action : Action).

#[global] Instance Action_eq_dec : EqDecision Action.
Proof. solve_decision. Defined.
#[global] Instance Input_eq_dec : EqDecision Input.
Proof. solve_decision. Defined.
#[global] Instance Entry_eq_dec : EqDecision Entry.
Proof. solve_decision. Defined.

Inductive Status : Type :=
| Running
| Exited (code : Z)
| Crashed (e : Error).

(** The instance and the process around it. [errorListener] tells
    whether the owner of the instance has attached a listener for its
    ['error'] event. *)
Record Process : Type := {
  meshIp : string;
  meshPort : string;
  listeners : list (Emitter * string * Handler);
  errorListener : bool;
  pendingRegistrations : nat;
  pendingUnRegistrations : nat;
  disconnectCallbacks : nat;
  timers : nat;
  status : Status;
  history : list Entry
}.

(** The fields as the constructor leaves them: [#meshIp] keeps its
    initial value, [#meshPort] comes from the configuration. *)
Definition construct (port : string) : Process :=
  {| meshIp := "localhost"; meshPort := port; listeners := [];
     errorListener := false;
     pendingRegistrations := 0; pendingUnRegistrations := 0;
     disconnectCallbacks := 0; timers := 0;
     status := Running; history := [] |}.

(** [mesh.on("error", listener)], called by the owner of the instance. *)
Definition onError (p : Process) : Process :=
  {| meshIp := meshIp p; meshPort := meshPort p; listeners := listeners p;
     errorListener := true;
     pendingRegistrations := pendingRegistrations p;
     pendingUnRegistrations := pendingUnRegistrations p;
     disconnectCallbacks := disconnectCallbacks p; timers := timers p;
     status := status p; history := history p |}.

(** The instance as its owner hands it to [start]: with a listener for
    ['error'] attached, or without. *)
Definition owned (listens : bool) (p : Process) : Process :=
  if listens then onError p else p.

Definition record (e : Entry) (p : Process) : Process :=
  {| meshIp := meshIp p; meshPort := meshPort p; listeners := listeners p;
     errorListener := errorListener p;
     pendingRegistrations := pendingRegistrations p;
     pendingUnRegistrations := pendingUnRegistrations p;
     disconnectCallbacks := disconnectCallbacks p; timers := timers p;
     status := status p; history := history p ++ [e] |}.

Definition act (a : Action) (p : Process) : Process := record (Did a) p.

Definition on (emitter : Emitter) (event : string) (h : Handler) (p : Process)
  : Process :=
  {| meshIp := meshIp p; meshPort := meshPort p;
     listeners := listeners p ++ [(emitter, event, h)];
     errorListener := errorListener p;
     pendingRegistrations := pendingRegistrations p;
     pendingUnRegistrations := pendingUnRegistrations p;
     disconnectCallbacks := disconnectCallbacks p; timers := timers p;
     status := status p; history := history p |}.

Definition set_status (s : Status) (p : Process) : Process :=
  {| meshIp := meshIp p; meshPort := meshPort p; listeners := listeners p;
     errorListener := errorListener p;
     pendingRegistrations := pendingRegistrations p;
     pendingUnRegistrations := pendingUnRegistrations p;
     disconnectCallbacks := disconnectCallbacks p; timers := timers p;
     status := s; history := history p |}.

Definition set_counters (reg unreg disc tm : nat) (p : Process) : Process :=
  {| meshIp := meshIp p; meshPort := meshPort p; listeners := listeners p;
     errorListener := errorListener p;
     pendingRegistrations := reg; pendingUnRegistrations := unreg;
     disconnectCallbacks := disc; timers := tm;
     status := status p; history := history p |}.

(** [process.exit(code)] *)
Definition exit (code : Z) (p : Process) : Process :=
  set_status (Exited code) (act (Exit code) p).

(** [#meshListeningHandler]: the registration call, with its [catch]
    callback left pending. *)
Definition meshListeningHandler (p : Process) : Process :=
  let p := act (LogLine "log" "Mesh server listening on: ") p in
  let p := act (RegisterServer (meshIp p) (meshPort p)) p in
  set_counters (S (pendingRegistrations p)) (pendingUnRegistrations p)
               (disconnectCallbacks p) (timers p) p.

(** The [catch] callback of [#meshListeningHandler]. *)
Definition registrationCatch (p : Process) : Process :=
  exit 1 (act (LogLine "error" "Error registering server: ") p).

(** [#meshSessionHandler] *)
Definition meshSessionHandler (p : Process) : Process := act RecordSession p.

(** [#meshCloseHandler] *)
Definition meshCloseHandler (p : Process) : Process :=
  let p := act (LogLine "info" "Mesh server stopped listening. Stopping the process") p in
  let p := act ClusterDisconnect p in
  set_counters (pendingRegistrations p) (pendingUnRegistrations p)
               (S (disconnectCallbacks p)) (timers p) p.

(** The error the mesh server reports with its ['error'] event. *)
Definition server_error : Error := PlainError "mesh server error".

(** [#meshServerErrorHandler]: the error is logged and emitted again on
    the instance; when nothing listens for ['error'] there, [emit]
    throws it out of the handler. *)
Definition meshServerErrorHandler (p : Process) : Process :=
  let p := act (LogLine "error" "Mesh server error: ") p in
  let p := act (EmitMesh "error") p in
  if errorListener p then p else set_status (Crashed server_error) p.

(** [#workerDisconnectHandler]: [cluster.worker] is not defined in the
    primary process, so reading its [id] throws out of the listener. *)
Definition workerDisconnectHandler (p : Process) : Process :=
  set_status (Crashed (undefined_read "id")) p.

(** [#sigIntHandler] up to its [await] *)
Definition sigIntHandler (p : Process) : Process :=
  let p := act (LogLine "log" "SIGINT received. Stopping mesh server") p in
  let p := act (UnRegisterServer (meshIp p) (meshPort p)) p in
  set_counters (pendingRegistrations p) (S (pendingUnRegistrations p))
               (disconnectCallbacks p) (timers p) p.

(** [#sigIntHandler] after its [await] *)
Definition sigIntResume (p : Process) : Process :=
  let p := act ClusterDisconnect p in
  let p := act ServerClose p in
  let p := act CloseAllConnections p in
  let p := act (LogLine "log" "Mesh server stopped. Stopping the process in 10 seconds") p in
  let p := act (SetTimeout 10000) p in
  set_counters (pendingRegistrations p) (pendingUnRegistrations p)
               (disconnectCallbacks p) (S (timers p)) p.

(** [#workerMessageHandler]: the body holds only comments. *)
Definition workerMessageHandler (p : Process) : Process := p.

Definition call (h : Handler) (p : Process) : Process :=
  match h with
  | MeshSessionHandler => meshSessionHandler p
  | MeshCloseHandler => meshCloseHandler p
  | MeshServerErrorHandler => meshServerErrorHandler p
  | MeshListeningHandler => meshListeningHandler p
  | SigIntHandler => sigIntHandler p
  | WorkerDisconnectHandler => workerDisconnectHandler p
  | WorkerMessageHandler => workerMessageHandler p
  end.

Definition is_running (p : Process) : bool :=
  match status p with Running => true | _ => false end.

(** The listeners attached to [emitter] for [event], in the order they
    were attached. *)
Definition listeners_for (emitter : Emitter) (event : string)
    (table : list (Emitter * string * Handler)) : list Handler :=
  omap (fun '(em, ev, h) =>
          if bool_decide (em = emitter /\ ev = event) then Some h else None)
       table.

(** [emitter.emit(event)]: the listeners run one after the other; none
    runs once the process is gone. *)
Fixpoint call_all (hs : list Handler) (p : Process) : Process :=
  match hs with
  | [] => p
  | h :: rest => if is_running p then call_all rest (call h p) else p
  end.

(** [#startMeshServer()] *)
Definition startMeshServer (p : Process) : Process :=
  let p := act CreateServer p in
  let p := on MeshHttp2Server "session" MeshSessionHandler p in
  let p := on MeshHttp2Server "close" MeshCloseHandler p in
  let p := on MeshHttp2Server "error" MeshServerErrorHandler p in
  let p := on MeshHttp2Server "listening" MeshListeningHandler p in
  let p := on ProcessObject "SIGINT" SigIntHandler p in
  let p := on Cluster "disconnect" WorkerDisconnectHandler p in
  let p := on Cluster "message" WorkerMessageHandler p in
  act (Listen (meshPort p) (meshIp p)) p.

(** One turn of the loop of [#connectToMeshServers], [going] telling
    whether the function is still running: the server is connected to,
    and where [http2.connect] or [request] throws ([reachable] is false)
    the [catch] block logs and awaits [unRegisterServerFn(server)].
    [unregistered] tells whether that promise resolves; when it is
    rejected or never settles the function goes no further. *)
Definition connectOne (reachable unregistered : string -> bool)
    (state : Process * bool) (server : string) : Process * bool :=
  let '(p, going) := state in
  if going then
    let p := act (LogLine "debug" "Connecting to mesh server: ") p in
    if reachable server then (act (ConnectTo server) p, true)
    else
      let p := act (LogLine "error" "Error connecting to mesh server: ") p in
      let p := act (LogLine "debug" "Unregistering unreachable mesh server: ") p in
      (act (UnRegisterPeer server) p, unregistered server)
  else (p, false).

(** The calls [#connectToMeshServers] makes, and whether it runs to its
    end: the [map] over the filtered list logs every server first; the
    loop then goes through the servers. What the listeners attached here
    do later is in [Mesh]. *)
Definition connectToMeshServers (reachable unregistered : string -> bool)
    (otherMeshServers : list string) (p : Process) : Process * bool :=
  let p := act (LogLine "debug" "Other mesh servers: ") p in
  let targets := Mesh.connectTargets (meshIp p) (meshPort p) otherMeshServers in
  let p := foldl (fun p server => act (LogLine "log" server) p) p targets in
  foldl (connectOne reachable unregistered) (p, true) targets.

(** [start()], once [#getOtherMeshServesFn] has answered with
    [otherServers]: the mesh server is started when the awaited
    [#connectToMeshServers] has run to its end. *)
Definition start (isPrimary : bool) (reachable unregistered : string -> bool)
    (otherServers : list string) (p : Process) : Process :=
  if isPrimary then
    let p := act GetOtherMeshServers p in
    let p := act (LogLine "log" "Other servers: ") p in
    let '(p, completed) :=
      connectToMeshServers reachable unregistered otherServers p in
    if completed then startMeshServer p else p
  else
    let p := act (LogLine "info" "Start sequence for worker: ") p in
    let p := act WorkerListen p in
    act StartSequence p.

(** One turn of the event loop. *)
Definition step (p : Process) (i : Input) : Process :=
  if is_running p then
    let p := record (Got i) p in
    match i with
    | Emitted emitter event => call_all (listeners_for emitter event (listeners p)) p
    | RegistrationResolved =>
        set_counters (pred (pendingRegistrations p)) (pendingUnRegistrations p)
                     (disconnectCallbacks p) (timers p) p
    | RegistrationRejected =>
        match pendingRegistrations p with
        | O => p
        | S n => registrationCatch
                   (set_counters n (pendingUnRegistrations p)
                                 (disconnectCallbacks p) (timers p) p)
        end
    | UnRegistrationResolved =>
        match pendingUnRegistrations p with
        | O => p
        | S n => sigIntResume
                   (set_counters (pendingRegistrations p) n
                                 (disconnectCallbacks p) (timers p) p)
        end
    | ClusterDisconnected =>
        match disconnectCallbacks p with
        | O => p
        | S _ => exit 0 p
        end
    | TimerFired =>
        match timers p with
        | O => p
        | S _ => exit 0 p
        end
    end
  else p.

Definition run (p : Process) (inputs : list Input) : Process :=
  foldl step p inputs.

End Lifecycle.

(** ** Concrete inputs used by the examples below *)

Module Scenario.

Import WsH2Stream.

(** A channel right after construction, with a logger. *)
Definition idle : Channel :=
  {| currentFrameFragments := []; logger := Some []; written := [];
     endCalls := 0; emitted := [] |}.

(** A 126-byte payload whose first byte differs from the rest. *)
Definition payload126 : list byte := x01 :: repeat x00 125.

(** A binary fragment with the 16-bit length marker and length bytes 01 00. *)
Definition chunk_len16 : list byte := [x82; x7e; x01; x00].

(** A binary fragment with the 64-bit length marker and a length field
    whose bytes read 256 in network order. *)
Definition chunk_len64 : list byte :=
  [x82; x7f; x00; x00; x00; x00; x00; x00; x01; x00].

(** The first, non-final fragment of a binary message: two payload bytes. *)
Definition first_fragment : FragmentDetails :=
  {| isFinal := 0; rsv1 := 0; rsv2 := 0; rsv3 := 0; opcode := OPCODES.BINARY;
     payloadLength := LenNumber 2; maskingKey := None; usesMasking := false;
     payload := [x0a; x0b] |}.

(** A channel in the middle of a fragmented message. *)
Definition mid_message : Channel :=
  {| currentFrameFragments := [Some first_fragment]; logger := Some [];
     written := []; endCalls := 0; emitted := [] |}.

(** A final Ping frame without payload. *)
Definition ping_chunk : list byte := [x89; x00].

(** An allow-list and an upgrade request naming three subprotocols. *)
Definition allow_list : list string := ["chat"; "v2"].
Definition upgrade_headers : gmap string string :=
  {[ HTTP2_HEADER_WS_PROTO := "v2,x,chat" ]}.

(** Upgrade requests whose list has a space after the comma. *)
Definition spaced_headers : gmap string string :=
  {[ HTTP2_HEADER_WS_PROTO := "chat, v2" ]}.
Definition spaced_headers_unknown_first : gmap string string :=
  {[ HTTP2_HEADER_WS_PROTO := "x, v2" ]}.

(** Two header sets for two calls of [respond]. *)
Definition ok_headers : H2Stream.Headers := {[ HTTP2_HEADER_STATUS := HNum 200 ]}.
Definition not_found_headers : H2Stream.Headers :=
  {[ HTTP2_HEADER_STATUS := HNum 404 ]}.

(** *** Mesh *)

Import Mesh.

(** A session coming from the loopback address, as Node hands it over:
    it has neither an [id] nor a [sessionId] property. *)
Definition loopback_session : Session :=
  {| session_id := None; session_sessionId := None;
     socket_remoteAddress := Some "127.0.0.1" |}.

Definition stream1 : Stream :=
  {| handle := 1; stream_id := Some "1"; stream_session := loopback_session |}.
Definition stream2 : Stream :=
  {| handle := 2; stream_id := Some "3"; stream_session := loopback_session |}.

(** The first stream of a second connection from the loopback address. *)
Definition stream4 : Stream :=
  {| handle := 4; stream_id := Some "1"; stream_session := loopback_session |}.

(** A session whose peer sits at 10.0.0.7. *)
Definition remote_session : Session :=
  {| session_id := None; session_sessionId := None;
     socket_remoteAddress := Some "10.0.0.7" |}.
Definition stream3 : Stream :=
  {| handle := 3; stream_id := Some "1"; stream_session := remote_session |}.

(** The request headers of a peer declaring [ip] and [port]. *)
Definition declares (ip port : string) : gmap string string :=
  {[ MESH_IP_HEADER := ip; MESH_PORT_HEADER := port ]}.

Definition no_links : State :=
  {| knownServerConnections := {| bySession := ∅; byIPAndPort := ∅ |};
     effects := [] |}.

(** The registry once the loopback session is known. *)
Definition one_session : State := snd (meshSessionHandler loopback_session no_links).

(** The registry after a first peer declared localhost:9000. *)
Definition one_link : State :=
  snd (meshStreamHandler stream1 (declares "localhost" "9000") one_session).

(** An outbound stream towards the peer registered as 10.0.0.2:9001 and
    the success response of that peer. *)
Definition outbound : Stream :=
  {| handle := 7; stream_id := Some "1";
     stream_session := {| session_id := None; session_sessionId := None;
                          socket_remoteAddress := Some "10.0.0.2" |} |}.
Definition success_response : gmap string string := {[ ":status" := "200" ]}.

End Scenario.

(** ** Vocabulary of the statements *)

Module Vocabulary.

Import WsH2Stream.

(** The channel after one more chunk was written to its stream. *)
Definition wrote (chunk : list byte) (c : Channel) : Channel :=
  {| currentFrameFragments := currentFrameFragments c; logger := logger c;
     written := written c ++ [chunk]; endCalls := endCalls c;
     emitted := emitted c |}.

Definition data_opcode (op : Z) : Prop := op = OPCODES.TEXT \/ op = OPCODES.BINARY.

(** The frame a short data payload decodes to. *)
Definition plain_frame (op : Z) (data : list byte) : FragmentDetails :=
  {| isFinal := 128; rsv1 := 0; rsv2 := 0; rsv3 := 0; opcode := op;
     payloadLength := LenNumber (Z.of_nat (length data));
     maskingKey := None; usesMasking := false; payload := data |}.

(** *** The subprotocol list of an upgrade request *)

(** White space that may stand around the names of a list. *)
Definition is_blank (c : ascii) : bool :=
  Ascii.eqb c " " || Ascii.eqb c "009".

Fixpoint trim_left (s : string) : string :=
  match s with
  | EmptyString => EmptyString
  | String c rest => if is_blank c then trim_left rest else s
  end.

Fixpoint trim_right (s : string) : string :=
  match s with
  | EmptyString => EmptyString
  | String c rest =>
      match trim_right rest with
      | EmptyString => if is_blank c then EmptyString else String c EmptyString
      | kept => String c kept
      end
  end.

Definition trim (s : string) : string := trim_right (trim_left s).

(** The elements of a comma-separated list as they are written between
    the commas; [current] is the element read so far. *)
Fixpoint elements_from (current : string) (s : string) : list string :=
  match s with
  | EmptyString => [current]
  | String c rest =>
      if Ascii.eqb c "," then current :: elements_from EmptyString rest
      else elements_from (current +:+ String c EmptyString) rest
  end.

(** The subprotocol names a header value lists: its elements without the
    white space around them; an empty element names nothing. *)
Definition subprotocol_names (value : string) : list string :=
  filter (fun name => name ≠ EmptyString) (trim <$> elements_from EmptyString value).

(** The intersection of the requested subprotocols with the allow-list,
    in the order the client listed them. *)
Definition requested_intersection (acceptedProtocols : list string) (value : string)
  : list string :=
  filter (fun protocol => protocol ∈ acceptedProtocols) (subprotocol_names value).

(** The subprotocol header a response should carry for [names]. *)
Definition echo_of (names : list string) : option HeaderValue :=
  match names with
  | [] => None
  | _ => Some (HStr (join_comma names))
  end.

(** A string without white space. *)
Fixpoint no_blank (s : string) : bool :=
  match s with
  | EmptyString => true
  | String c rest => negb (is_blank c) && no_blank rest
  end.

(** The declared address agrees with the observed one: equal, or both
    loopback names. *)
Definition same_origin (declared : string) (observed : option string) : Prop :=
  Some declared = observed
  \/ (declared ∈ Mesh.localhostVariants
      /\ exists o, observed = Some o /\ o ∈ Mesh.localhostVariants).

(** The key a declared identity is recorded under. *)
Definition identity_key (ip port : string) : string := ip +:+ ":" +:+ port.

(** The state after a handler appended [es] to the effects and nothing else. *)
Definition after_effects (es : list Mesh.Effect) (s : Mesh.State) : Mesh.State :=
  {| Mesh.knownServerConnections := Mesh.knownServerConnections s;
     Mesh.effects := Mesh.effects s ++ es |}.

(** *** Histories of the coordinating process *)

(** A call of the registration function. *)
Definition is_registration (e : Lifecycle.Entry) : bool :=
  match e with
  | Lifecycle.Did (Lifecycle.RegisterServer _ _) => true
  | _ => false
  end.

(** The mesh listener reporting that it is bound and accepting. *)
Definition listening_event : Lifecycle.Entry :=
  Lifecycle.Got (Lifecycle.Emitted Lifecycle.MeshHttp2Server "listening").

(** Something the runtime delivered. *)
Definition is_input (e : Lifecycle.Entry) : bool :=
  match e with
  | Lifecycle.Got _ => true
  | Lifecycle.Did _ => false
  end.

(** Every entry of the history that satisfies [Q] has [enabler]
    somewhere before it. *)
Definition precedes (enabler : Lifecycle.Entry) (Q : Lifecycle.Entry -> bool)
    (h : list Lifecycle.Entry) : Prop :=
  forall pre e post, h = pre ++ e :: post -> Q e = true -> enabler ∈ pre.

(** The listener table [#startMeshServer] builds. *)
Definition start_table
  : list (Lifecycle.Emitter * string * Lifecycle.Handler) :=
  [(Lifecycle.MeshHttp2Server, "session", Lifecycle.MeshSessionHandler);
   (Lifecycle.MeshHttp2Server, "close", Lifecycle.MeshCloseHandler);
   (Lifecycle.MeshHttp2Server, "error", Lifecycle.MeshServerErrorHandler);
   (Lifecycle.MeshHttp2Server, "listening", Lifecycle.MeshListeningHandler);
   (Lifecycle.ProcessObject, "SIGINT", Lifecycle.SigIntHandler);
   (Lifecycle.Cluster, "disconnect", Lifecycle.WorkerDisconnectHandler);
   (Lifecycle.Cluster, "message", Lifecycle.WorkerMessageHandler)].

(** What holds of the coordinating process from [start] on. *)
Definition started (port : string) (p : Lifecycle.Process) : Prop :=
  Lifecycle.listeners p = start_table
  /\ Lifecycle.meshIp p = "localhost"
  /\ Lifecycle.meshPort p = port
  /\ Lifecycle.Did (Lifecycle.Listen port "localhost") ∈ Lifecycle.history p
  /\ precedes listening_event is_registration (Lifecycle.history p)
  /\ precedes (Lifecycle.Did (Lifecycle.Listen port "localhost")) is_input
       (Lifecycle.history p).

(** No input was delivered and no registration made. *)
Definition calm (p : Lifecycle.Process) : Prop :=
  Forall (fun e => is_registration e = false /\ is_input e = false)
         (Lifecycle.history p).

(** What holds of the process before the listener table exists. *)
Definition not_started (port : string) (p : Lifecycle.Process) : Prop :=
  Lifecycle.listeners p = [] /\ Lifecycle.meshIp p = "localhost"
  /\ Lifecycle.meshPort p = port /\ calm p.

(** Nothing is pending and the process runs. *)
Definition quiet (p : Lifecycle.Process) : Prop :=
  Lifecycle.pendingRegistrations p = 0%nat
  /\ Lifecycle.pendingUnRegistrations p = 0%nat
  /\ Lifecycle.disconnectCallbacks p = 0%nat
  /\ Lifecycle.timers p = 0%nat
  /\ Lifecycle.status p = Lifecycle.Running.

End Vocabulary.

Import Vocabulary.

(** ** Further code of the repository *)

(** *** [utils/concat-typed-arrays.mjs] *)

Module TypedArrays.

(** The typed array classes. *)
Inductive Kind : Type :=
| Int8Array | Uint8Array | Uint8ClampedArray
| Int16Array | Uint16Array
| Int32Array | Uint32Array
| Float16Array | Float32Array | Float64Array
| BigInt64Array | BigUint64Array.

#[global] Instance Kind_eq_dec : EqDecision Kind.
Proof. solve_decision. Defined.

(** The content type of a class: BigInt for the two 64-bit integer
    classes, Number for the others. *)
Definition is_bigint (k : Kind) : bool :=
  match k with
  | BigInt64Array | BigUint64Array => true
  | _ => false
  end.

(** A typed array: its class and its elements. The element values are
    of a type [Value] that is left open. *)
Record TypedArray (Value : Type) : Type := {
  kind : Kind;
  elements : list Value
}.

Arguments kind {Value} _.
Arguments elements {Value} _.

Section Elements.

Variable Value : Type.

(** [convert k v]: the value an array of class [k] holds after [v],
    read from an array of another class, was written into it (the
    conversion of the target class: wrapping, clamping or rounding). *)
Variable convert : Kind -> Value -> Value.

(** The element a new array of a class is filled with. *)
Variable zero : Kind -> Value.

(** [new arraySpecies(length)] *)
Definition new (arraySpecies : Kind) (length : nat) : TypedArray Value :=
  {| kind := arraySpecies; elements := replicate length (zero arraySpecies) |}.

(** What one element of [source] becomes in [target]: between arrays of
    one class the element is copied as it is. *)
Definition store (source target : Kind) (v : Value) : Value :=
  if bool_decide (source = target) then v else convert target v.

(** [result.set(array, offset)]: arrays of different content types
    cannot be mixed; a source that does not fit behind [offset] raises a
    RangeError; otherwise the elements are written in place. *)
Definition set (result array : TypedArray Value) (offset : nat)
  : Completion (TypedArray Value) :=
  if negb (Bool.eqb (is_bigint (kind result)) (is_bigint (kind array))) then
    Throw (TypeError "Cannot mix BigInt and other types, use explicit conversions")
  else if (offset + length (elements array) <=? length (elements result))%nat then
    Normal {| kind := kind result;
              elements :=
                take offset (elements result)
                ++ (store (kind array) (kind result) <$> elements array)
                ++ drop (offset + length (elements array)) (elements result) |}
  else Throw (RangeError "offset is out of bounds").

(** [concatTypedArrays(arrays, arraySpecies = Uint8Array)]: a result of
    the total length, filled array by array at a running offset. *)
Definition concatTypedArrays (arrays : list (TypedArray Value))
    (arraySpecies : option Kind) : Completion (TypedArray Value) :=
  let arraySpecies := default Uint8Array arraySpecies in
  let totalLength :=
    foldl (fun acc array => (acc + length (elements array))%nat) 0%nat arrays in
  let result := new arraySpecies totalLength in
  bindC
    (foldl (fun state array =>
              bindC state (fun '(result, offset) =>
                bindC (set result array offset) (fun result =>
                  Normal (result, (offset + length (elements array))%nat))))
           (Normal (result, 0%nat)) arrays)
    (fun '(result, _) => Normal result).

End Elements.

End TypedArrays.

(** *** The console logger returned by [getConsoleLogger] *)

Module ConsoleLogger.

Definition levels : list string :=
  ["debug"; "info"; "warn"; "error"; "log"; "mandatory"].

(** A JavaScript number: a fraction [num/den], or one of the values that
    are not finite. *)
Inductive Number : Type :=
| Finite (num : Z) (den : positive)
| NaN
| PlusInfinity
| MinusInfinity.

(** [configs.level]: a number, a string, or anything else (also absent). *)
Inductive Level : Type :=
| LevelNumber (n : Number)
| LevelString (s : string)
| LevelOther.

(** [n < 0] *)
Definition below_zero (n : Number) : bool :=
  match n with
  | Finite num _ => num <? 0
  | MinusInfinity => true
  | NaN | PlusInfinity => false
  end.

(** [n >= k] for a natural number [k] *)
Definition at_least (n : Number) (k : nat) : bool :=
  match n with
  | Finite num den => Z.of_nat k * Z.pos den <=? num
  | PlusInfinity => true
  | NaN | MinusInfinity => false
  end.

(** [index < n] for an array index *)
Definition index_below (index : nat) (n : Number) : bool :=
  match n with
  | Finite num den => Z.of_nat index * Z.pos den <? num
  | PlusInfinity => true
  | NaN | MinusInfinity => false
  end.

(** [levels.indexOf(s)], [None] standing for -1. *)
Fixpoint indexOf (s : string) (l : list string) : option nat :=
  match l with
  | [] => None
  | x :: rest => if bool_decide (x = s) then Some 0%nat else S <$> indexOf s rest
  end.

(** The logger handed back: for each method, whether it still prints
    ([true]) or was replaced by the empty function. *)
Definition Logger : Type := list (string * bool).

(** [getConsoleLogger(configs)] *)
Definition getConsoleLogger (level : Level) : Completion Logger :=
  bindC
    (match level with
     | LevelNumber n =>
         if below_zero n || at_least n (length levels)
         then Throw (PlainError "Invalid level index")
         else Normal n
     | LevelString s =>
         match indexOf s levels with
         | None => Throw (PlainError "Invalid level string")
         | Some i => Normal (Finite (Z.of_nat i) 1)
         end
     | LevelOther => Normal (Finite 0 1)
     end)
    (fun levelIndex =>
       Normal (imap (fun index name => (name, negb (index_below index levelIndex)))
                    levels)).

(** Whether [logger.<method>] prints. A method the logger does not have
    is [None]. *)
Fixpoint prints (logger : Logger) (method : string) : option bool :=
  match logger with
  | [] => None
  | (name, active) :: rest =>
      if bool_decide (name = method) then Some active else prints rest method
  end.

End ConsoleLogger.

(** *** [sendBinary] of the framing channel *)

Module Binary.

Import WsH2Stream.

(** The argument of [sendBinary]: a [Buffer] (a [FastBuffer] is one too),
    or any other value. *)
Inductive Argument : Type :=
| IsBuffer (bytes : list byte)
| NotBuffer.

(** [sendBinary(data)]. In the guard, [!data instanceof FastBuffer] is
    [(!data) instanceof FastBuffer], which is false; [data instanceof
    Buffer] decides for a buffer; for anything else the third operand is
    evaluated, whose right-hand side [Uint8Array.prototype] is not
    callable. *)
Definition sendBinary (data : Argument) : M Channel unit :=
  Js.bind
    (lift (match data with
           | IsBuffer _ => Normal true
           | NotBuffer => Throw (TypeError "Right-hand side of 'instanceof' is not callable")
           end))
    (fun guard =>
       if guard then throw (TypeError "Data must be a Buffer or FastBuffer.")
       else sendFrame {| opt_opcode := OPCODES.BINARY;
                         opt_payload := match data with
                                        | IsBuffer bytes => Some bytes
                                        | NotBuffer => None
                                        end |}).

End Binary.

(** *** [H2Stream.categorise] and the stream listener of [H2Session] *)

Module H2Session.

Definition HTTP_STATUS_NOT_IMPLEMENTED : Z := 501.
Definition NGHTTP2_REFUSED_STREAM : Z := 7.
Definition HTTP2_HEADER_METHOD : string := ":method".
Definition HTTP2_HEADER_PROTOCOL : string := ":protocol".

(** What [categorise] hands back: a [WsH2Stream] (with the subprotocols
    the client asked for), a plain [H2Stream], or nothing. *)
Inductive Wrapper : Type :=
| Ws (requestedWsProtocols : option (list string))
| Plain.

(** What happens to the outside, in order: calls on the raw stream, log
    lines, and the ['stream'] event of the session. *)
Inductive Effect : Type :=
| RawRespond (headers : H2Stream.Headers) (endStream : bool)
| RawClose (code : Z)
| RawOn (event : string)
| Logged (level line : string)
| EmitStream (wrapper : Wrapper).

Definition refuse : list Effect :=
  [RawRespond {[ WsH2Stream.HTTP2_HEADER_STATUS := WsH2Stream.HNum HTTP_STATUS_NOT_IMPLEMENTED ]} true;
   RawClose NGHTTP2_REFUSED_STREAM].

(** [new WsH2Stream(stream, incomingHeaders, options)]: the handshake
    answers on the raw stream, then the three listeners are attached. *)
Definition new_WsH2Stream (acceptedProtocols : list string)
    (incomingHeaders : gmap string string) : Wrapper * list Effect :=
  let '(requested, responseHeaders) :=
    WsH2Stream.handshake acceptedProtocols incomingHeaders in
  (Ws requested,
   [RawRespond responseHeaders false; RawOn "data"; RawOn "end"; RawOn "error"]).

(** [H2Stream.categorise(stream, incomingHeaders, options)] *)
Definition categorise (acceptedProtocols : list string)
    (incomingHeaders : gmap string string) : option Wrapper * list Effect :=
  if bool_decide (incomingHeaders !! HTTP2_HEADER_METHOD = Some "CONNECT") then
    if bool_decide (incomingHeaders !! HTTP2_HEADER_PROTOCOL = Some "websocket") then
      let '(wrapper, effects) := new_WsH2Stream acceptedProtocols incomingHeaders in
      (Some wrapper, effects)
    else if bool_decide (incomingHeaders !! HTTP2_HEADER_PROTOCOL = Some "webtransport") then
      (None, Logged "error" "WebTransport not implemented." :: refuse)
    else (None, refuse)
  else (Some Plain, []).

(** The session: [#streams], keyed by the raw stream, and what it did. *)
Record State : Type := {
  streams : gmap nat Wrapper;
  effects : list Effect
}.

(** [#streamListener(stream, headers)] *)
Definition streamListener (acceptedProtocols : list string) (stream : nat)
    (headers : gmap string string) (s : State) : State :=
  let '(h2Stream, made) := categorise acceptedProtocols headers in
  let effects := effects s ++ [Logged "debug" "Stream Initiated with headers"] ++ made in
  match h2Stream with
  | None =>
      {| streams := streams s;
         effects := effects
           ++ [Logged "warn" "Stream not handled.";
               RawRespond {[ WsH2Stream.HTTP2_HEADER_STATUS :=
                               WsH2Stream.HNum HTTP_STATUS_NOT_IMPLEMENTED ]} false;
               RawClose NGHTTP2_REFUSED_STREAM] |}
  | Some wrapper =>
      {| streams := <[ stream := wrapper ]> (streams s);
         effects := effects ++ [RawOn "close"; RawOn "error"; EmitStream wrapper] |}
  end.

(** The ['close'] listener [#streamListener] attaches to the raw stream. *)
Definition streamCloseListener (stream : nat) (s : State) : State :=
  {| streams := delete stream (streams s); effects := effects s |}.

(** The ['error'] listener [#streamListener] attaches to the raw stream. *)
Definition streamErrorListener (stream : nat) (s : State) : State :=
  {| streams := delete stream (streams s);
     effects := effects s ++ [Logged "error" "stream error"] |}.

End H2Session.

(** *** [notFoundHandler] *)

Module NotFoundHandler.

Import H2Stream.

Definition HTTP_STATUS_NOT_FOUND : Z := 404.

(** A regular expression, as far as the handler uses it: whether it has
    the global flag, and whether [matchAll] finds a match of it in a
    string. *)
Record RegExp : Type := {
  global : bool;
  matches : string -> bool
}.

(** The configuration: [filter] is [config.filter] when that is a
    [RegExp] ([None] when it is absent or something else); [filterHeader]
    the header it is applied to. *)
Record Config : Type := {
  filter : option RegExp;
  filterHeader : option string;
  closeOpenStreams : bool
}.

(** The state of the underlying stream the handler depends on:
    [#stream.closed || #stream.destroyed], and [#stream.headersSent]. *)
Record Raw : Type := {
  rawClosed : bool;
  rawHeadersSent : bool
}.

(** The [closed] getter of [H2Stream]. *)
Definition closed_getter (raw : Raw) (s : State) : bool :=
  closed s || rawClosed raw.

Definition not_found_headers : Headers :=
  {[ WsH2Stream.HTTP2_HEADER_STATUS := WsH2Stream.HNum HTTP_STATUS_NOT_FOUND ]}.

Local Open Scope js_scope.

(** [h2Stream.respond(headers, {endStream: true})] on a wrapper without
    sent headers: the headers are stored, then [respond] is called on the
    underlying stream, which raises when that stream is closed or
    destroyed or has sent headers already; only when it returns is the
    stream ended. *)
Definition respond_and_end (raw : Raw) (headers : Headers) : M State unit :=
  if rawClosed raw || rawHeadersSent raw then
    _ <- modify (fun s => {| sentHeaders := Some headers; closed := closed s;
                             errorProtocol := errorProtocol s; logger := logger s;
                             calls := calls s |}) ;;
    _ <- stream_call (CallRespond (Some headers) false) ;;
    throw (PlainError (if rawClosed raw then "The stream has been destroyed"
                       else "Response has already been initiated."))
  else
    respond (Some headers) (Some {| waitForTrailers := false; endStream := true |}).

(** [notFoundHandler(config)(h2Stream)], for a stream whose request
    headers are [incomingHeaders]. *)
Definition notFoundHandler (config : Config) (incomingHeaders : gmap string string)
    (raw : Raw) : M State unit :=
  proceed <-
    match filter config, filterHeader config with
    | Some regexp, Some header =>
        if WsH2Stream.truthy header then
          match incomingHeaders !! header with
          | None => throw (undefined_read "matchAll")
          | Some value =>
              if global regexp then ret (matches regexp value)
              else throw (TypeError "String.prototype.matchAll called with a non-global RegExp argument")
          end
        else ret true
    | _, _ => ret true
    end ;;
  if negb proceed then ret tt
  else
    sent <- gets sentHeaders ;;
    match sent with
    | None => respond_and_end raw not_found_headers
    | Some _ =>
        s <- gets (fun s => s) ;;
        if closeOpenStreams config && negb (closed_getter raw s)
        then end_ (Some H2Session.NGHTTP2_REFUSED_STREAM)
        else ret tt
    end.

End NotFoundHandler.

(** *** The constructor of [Mesh] *)

Module MeshConfig.

(** The configuration object: whether the three functions are given, and
    the port, address and worker count when given. *)
Record Config : Type := {
  registerServerFn : bool;
  unRegisterServerFn : bool;
  getOtherMeshServesFn : bool;
  port : option Z;
  ip : option string;
  clusterWorkerCount : option Z
}.

(** The addresses the constructor lets through. *)
Definition local_sub_network (ip : string) : bool :=
  String.prefix "10." ip
  || String.prefix "192.168." ip
  || String.prefix "172." ip
  || String.prefix "127." ip
  || bool_decide (ip = "localhost").

Definition refusal : Error :=
  PlainError "Port and ip are required and ip must be a local sub network. DO NOT RUN THIS ON A PUBLIC NETWORK!!!".

(** [new Mesh(config)]: the checks, then the fields. [#meshIp] is not
    assigned; [#meshPort] is [config.port || 8080]. *)
Definition new_Mesh (config : Config) : Completion Lifecycle.Process :=
  if negb (registerServerFn config) then
    Throw (PlainError "registerServerFn is required")
  else if negb (getOtherMeshServesFn config) then
    Throw (PlainError "getOtherMeshServesFn is required")
  else
    match port config, ip config with
    | Some p, Some address =>
        if local_sub_network address then
          Normal (Lifecycle.construct (pretty (if p =? 0 then 8080 else p)))
        else Throw refusal
    | _, _ => Throw refusal
    end.

End MeshConfig.

(** *** Vocabulary of the further statements *)

Module Terms.

Import WsH2Stream.

(** The fragment with another payload. *)
Definition with_payload (bytes : list byte) (f : FragmentDetails) : FragmentDetails :=
  {| isFinal := isFinal f; rsv1 := rsv1 f; rsv2 := rsv2 f; rsv3 := rsv3 f;
     opcode := opcode f; payloadLength := payloadLength f;
     maskingKey := maskingKey f; usesMasking := usesMasking f; payload := bytes |}.

(** The frame event of a message whose first fragment has opcode [op]. *)
Definition frame_event (op : Z) (bytes : list byte) : Event :=
  EvFrame {| frame_opcode := op;
             frame_type := frame_type_of op;
             frame_payload := if op =? OPCODES.TEXT then Utf8Text bytes
                              else Binary bytes |}.

(** The channel after a complete message was delivered. *)
Definition delivered (e : Event) (lines : list string) (c : Channel) : Channel :=
  {| currentFrameFragments := []; logger := Some (lines ++ ["Frame received"]);
     written := written c; endCalls := endCalls c; emitted := emitted c ++ [e] |}.

(** Where the bytes after the length field start, for a second byte
    whose seven low bits are [field]. *)
Definition header_length (field : Z) : nat :=
  if field =? 126 then 4%nat else if field =? 127 then 10%nat else 2%nat.

(** *** Calls on a plain stream *)

(** One use of the public interface of [H2Stream], with a headers object
    given to [respond]. *)
Inductive Use : Type :=
| UseRespond (headers : option H2Stream.Headers)
             (options : option H2Stream.ResponseOptions)
| UseSendData (data : list byte)
| UseEnd (endStatus : option Z).

(** The stream after one use; an error thrown by the call leaves the
    fields as the call left them. *)
Definition use (s : H2Stream.State) (u : Use) : H2Stream.State :=
  snd (match u with
       | UseRespond headers options => H2Stream.respond headers options
       | UseSendData data => H2Stream.sendData data
       | UseEnd endStatus => H2Stream.end_ endStatus
       end s).

Definition is_respond (call : H2Stream.StreamCall) : Prop :=
  match call with H2Stream.CallRespond _ _ => True | _ => False end.

(** A call that writes no data and carries no headers: an [end], or a
    [respond] that was given no headers. *)
Definition is_bare (call : H2Stream.StreamCall) : Prop :=
  match call with
  | H2Stream.CallEnd _ | H2Stream.CallRespond None _ => True
  | _ => False
  end.

(** The calls that reached the underlying stream are in order: as long
    as the stream remembers no headers, only bare calls; then the one
    [respond] with the headers the stream remembers; then anything but a
    [respond]. *)
Definition well_ordered (s : H2Stream.State) : Prop :=
  match H2Stream.sentHeaders s with
  | None => Forall is_bare (H2Stream.calls s)
  | Some headers =>
      exists trailers before after,
        H2Stream.calls s
        = before ++ H2Stream.CallRespond (Some headers) trailers :: after
        /\ Forall is_bare before
        /\ Forall (fun call => ~ is_respond call) after
  end.

(** *** The session layer *)

Definition is_raw_respond (e : H2Session.Effect) : bool :=
  match e with H2Session.RawRespond _ _ => true | _ => false end.

Definition is_raw_close (e : H2Session.Effect) : bool :=
  match e with H2Session.RawClose _ => true | _ => false end.

Definition is_emit (e : H2Session.Effect) : bool :=
  match e with H2Session.EmitStream _ => true | _ => false end.

(** What a call of the stream listener added to the effects. *)
Definition added (acceptedProtocols : list string) (stream : nat)
    (headers : gmap string string) (s : H2Session.State) : list H2Session.Effect :=
  drop (length (H2Session.effects s))
       (H2Session.effects (H2Session.streamListener acceptedProtocols stream headers s)).

(** *** The link registry *)

Definition is_answer (e : Mesh.Effect) : bool :=
  match e with Mesh.Respond _ _ _ => true | _ => false end.

(** *** Runs of the coordinating process *)

(** The call that takes the node out of the directory. *)
Definition unregistration (port : string) : Lifecycle.Entry :=
  Lifecycle.Did (Lifecycle.UnRegisterServer "localhost" port).

(** The steps of the shutdown that follow the unregistration. *)
Definition is_shutdown_step (e : Lifecycle.Entry) : bool :=
  match e with
  | Lifecycle.Did Lifecycle.ServerClose
  | Lifecycle.Did Lifecycle.CloseAllConnections
  | Lifecycle.Did (Lifecycle.SetTimeout _) => true
  | _ => false
  end.

(** What an entry recorded while input [i] is handled by process [p]
    can be, and under which input. *)
Definition allowed (port : string) (p : Lifecycle.Process) (i : Lifecycle.Input)
    (e : Lifecycle.Entry) : Prop :=
  match e with
  | Lifecycle.Got _ => False
  | Lifecycle.Did a =>
      match a with
      | Lifecycle.LogLine _ _ | Lifecycle.RecordSession | Lifecycle.EmitMesh _ => True
      | Lifecycle.RegisterServer ip prt =>
          ip = "localhost" /\ prt = port
          /\ i = Lifecycle.Emitted Lifecycle.MeshHttp2Server "listening"
      | Lifecycle.UnRegisterServer ip prt =>
          ip = "localhost" /\ prt = port
          /\ i = Lifecycle.Emitted Lifecycle.ProcessObject "SIGINT"
      | Lifecycle.ClusterDisconnect =>
          i = Lifecycle.Emitted Lifecycle.MeshHttp2Server "close"
          \/ (i = Lifecycle.UnRegistrationResolved
              /\ (0 < Lifecycle.pendingUnRegistrations p)%nat)
      | Lifecycle.ServerClose | Lifecycle.CloseAllConnections
      | Lifecycle.SetTimeout _ =>
          i = Lifecycle.UnRegistrationResolved
          /\ (0 < Lifecycle.pendingUnRegistrations p)%nat
      | Lifecycle.Exit code =>
          (code = 1 /\ i = Lifecycle.RegistrationRejected)
          \/ (code = 0 /\ (i = Lifecycle.ClusterDisconnected
                           \/ i = Lifecycle.TimerFired))
      | _ => False
      end
  end.

(** What [start] records on the coordinating process for the servers it
    goes through. *)
Definition connect_entries (reachable : string -> bool) (server : string)
    : list Lifecycle.Entry :=
  Lifecycle.Did (Lifecycle.LogLine "debug" "Connecting to mesh server: ")
  :: (if reachable server then [Lifecycle.Did (Lifecycle.ConnectTo server)]
      else [Lifecycle.Did (Lifecycle.LogLine "error" "Error connecting to mesh server: ");
            Lifecycle.Did (Lifecycle.LogLine "debug"
                             "Unregistering unreachable mesh server: ");
            Lifecycle.Did (Lifecycle.UnRegisterPeer server)]).

(** The servers the loop gets to: all of them up to and including the
    first one whose connection throws and whose unregistration does not
    resolve. *)
Fixpoint visited (reachable unregistered : string -> bool) (targets : list string)
  : list string :=
  match targets with
  | [] => []
  | server :: rest =>
      server :: (if reachable server || unregistered server
                 then visited reachable unregistered rest else [])
  end.

(** The loop runs to its end: every server that cannot be connected to
    is unregistered. *)
Definition completes (reachable unregistered : string -> bool)
    (targets : list string) : bool :=
  forallb (fun server => reachable server || unregistered server) targets.

Definition start_entries (port : string) (reachable unregistered : string -> bool)
    (otherServers : list string) : list Lifecycle.Entry :=
  let targets := Mesh.connectTargets "localhost" port otherServers in
  [Lifecycle.Did Lifecycle.GetOtherMeshServers;
   Lifecycle.Did (Lifecycle.LogLine "log" "Other servers: ");
   Lifecycle.Did (Lifecycle.LogLine "debug" "Other mesh servers: ")]
  ++ ((fun server => Lifecycle.Did (Lifecycle.LogLine "log" server)) <$> targets)
  ++ concat (connect_entries reachable <$> visited reachable unregistered targets)
  ++ (if completes reachable unregistered targets
      then [Lifecycle.Did Lifecycle.CreateServer;
            Lifecycle.Did (Lifecycle.Listen port "localhost")]
      else []).

(** An entry that is an input, or an action a handler can record. *)
Definition from_the_loop (port : string) (e : Lifecycle.Entry) : Prop :=
  match e with
  | Lifecycle.Got _ => True
  | Lifecycle.Did a =>
      match a with
      | Lifecycle.LogLine _ _ | Lifecycle.RecordSession | Lifecycle.EmitMesh _
      | Lifecycle.ClusterDisconnect | Lifecycle.ServerClose
      | Lifecycle.CloseAllConnections | Lifecycle.SetTimeout _
      | Lifecycle.Exit _ => True
      | Lifecycle.RegisterServer ip prt | Lifecycle.UnRegisterServer ip prt =>
          ip = "localhost" /\ prt = port
      | _ => False
      end
  end.

Definition is_unregistration (e : Lifecycle.Entry) : bool :=
  match e with
  | Lifecycle.Did (Lifecycle.UnRegisterServer _ _) => true
  | _ => false
  end.

(** [#meshPort] as the constructor computes it from [config.port], in
    the decimal form a template string gives it. *)
Definition meshPort_of (config : MeshConfig.Config) : string :=
  match MeshConfig.port config with
  | Some p => pretty (if p =? 0 then 8080 else p)
  | None => pretty 8080
  end.

(** The string the coordinator compares the listed servers with. *)
Definition own_address (config : MeshConfig.Config) : string :=
  "localhost" +:+ ":" +:+ meshPort_of config.

(** The address and port an entry names, where it is a call of [listen]
    or of one of the two directory functions for the node itself. *)
Definition announced_as (address port : string) (e : Lifecycle.Entry) : Prop :=
  match e with
  | Lifecycle.Did (Lifecycle.Listen p a)
  | Lifecycle.Did (Lifecycle.RegisterServer a p)
  | Lifecycle.Did (Lifecycle.UnRegisterServer a p) => a = address /\ p = port
  | _ => True
  end.

End Terms.

Import Terms.

(** *** Concrete inputs used by the further examples *)

Module Samples.

Import WsH2Stream.

(** A chunk with the 64-bit length marker that stops after three bytes. *)
Definition truncated : list byte := [x82; x7f; x00].

(** A final, masked text frame of two payload bytes, and its fragment. *)
Definition masked_text : list byte := [x81; x82; x01; x02; x03; x04; x69; x6b].
Definition masked_fragment : FragmentDetails :=
  {| isFinal := 128; rsv1 := 0; rsv2 := 0; rsv3 := 0; opcode := OPCODES.TEXT;
     payloadLength := LenNumber 2; maskingKey := Some [x01; x02; x03; x04];
     usesMasking := true; payload := [x69; x6b] |}.

(** The final continuation fragment of a message: one payload byte. *)
Definition last_chunk : list byte := [x80; x01; x0c].
Definition last_fragment : FragmentDetails :=
  {| isFinal := 128; rsv1 := 0; rsv2 := 0; rsv3 := 0; opcode := 0;
     payloadLength := LenNumber 1; maskingKey := None; usesMasking := false;
     payload := [x0c] |}.

(** The chunk of the first, non-final fragment of a binary message. *)
Definition first_chunk : list byte := [x02; x02; x0a; x0b].

(** Final Close and Pong frames without payload. *)
Definition close_chunk : list byte := [x88; x00].
Definition pong_chunk : list byte := [x8a; x00].
Definition control_fragment (op : Z) : FragmentDetails :=
  {| isFinal := 128; rsv1 := 0; rsv2 := 0; rsv3 := 0; opcode := op;
     payloadLength := LenNumber 0; maskingKey := None; usesMasking := false;
     payload := [] |}.

(** The two bytes of the text [hi]. *)
Definition hi : list byte := [x68; x69].

(** A handler configuration without filter that closes open streams. *)
Definition closing : NotFoundHandler.Config :=
  {| NotFoundHandler.filter := None; NotFoundHandler.filterHeader := None;
     NotFoundHandler.closeOpenStreams := true |}.

(** An underlying stream that is open and has not answered, and one
    that is closed. *)
Definition open_raw : NotFoundHandler.Raw :=
  {| NotFoundHandler.rawClosed := false; NotFoundHandler.rawHeadersSent := false |}.
Definition closed_raw : NotFoundHandler.Raw :=
  {| NotFoundHandler.rawClosed := true; NotFoundHandler.rawHeadersSent := false |}.

(** Two byte arrays. *)
Definition byte_arrays : list (TypedArrays.TypedArray Z) :=
  [{| TypedArrays.kind := TypedArrays.Uint8Array; TypedArrays.elements := [1; 2] |};
   {| TypedArrays.kind := TypedArrays.Uint8Array; TypedArrays.elements := [3] |}].

(** A session without streams, and three kinds of request. *)
Definition fresh_session : H2Session.State :=
  {| H2Session.streams := ∅; H2Session.effects := [] |}.
Definition get_request : gmap string string := {[ ":method" := "GET" ]}.
Definition websocket_request : gmap string string :=
  {[ ":method" := "CONNECT"; ":protocol" := "websocket" ]}.
Definition webtransport_request : gmap string string :=
  {[ ":method" := "CONNECT"; ":protocol" := "webtransport" ]}.

(** The logger for the level ["warn"]. *)
Definition warn_logger : ConsoleLogger.Logger :=
  [("debug", false); ("info", false); ("warn", true); ("error", true);
   ("log", true); ("mandatory", true)].

(** The registry records of the loopback session, without and with the
    first stream. *)
Definition loopback_entry : Mesh.SessionEntry :=
  {| Mesh.entry_session := Scenario.loopback_session; Mesh.entry_streams := ∅ |}.
Definition loopback_entry1 : Mesh.SessionEntry :=
  {| Mesh.entry_session := Scenario.loopback_session;
     Mesh.entry_streams := {[ "1" := Scenario.stream1 ]} |}.

(** A configuration the constructor accepts: all three functions, port
    9000 and an address of a private network. *)
Definition private_node : MeshConfig.Config :=
  {| MeshConfig.registerServerFn := true; MeshConfig.unRegisterServerFn := true;
     MeshConfig.getOtherMeshServesFn := true; MeshConfig.port := Some 9000;
     MeshConfig.ip := Some "10.0.0.5"; MeshConfig.clusterWorkerCount := None |}.

(** A directory that lists the node under both of its names, and a peer. *)
Definition directory : list string :=
  ["10.0.0.2:9001"; "localhost:9000"; "10.0.0.5:9000"].

End Samples.

(** * Properties *)

(** ** Bytes *)

Section Bytes.

Lemma byte_val_range (b : byte) : 0 <= byte_val b < 256.
Proof.
  unfold byte_val. pose proof (Byte.to_N_bounded b). lia.
Qed.

Lemma byte_val_to_uint8 (z : Z) : 0 <= z < 256 -> byte_val (to_uint8 z) = z.
Proof.
  intros Hz. unfold byte_val, to_uint8.
  rewrite Z.mod_small by lia.
  destruct (Byte.of_N (Z.to_N z)) as [b|] eqn:E.
  - simpl. apply Byte.to_of_N in E. rewrite E. lia.
  - apply Byte.of_N_None_iff in E. lia.
Qed.

Lemma to_uint8_byte_val (b : byte) : to_uint8 (byte_val b) = b.
Proof.
  unfold to_uint8. rewrite Z.mod_small by apply byte_val_range.
  unfold byte_val. rewrite N2Z.id, Byte.of_to_N. reflexivity.
Qed.

(** The seven-bit length field and the mask bit of a second byte that
    holds a length below 126. *)
Lemma short_length_bits (n : nat) :
  (n < 126)%nat ->
  Z.land (Z.of_nat n) 127 = Z.of_nat n /\ Z.land (Z.of_nat n) 128 = 0.
Proof.
  intros Hn.
  assert (H : forallb (fun k => (Z.land (Z.of_nat k) 127 =? Z.of_nat k)
                                && (Z.land (Z.of_nat k) 128 =? 0))
                      (seq 0 126) = true) by (vm_compute; reflexivity).
  rewrite forallb_forall in H.
  specialize (H n). rewrite in_seq in H.
  assert (Hin : (0 <= n < 0 + 126)%nat) by lia.
  apply H in Hin. apply andb_prop in Hin. destruct Hin as [H1 H2].
  split; lia.
Qed.

End Bytes.

(** ** The frame encoder and the fragment decoder *)

Section Codec.

Import WsH2Stream.

Variable host : ByteOrder.

(** Payloads below 126 bytes: the length goes into the second byte. *)
Lemma sendFrame_short (op : Z) (data : list byte) (c : Channel) :
  data_opcode op -> (length data < 126)%nat ->
  sendFrame {| opt_opcode := op; opt_payload := Some data |} c =
    (Normal tt,
     wrote (to_uint8 (Z.lor 128 op) :: to_uint8 (Z.of_nat (length data)) :: data) c).
Proof.
  intros Hop Hlen. unfold sendFrame, Js.bind, lift, stream_write, modify, wrote.
  assert (Hlt : (Z.of_nat (length data) <? 126) = true) by (apply Z.ltb_lt; lia).
  destruct Hop as [-> | ->]; simpl; rewrite Hlt; simpl; rewrite app_nil_r; reflexivity.
Qed.

(** Payloads of 126 to 65535 bytes: the marker 126 is followed by a
    single byte, the low eight bits of the length. *)
Lemma sendFrame_medium (op : Z) (data : list byte) (c : Channel) :
  data_opcode op -> 126 <= Z.of_nat (length data) < 65536 ->
  sendFrame {| opt_opcode := op; opt_payload := Some data |} c =
    (Normal tt,
     wrote (to_uint8 (Z.lor 128 op) :: x7e
              :: to_uint8 (Z.of_nat (length data) mod 65536) :: data) c).
Proof.
  intros Hop Hlen. unfold sendFrame, Js.bind, lift, stream_write, modify, wrote.
  assert (H1 : (Z.of_nat (length data) <? 126) = false) by (apply Z.ltb_ge; lia).
  assert (H2 : (Z.of_nat (length data) <? 65536) = true) by (apply Z.ltb_lt; lia).
  destruct Hop as [-> | ->]; simpl; rewrite H1, H2; simpl; rewrite app_nil_r; reflexivity.
Qed.

(** Payloads of 65536 bytes or more: building the length bytes throws
    and nothing reaches the stream. *)
Lemma sendFrame_long (op : Z) (data : list byte) (c : Channel) :
  data_opcode op -> 65536 <= Z.of_nat (length data) ->
  sendFrame {| opt_opcode := op; opt_payload := Some data |} c =
    (Throw (TypeError "Cannot convert a BigInt value to a number"), c).
Proof.
  intros Hop Hlen. unfold sendFrame, Js.bind, lift.
  assert (H1 : (Z.of_nat (length data) <? 126) = false) by (apply Z.ltb_ge; lia).
  assert (H2 : (Z.of_nat (length data) <? 65536) = false) by (apply Z.ltb_ge; lia).
  destruct Hop as [-> | ->]; simpl; rewrite H1, H2; reflexivity.
Qed.

Lemma fragmentInterpreter_short (op : Z) (data : list byte) :
  data_opcode op -> (length data < 126)%nat ->
  fragmentInterpreter host
    (to_uint8 (Z.lor 128 op) :: to_uint8 (Z.of_nat (length data)) :: data)
  = Normal (Some (plain_frame op data)).
Proof.
  intros Hop Hlen.
  destruct (short_length_bits (length data) Hlen) as [H127 H128].
  unfold fragmentInterpreter, index_and, plain_frame.
  cbn [length Nat.eqb lookup list_lookup from_option].
  rewrite (byte_val_to_uint8 (Z.of_nat (length data))) by lia.
  rewrite H127, H128.
  assert (E1 : (Z.of_nat (length data) =? 126) = false) by (apply Z.eqb_neq; lia).
  assert (E2 : (Z.of_nat (length data) =? 127) = false) by (apply Z.eqb_neq; lia).
  rewrite E1, E2. cbn [bindC Z.eqb negb drop].
  destruct Hop as [-> | ->]; reflexivity.
Qed.

(** Round trip for payloads below 126 bytes. *)
Lemma roundtrip_short (op : Z) (data : list byte) (c : Channel) :
  data_opcode op -> (length data < 126)%nat ->
  exists wire,
    sendFrame {| opt_opcode := op; opt_payload := Some data |} c
      = (Normal tt, wrote wire c)
    /\ length wire = (2 + length data)%nat
    /\ fragmentInterpreter host wire = Normal (Some (plain_frame op data)).
Proof.
  intros Hop Hlen. eexists. split; [apply sendFrame_short; assumption|].
  split; [reflexivity|]. apply fragmentInterpreter_short; assumption.
Qed.

(** What the decoder makes of a fragment whose second byte is the
    16-bit marker 126 (mask bit clear) and that has at least one byte
    after it: the length is that one byte, the payload starts two bytes
    further on. *)
Lemma fragmentInterpreter_marker16 (b0 b2 : byte) (rest : list byte) :
  exists f,
    fragmentInterpreter host (b0 :: x7e :: b2 :: rest) = Normal (Some f)
    /\ payloadLength f = LenNumber (byte_val b2)
    /\ payload f = drop 1 rest.
Proof.
  eexists. split; [|split].
  - unfold fragmentInterpreter, index_and. cbn. reflexivity.
  - cbn. rewrite Z.mod_small; [reflexivity|].
    pose proof (byte_val_range b2). lia.
  - cbn. reflexivity.
Qed.

End Codec.

Section RoundTrip.

Import WsH2Stream Scenario.

Variable host : ByteOrder.

(** Round trip for payloads of 126 to 65535 bytes: the decoder reports
    the low eight bits of the length and a payload without its first
    byte. *)
Lemma roundtrip_medium (op : Z) (data : list byte) (c : Channel) :
  data_opcode op -> 126 <= Z.of_nat (length data) < 65536 ->
  exists wire decoded,
    sendFrame {| opt_opcode := op; opt_payload := Some data |} c
      = (Normal tt, wrote wire c)
    /\ length wire = (3 + length data)%nat
    /\ fragmentInterpreter host wire = Normal (Some decoded)
    /\ payloadLength decoded = LenNumber (Z.of_nat (length data) mod 256)
    /\ payload decoded = drop 1 data.
Proof.
  intros Hop Hlen.
  destruct (fragmentInterpreter_marker16 host (to_uint8 (Z.lor 128 op))
              (to_uint8 (Z.of_nat (length data) mod 65536)) data)
    as (f & Hf & Hl & Hp).
  exists (to_uint8 (Z.lor 128 op) :: x7e
            :: to_uint8 (Z.of_nat (length data) mod 65536) :: data), f.
  split; [apply sendFrame_medium; assumption|].
  split; [reflexivity|]. split; [exact Hf|]. split; [|exact Hp].
  rewrite Hl. f_equal. unfold byte_val, to_uint8.
  rewrite (Z.mod_small _ 65536) by lia.
  destruct (Byte.of_N (Z.to_N (Z.of_nat (length data) mod 256))) as [b|] eqn:E.
  - simpl. apply Byte.to_of_N in E. rewrite E.
    pose proof (Z.mod_pos_bound (Z.of_nat (length data)) 256). lia.
  - apply Byte.of_N_None_iff in E.
    pose proof (Z.mod_pos_bound (Z.of_nat (length data)) 256). lia.
Qed.

(** C1, at a binary frame whose payload is 126 bytes long: the encoder
    writes the marker 126 followed by one length byte (three header bytes
    where the 16-bit encoding takes four), and decoding those bytes
    yields a frame with the final bit, the Binary opcode and length 126
    but a payload that lacks the first byte of the original; so decoding
    does not give back the frame that was encoded. *)
Theorem binary_frame_of_126_bytes_does_not_round_trip :
  exists decoded,
    sendFrame {| opt_opcode := OPCODES.BINARY; opt_payload := Some payload126 |} idle
      = (Normal tt, wrote (x82 :: x7e :: x7e :: payload126) idle)
    /\ fragmentInterpreter host (x82 :: x7e :: x7e :: payload126)
       = Normal (Some decoded)
    /\ isFinal decoded = 128
    /\ opcode decoded = OPCODES.BINARY
    /\ payloadLength decoded = LenNumber 126
    /\ payload decoded = repeat x00 125
    /\ payload decoded <> payload126.
Proof.
  destruct (fragmentInterpreter_marker16 host x82 x7e payload126)
    as (f & Hf & Hl & Hp).
  exists f. split; [vm_compute; reflexivity|].
  split; [exact Hf|].
  assert (Hfin : isFinal f = 128 /\ opcode f = OPCODES.BINARY).
  { revert Hf. unfold fragmentInterpreter. cbn.
    intros [= <-]. split; reflexivity. }
  destruct Hfin as [Hfin Hop].
  split; [exact Hfin|]. split; [exact Hop|]. split; [exact Hl|].
  rewrite Hp. split; [reflexivity|].
  intros Heq. apply (f_equal (@length byte)) in Heq. vm_compute in Heq.
  discriminate Heq.
Qed.

(** The same encoder on a payload of 65536 bytes or more throws before
    anything is written. *)
Lemma long_frame_is_never_written (op : Z) (data : list byte) (c : Channel) :
  data_opcode op -> 65536 <= Z.of_nat (length data) ->
  Js.is_throw (fst (sendFrame {| opt_opcode := op; opt_payload := Some data |} c)) = true
  /\ written (snd (sendFrame {| opt_opcode := op; opt_payload := Some data |} c))
     = written c.
Proof.
  intros Hop Hlen. rewrite sendFrame_long by assumption. split; reflexivity.
Qed.

(** C2, at a fragment whose 7-bit length field is 126 followed by the
    bytes 01 00, and at one whose field is 127 followed by eight bytes
    reading 256 in network order: the decoded length is 1 (the first of
    the two bytes) in the first case, and on a little-endian machine
    2^48 in the second, while the big-endian reading of those bytes is
    256 in both. *)
Theorem extended_lengths_are_not_read_big_endian :
  (exists f, fragmentInterpreter host chunk_len16 = Normal (Some f)
             /\ payloadLength f = LenNumber 1
             /\ big_endian (slice chunk_len16 2 4) = 256)
  /\ (exists f, fragmentInterpreter LittleEndian chunk_len64 = Normal (Some f)
                /\ payloadLength f = LenBigInt (2 ^ 48)
                /\ big_endian (slice chunk_len64 2 10) = 256).
Proof.
  split.
  - eexists. split; [|split].
    + unfold fragmentInterpreter, chunk_len16. cbn. reflexivity.
    + reflexivity.
    + reflexivity.
  - eexists. split; [|split].
    + vm_compute. reflexivity.
    + reflexivity.
    + reflexivity.
Qed.

End RoundTrip.

(** ** The data path of the channel *)

Section DataPath.

Import WsH2Stream Scenario.

Variable host : ByteOrder.

Lemma public_OPCODES_undefined (member : string) :
  public_OPCODES member = Throw (undefined_read member).
Proof.
  unfold public_OPCODES.
  rewrite bool_decide_eq_false_2; [reflexivity|].
  unfold public_statics. rewrite list_elem_of_singleton. discriminate.
Qed.

(** No control frame can be sent: the opcode lookup throws first. *)
Lemma pong_throws (c : Channel) :
  pong c = (Throw (undefined_read "PONG"), c).
Proof.
  unfold pong, sendFrame, Js.bind, lift.
  change (opt_opcode {| opt_opcode := OPCODES.PONG; opt_payload := None |} =? OPCODES.CLOSE)
    with false.
  change (opt_opcode {| opt_opcode := OPCODES.PONG; opt_payload := None |} =? OPCODES.PING)
    with false.
  change (opt_opcode {| opt_opcode := OPCODES.PONG; opt_payload := None |} =? OPCODES.PONG)
    with true.
  cbv iota. rewrite public_OPCODES_undefined. reflexivity.
Qed.

Lemma last_fragment_after_push (fs : list (option FragmentDetails))
    (f : option FragmentDetails) :
  default None (last (fs ++ [f])) = f.
Proof. rewrite last_snoc. reflexivity. Qed.

(** C8: the decoder returns the no-frame result for an empty chunk; the
    data listener then appends that result to the accumulator and the
    parse step throws while reading [isFinal] from it. *)
Theorem empty_chunk_is_pushed_and_throws (c : Channel) :
  fragmentInterpreter host [] = Normal None
  /\ dataListener host [] c
     = (Throw (undefined_read "isFinal"),
        set_fragments (currentFrameFragments c ++ [None]) c).
Proof.
  split; [reflexivity|].
  unfold dataListener, parseFrame, Js.bind, lift, modify, gets, throw.
  cbn [fragmentInterpreter length Nat.eqb set_fragments currentFrameFragments].
  rewrite last_fragment_after_push. reflexivity.
Qed.

(** C4: when a final Ping fragment is pushed, the listener throws
    before any frame is written and before the fragment is popped: no
    Pong reaches the stream and the Ping stays in the accumulator behind
    the fragments of the message in progress. *)
Theorem ping_is_not_answered (chunk : list byte) (ping_fragment : FragmentDetails)
    (c : Channel) :
  fragmentInterpreter host chunk = Normal (Some ping_fragment) ->
  isFinal ping_fragment <> 0 ->
  opcode ping_fragment = OPCODES.PING ->
  exists e c',
    dataListener host chunk c = (Throw e, c')
    /\ written c' = written c
    /\ currentFrameFragments c' = currentFrameFragments c ++ [Some ping_fragment]
    /\ emitted c' = emitted c.
Proof.
  intros Hdec Hfin Hop.
  unfold dataListener, parseFrame, Js.bind at 1 2 3, lift, modify, gets.
  rewrite Hdec. cbn [set_fragments currentFrameFragments].
  rewrite last_fragment_after_push.
  apply Z.eqb_neq in Hfin. rewrite Hfin, Hop.
  cbn [Z.leb Z.compare Pos.compare Pos.compare_cont OPCODES.PING OPCODES.CLOSE
       Z.eqb Pos.eqb].
  unfold Js.bind, log, set_fragments.
  cbn [logger currentFrameFragments written endCalls emitted].
  destruct (logger c) as [lines|].
  - rewrite pong_throws. do 2 eexists. repeat split; reflexivity.
  - do 2 eexists. repeat split; reflexivity.
Qed.

End DataPath.

Section DataPathWitnesses.

Import WsH2Stream Scenario.

Lemma ping_is_not_answered_witness :
  exists e c',
    dataListener LittleEndian ping_chunk mid_message = (Throw e, c')
    /\ written c' = written mid_message
    /\ currentFrameFragments c'
       = currentFrameFragments mid_message
           ++ [Some {| isFinal := 128; rsv1 := 0; rsv2 := 0; rsv3 := 0;
                       opcode := OPCODES.PING; payloadLength := LenNumber 0;
                       maskingKey := None; usesMasking := false;
                       payload := [] |}]
    /\ emitted c' = emitted mid_message.
Proof.
  apply (ping_is_not_answered LittleEndian ping_chunk).
  - reflexivity.
  - simpl. lia.
  - reflexivity.
Defined.

End DataPathWitnesses.

(** ** Subprotocol negotiation *)

Section Negotiation.

Import WsH2Stream.

Variable acceptedProtocols : list string.

Lemma split_comma_nonempty (s : string) : split_comma s <> [].
Proof.
  destruct s as [|c s]; simpl; [discriminate|].
  destruct (Ascii.eqb c ","); [discriminate|].
  destruct (split_comma s); discriminate.
Qed.

(** Joining the pieces with commas gives the header value back. *)
Lemma join_split_comma (s : string) : join_comma (split_comma s) = s.
Proof.
  induction s as [|c s IH]; [reflexivity|].
  simpl. destruct (Ascii.eqb c ",") eqn:E.
  - apply Ascii.eqb_eq in E. subst c.
    pose proof (split_comma_nonempty s) as Hne.
    destruct (split_comma s) as [|p ps]; [congruence|].
    change (join_comma (EmptyString :: p :: ps))
      with (EmptyString +:+ "," +:+ join_comma (p :: ps)).
    rewrite IH. reflexivity.
  - pose proof (split_comma_nonempty s) as Hne.
    destruct (split_comma s) as [|p ps]; [congruence|].
    destruct ps as [|q qs].
    + simpl in *. congruence.
    + change (join_comma (String c p :: q :: qs))
        with (String c (p +:+ "," +:+ join_comma (q :: qs))).
      change (join_comma (p :: q :: qs))
        with (p +:+ "," +:+ join_comma (q :: qs)) in IH.
      rewrite IH. reflexivity.
Qed.

(** What the code puts into the response: status OK, and as subprotocol
    header the comma-join of the pieces of [split(",")] that are on the
    allow-list, when there is one. *)
Lemma handshake_response (incomingHeaders : gmap string string) :
  let response := snd (handshake acceptedProtocols incomingHeaders) in
  response !! HTTP2_HEADER_STATUS = Some (HNum HTTP_STATUS_OK)
  /\ (forall value,
        incomingHeaders !! HTTP2_HEADER_WS_PROTO = Some value ->
        value <> EmptyString ->
        response !! HTTP2_HEADER_WS_PROTO
        = echo_of (filter (fun protocol => protocol ∈ acceptedProtocols)
                          (split_comma value)))
  /\ (incomingHeaders !! HTTP2_HEADER_WS_PROTO = None
      \/ incomingHeaders !! HTTP2_HEADER_WS_PROTO = Some EmptyString ->
      response !! HTTP2_HEADER_WS_PROTO = None).
Proof.
  assert (Hkeys : HTTP2_HEADER_WS_PROTO <> HTTP2_HEADER_STATUS) by discriminate.
  unfold handshake, echo_of. cbn [snd].
  split; [|split].
  - destruct (incomingHeaders !! HTTP2_HEADER_WS_PROTO) as [value|];
      [destruct (truthy value)|]; cbn [fmap option_fmap option_map];
      try (destruct (filter _ _)); simplify_map_eq; reflexivity.
  - intros value Hv Hne. rewrite Hv.
    destruct value as [|c value]; [congruence|]. cbn [truthy fmap option_fmap option_map].
    destruct (filter _ _) as [|m ms] eqn:E; simplify_map_eq; reflexivity.
  - intros [Hv | Hv]; rewrite Hv; cbn [truthy fmap option_fmap option_map];
      simplify_map_eq; reflexivity.
Qed.

Lemma append_empty (s : string) : s +:+ EmptyString = s.
Proof.
  induction s as [|c s IH]; [reflexivity|].
  change (String c s +:+ EmptyString) with (String c (s +:+ EmptyString)).
  rewrite IH. reflexivity.
Qed.

Lemma append_append (s t u : string) : (s +:+ t) +:+ u = s +:+ (t +:+ u).
Proof.
  induction s as [|c s IH]; [reflexivity|].
  change ((String c s +:+ t) +:+ u) with (String c ((s +:+ t) +:+ u)).
  rewrite IH. reflexivity.
Qed.

(** The elements of a list are the pieces of [split(",")]. *)
Lemma elements_from_split (current s : string) :
  elements_from current s
  = match split_comma s with
    | piece :: pieces => (current +:+ piece) :: pieces
    | [] => [current]
    end.
Proof.
  revert current. induction s as [|c s IH]; intros current; cbn [elements_from split_comma].
  - rewrite append_empty. reflexivity.
  - destruct (Ascii.eqb c ",").
    + rewrite IH, append_empty.
      pose proof (split_comma_nonempty s) as Hne.
      destruct (split_comma s) as [|piece pieces]; [congruence|]. reflexivity.
    + rewrite IH.
      pose proof (split_comma_nonempty s) as Hne.
      destruct (split_comma s) as [|piece pieces]; [congruence|].
      rewrite append_append. reflexivity.
Qed.

Lemma elements_split (s : string) : elements_from EmptyString s = split_comma s.
Proof.
  rewrite elements_from_split.
  pose proof (split_comma_nonempty s) as Hne.
  destruct (split_comma s); [congruence|reflexivity].
Qed.

Lemma trim_right_no_blank (s : string) : no_blank s = true -> trim_right s = s.
Proof.
  induction s as [|c s IH]; [reflexivity|]. cbn [no_blank trim_right].
  intros H. apply andb_prop in H. destruct H as [Hc Hs]. rewrite (IH Hs).
  destruct s; [|reflexivity]. apply negb_true_iff in Hc. rewrite Hc. reflexivity.
Qed.

Lemma trim_no_blank (s : string) : no_blank s = true -> trim s = s.
Proof.
  intros H. unfold trim.
  assert (Hl : trim_left s = s).
  { destruct s as [|c s]; [reflexivity|]. cbn [no_blank trim_left] in *.
    apply andb_prop in H. destruct H as [Hc _].
    apply negb_true_iff in Hc. rewrite Hc. reflexivity. }
  rewrite Hl. apply trim_right_no_blank, H.
Qed.

Lemma split_comma_no_blank (s : string) :
  no_blank s = true -> Forall (fun piece => no_blank piece = true) (split_comma s).
Proof.
  induction s as [|c s IH]; cbn [no_blank split_comma].
  - intros _. repeat constructor.
  - intros H. apply andb_prop in H. destruct H as [Hc Hs]. specialize (IH Hs).
    destruct (Ascii.eqb c ",").
    + constructor; [reflexivity|exact IH].
    + destruct (split_comma s) as [|piece pieces]; [repeat constructor; cbn; rewrite Hc; reflexivity|].
      apply Forall_cons in IH. destruct IH as [Hp Hps].
      constructor; [|exact Hps]. cbn [no_blank]. rewrite Hc, Hp. reflexivity.
Qed.

(** Where the code does what the claim says: for a list written without
    white space (and an allow-list without the empty name) the
    subprotocol header of the response is the intersection, in the
    client's order. *)
Lemma unspaced_list_is_intersected (incomingHeaders : gmap string string)
    (value : string) :
  incomingHeaders !! HTTP2_HEADER_WS_PROTO = Some value ->
  no_blank value = true ->
  EmptyString ∉ acceptedProtocols ->
  snd (handshake acceptedProtocols incomingHeaders) !! HTTP2_HEADER_WS_PROTO
  = echo_of (requested_intersection acceptedProtocols value).
Proof.
  intros Hv Hblank Hempty.
  assert (Hnames : filter (fun protocol => protocol ∈ acceptedProtocols)
                     (split_comma value)
                   = requested_intersection acceptedProtocols value).
  { unfold requested_intersection, subprotocol_names. rewrite elements_split.
    pose proof (split_comma_no_blank value Hblank) as Hpieces.
    induction Hpieces as [|piece pieces Hp Hps IH]; [reflexivity|].
    cbn [fmap list_fmap]. rewrite (trim_no_blank piece Hp).
    rewrite !filter_cons.
    destruct (decide (piece ≠ EmptyString)) as [Hne|Heq].
    - rewrite filter_cons. rewrite IH. reflexivity.
    - apply dec_stable in Heq. subst piece.
      destruct (decide (EmptyString ∈ acceptedProtocols)); [contradiction|].
      exact IH. }
  destruct (handshake_response incomingHeaders) as (_ & Hecho & Hnone).
  destruct value as [|c value].
  - rewrite Hnone by (right; exact Hv). reflexivity.
  - rewrite (Hecho _ Hv) by discriminate. rewrite Hnames. reflexivity.
Qed.

End Negotiation.

(** C9, at the list [chat, v2] as clients write it, with a space after
    the comma, and an allow-list holding both names: the intersection the
    response should echo is [chat] and [v2], the code echoes [chat]
    alone, because the second piece of [split(",")] is [ v2] with its
    space. For the list [x, v2] the intersection is [v2], and the
    response carries no subprotocol header at all. Both responses have
    status OK. *)
Theorem spaced_subprotocol_list_is_not_intersected :
  requested_intersection Scenario.allow_list "chat, v2" = ["chat"; "v2"]
  /\ snd (WsH2Stream.handshake Scenario.allow_list Scenario.spaced_headers)
       !! WsH2Stream.HTTP2_HEADER_WS_PROTO
     = Some (WsH2Stream.HStr "chat")
  /\ fst (WsH2Stream.handshake Scenario.allow_list Scenario.spaced_headers)
     = Some ["chat"; " v2"]
  /\ requested_intersection Scenario.allow_list "x, v2" = ["v2"]
  /\ snd (WsH2Stream.handshake Scenario.allow_list
            Scenario.spaced_headers_unknown_first)
       !! WsH2Stream.HTTP2_HEADER_WS_PROTO
     = None
  /\ snd (WsH2Stream.handshake Scenario.allow_list Scenario.spaced_headers)
       !! WsH2Stream.HTTP2_HEADER_STATUS
     = Some (WsH2Stream.HNum 200).
Proof. repeat split. Qed.

(** ** Responding once on a plain stream *)

Section Respond.

Import H2Stream.

(** Where the second call is ignored: on a stream that was given a
    logger and remembers the headers of an earlier call, with the default
    error protocol, a call of [respond] returns normally, makes no call
    on the underlying stream, keeps the headers of the first call, and
    only adds a line to the log. *)
Lemma second_respond_is_ignored (s : State) (first : Headers)
    (lines : list string) (headers : option Headers)
    (responseOptions : option ResponseOptions) :
  errorProtocol s = "logger" ->
  sentHeaders s = Some first ->
  logger s = Some lines ->
  exists s',
    respond headers responseOptions s = (Normal tt, s')
    /\ calls s' = calls s
    /\ sentHeaders s' = Some first
    /\ closed s' = closed s
    /\ logger s' = Some (lines ++ ["Headers already sent."]).
Proof.
  intros Hproto Hsent Hlog.
  unfold respond, Js.bind, gets. rewrite Hsent, Hproto.
  rewrite bool_decide_eq_false_2 by discriminate.
  unfold logger_error. rewrite Hlog.
  eexists. repeat split; try reflexivity. exact Hsent.
Qed.

(** The first call: the headers are stored and passed to the stream. *)
Lemma first_respond_sends (options_logger : option (list string)) (headers : Headers) :
  respond (Some headers) None (construct options_logger)
  = (Normal tt,
     {| sentHeaders := Some headers; closed := false; errorProtocol := "logger";
        logger := options_logger; calls := [CallRespond (Some headers) false] |}).
Proof. reflexivity. Qed.

End Respond.

Lemma second_respond_is_ignored_witness :
  exists s',
    H2Stream.respond (Some Scenario.not_found_headers) None
      (snd (H2Stream.respond (Some Scenario.ok_headers) None
              (H2Stream.construct (Some []))))
    = (Normal tt, s')
    /\ H2Stream.calls s' = [H2Stream.CallRespond (Some Scenario.ok_headers) false]
    /\ H2Stream.sentHeaders s' = Some Scenario.ok_headers
    /\ H2Stream.closed s' = false
    /\ H2Stream.logger s' = Some ([] ++ ["Headers already sent."]).
Proof.
  apply (second_respond_is_ignored
           (snd (H2Stream.respond (Some Scenario.ok_headers) None
                   (H2Stream.construct (Some []))))
           Scenario.ok_headers []).
  - reflexivity.
  - reflexivity.
  - reflexivity.
Defined.

(** A first [respond] without a headers object is not remembered: the
    second call reaches the underlying stream as well, and its headers
    replace what the stream reports as sent. *)
Lemma respond_without_headers_is_not_remembered :
  let s := snd (H2Stream.respond None None (H2Stream.construct (Some []))) in
  H2Stream.calls s = [H2Stream.CallRespond None false]
  /\ H2Stream.sentHeaders s = None
  /\ H2Stream.respond (Some Scenario.not_found_headers) None s
     = (Normal tt,
        {| H2Stream.sentHeaders := Some Scenario.not_found_headers;
           H2Stream.closed := false; H2Stream.errorProtocol := "logger";
           H2Stream.logger := Some [];
           H2Stream.calls := [H2Stream.CallRespond None false;
                              H2Stream.CallRespond (Some Scenario.not_found_headers)
                                false] |}).
Proof. repeat split. Qed.

(** C10, at a stream constructed without [options.logger] (the
    constructor overwrites the [console] default of [#logger] with
    [undefined]): the error protocol is the default one, the first call
    of [respond] sends the headers, and the second call throws a
    TypeError while reaching for the logger instead of returning. *)
Theorem second_respond_without_logger_throws :
  let s := snd (H2Stream.respond (Some Scenario.ok_headers) None
                  (H2Stream.construct None)) in
  H2Stream.errorProtocol s = "logger"
  /\ H2Stream.sentHeaders s = Some Scenario.ok_headers
  /\ fst (H2Stream.respond (Some Scenario.not_found_headers) None s)
     = Throw (undefined_read "error").
Proof. repeat split. Qed.

(** ** The inbound handshake of the mesh *)

Section Handshake.

Import Mesh.

Lemma includes_true (value : option string) :
  includes value = true <-> exists o, value = Some o /\ o ∈ localhostVariants.
Proof.
  destruct value as [v|]; simpl.
  - rewrite bool_decide_eq_true. split.
    + intros H. exists v. split; [reflexivity | exact H].
    + intros (o & [= ->] & H). exact H.
  - split; [discriminate|]. intros (o & H & _). discriminate H.
Qed.

(** The guard of the second [if] of the handler, in terms of [same_origin]. *)
Lemma origin_guard (ip : string) (observed : option string) :
  bool_decide (Some ip ≠ observed) && negb (includes (Some ip) && includes observed)
  = false
  <-> same_origin ip observed.
Proof.
  unfold same_origin. rewrite andb_false_iff, negb_false_iff, andb_true_iff.
  rewrite bool_decide_eq_false, !includes_true. split.
  - intros [Heq | [(o & Ho & Hin) Hobs]].
    + left. destruct (decide (Some ip = observed)); [assumption | contradiction].
    + right. injection Ho as <-. split; assumption.
  - intros [Heq | [Hin Hobs]].
    + left. intros Hne. contradiction.
    + right. split; [|assumption]. exists ip. split; [reflexivity | assumption].
Qed.

Variables (s : State) (stream : Stream) (headers : gmap string string).
Variables (ip port : string).
Hypothesis Hip : headers !! MESH_IP_HEADER = Some ip.
Hypothesis Hport : headers !! MESH_PORT_HEADER = Some port.

(** A declared address that does not agree with the observed one. *)
Lemma meshStreamHandler_mismatch :
  ~ same_origin ip (socket_remoteAddress (stream_session stream)) ->
  meshStreamHandler stream headers s
  = (Normal tt,
     after_effects [Respond stream 400 true; Log "error" "Invalid remote ip: "] s).
Proof.
  intros Hno. unfold meshStreamHandler. rewrite Hip, Hport.
  rewrite <- origin_guard in Hno. apply not_false_is_true in Hno.
  rewrite Hno. unfold Js.bind, perform, modify, after_effects. cbn.
  rewrite <- app_assoc. reflexivity.
Qed.

(** An identity that already has a record. *)
Lemma meshStreamHandler_existing (linked : Stream) :
  same_origin ip (socket_remoteAddress (stream_session stream)) ->
  byIPAndPort (knownServerConnections s) !! identity_key ip port = Some linked ->
  meshStreamHandler stream headers s
  = (Normal tt,
     after_effects [Respond stream 404 true;
                    Log "error" "Existing server connection: "] s).
Proof.
  intros Hok Hlinked. unfold meshStreamHandler. rewrite Hip, Hport.
  rewrite <- origin_guard in Hok. rewrite Hok.
  unfold Js.bind, gets, identity_key in *. rewrite Hlinked.
  unfold perform, modify, after_effects. cbn.
  rewrite <- app_assoc. reflexivity.
Qed.

(** A new identity on a session the coordinator knows. *)
Lemma meshStreamHandler_accepts (entry : SessionEntry) :
  same_origin ip (socket_remoteAddress (stream_session stream)) ->
  byIPAndPort (knownServerConnections s) !! identity_key ip port = None ->
  bySession (knownServerConnections s)
    !! property_key (session_sessionId (stream_session stream)) = Some entry ->
  meshStreamHandler stream headers s
  = (Normal tt,
     {| knownServerConnections :=
          {| bySession :=
               <[ property_key (session_sessionId (stream_session stream)) :=
                    {| entry_session := entry_session entry;
                       entry_streams :=
                         <[ property_key (stream_id stream) := stream ]>
                           (entry_streams entry) |} ]>
                 (bySession (knownServerConnections s));
             byIPAndPort :=
               <[ identity_key ip port := stream ]>
                 (byIPAndPort (knownServerConnections s)) |};
        effects :=
          effects s
            ++ [Log "info" "New inbound mesh server connection: ";
                Log "debug" "Processing mesh server stream data: ";
                On stream "close"
                  (StreamClose
                     (property_key (session_sessionId (stream_session stream)))
                     (property_key (stream_id stream)) (identity_key ip port));
                On stream "data" StreamData;
                On stream "end" (StreamEnd (identity_key ip port) false);
                Respond stream 200 false] |}).
Proof.
  intros Hok Hnew Hsession. unfold meshStreamHandler. rewrite Hip, Hport.
  rewrite <- origin_guard in Hok. rewrite Hok.
  unfold Js.bind, gets, identity_key in *. rewrite Hnew, Hsession.
  unfold processMeshStreamData, set_known, perform, modify, Js.bind. cbn.
  rewrite <- !app_assoc. reflexivity.
Qed.

End Handshake.

Section Links.

Import Mesh Scenario.

(** The guard of the handler, one call at a time: an inbound handshake
    that declares an ["ip:port"] string for which [byIPAndPort] holds a
    stream is answered with status 404 and the stream ended, and the call
    leaves both indexes as they were. *)
Lemma linked_identity_is_refused (s : State) (stream : Stream)
    (headers : gmap string string) (ip port : string) (linked : Stream) :
  headers !! MESH_IP_HEADER = Some ip ->
  headers !! MESH_PORT_HEADER = Some port ->
  same_origin ip (socket_remoteAddress (stream_session stream)) ->
  byIPAndPort (knownServerConnections s) !! identity_key ip port = Some linked ->
  exists s',
    meshStreamHandler stream headers s = (Normal tt, s')
    /\ effects s' = effects s ++ [Respond stream 404 true;
                                  Log "error" "Existing server connection: "]
    /\ bySession (knownServerConnections s') = bySession (knownServerConnections s)
    /\ byIPAndPort (knownServerConnections s')
       = byIPAndPort (knownServerConnections s)
    /\ byIPAndPort (knownServerConnections s') !! identity_key ip port = Some linked.
Proof.
  intros Hip Hport Hok Hlinked. eexists. split.
  - eapply meshStreamHandler_existing; eassumption.
  - repeat split; try reflexivity. exact Hlinked.
Qed.

(** Two attempts in a row for one declared identity: the first is
    accepted and recorded, the second is refused and changes nothing. *)
Lemma two_attempts_one_link (s : State) (first second : Stream)
    (headers1 headers2 : gmap string string) (ip port : string)
    (entry : SessionEntry) :
  headers1 !! MESH_IP_HEADER = Some ip -> headers1 !! MESH_PORT_HEADER = Some port ->
  headers2 !! MESH_IP_HEADER = Some ip -> headers2 !! MESH_PORT_HEADER = Some port ->
  same_origin ip (socket_remoteAddress (stream_session first)) ->
  same_origin ip (socket_remoteAddress (stream_session second)) ->
  byIPAndPort (knownServerConnections s) !! identity_key ip port = None ->
  bySession (knownServerConnections s)
    !! property_key (session_sessionId (stream_session first)) = Some entry ->
  let s1 := snd (meshStreamHandler first headers1 s) in
  let s2 := snd (meshStreamHandler second headers2 s1) in
  last (effects s1) = Some (Respond first 200 false)
  /\ effects s2 = effects s1 ++ [Respond second 404 true;
                                 Log "error" "Existing server connection: "]
  /\ knownServerConnections s2 = knownServerConnections s1
  /\ byIPAndPort (knownServerConnections s2) !! identity_key ip port = Some first.
Proof.
  intros H1i H1p H2i H2p Hok1 Hok2 Hnew Hsession s1 s2.
  assert (Hs1 : byIPAndPort (knownServerConnections s1) !! identity_key ip port
                = Some first).
  { subst s1. rewrite (meshStreamHandler_accepts s first headers1 ip port H1i H1p
                         entry Hok1 Hnew Hsession).
    cbn. apply lookup_insert_eq. }
  assert (Hlast : last (effects s1) = Some (Respond first 200 false)).
  { subst s1. rewrite (meshStreamHandler_accepts s first headers1 ip port H1i H1p
                         entry Hok1 Hnew Hsession).
    cbn [snd effects].
    rewrite last_app. reflexivity. }
  subst s2.
  rewrite (meshStreamHandler_existing s1 second headers2 ip port H2i H2p first Hok2 Hs1).
  cbn. repeat split; assumption.
Qed.

(** Teardown: the close listener of a link removes its record, other
    identities keep theirs, and every known session stays known, so the
    identity can be linked again. *)
Lemma streamCloseListener_forgets (s : State) (sessionId streamId key : string) :
  let s' := snd (streamCloseListener sessionId streamId key s) in
  fst (streamCloseListener sessionId streamId key s) = Normal tt
  /\ byIPAndPort (knownServerConnections s') !! key = None
  /\ (forall other, other <> key ->
        byIPAndPort (knownServerConnections s') !! other
        = byIPAndPort (knownServerConnections s) !! other)
  /\ (forall session,
        is_Some (bySession (knownServerConnections s) !! session) ->
        is_Some (bySession (knownServerConnections s') !! session)).
Proof.
  unfold streamCloseListener, Js.bind, perform, set_known, modify, gets. cbn.
  split; [reflexivity|]. split; [apply lookup_delete_eq|]. split.
  - intros other Hne. apply lookup_delete_ne. congruence.
  - intros session Hs.
    destruct (bySession (knownServerConnections s) !! sessionId) as [entry|] eqn:E;
      [|exact Hs].
    destruct (decide (sessionId = session)) as [->|Hne].
    + rewrite lookup_insert_eq. eauto.
    + rewrite lookup_insert_ne by exact Hne. exact Hs.
Qed.

End Links.

Lemma linked_identity_is_refused_witness :
  exists s',
    Mesh.meshStreamHandler Scenario.stream2 (Scenario.declares "localhost" "9000")
      Scenario.one_link = (Normal tt, s')
    /\ Mesh.effects s'
       = Mesh.effects Scenario.one_link
           ++ [Mesh.Respond Scenario.stream2 404 true;
               Mesh.Log "error" "Existing server connection: "]
    /\ Mesh.bySession (Mesh.knownServerConnections s')
       = Mesh.bySession (Mesh.knownServerConnections Scenario.one_link)
    /\ Mesh.byIPAndPort (Mesh.knownServerConnections s')
       = Mesh.byIPAndPort (Mesh.knownServerConnections Scenario.one_link)
    /\ Mesh.byIPAndPort (Mesh.knownServerConnections s')
         !! identity_key "localhost" "9000" = Some Scenario.stream1.
Proof.
  apply (linked_identity_is_refused Scenario.one_link Scenario.stream2
           (Scenario.declares "localhost" "9000") "localhost" "9000" Scenario.stream1).
  - reflexivity.
  - reflexivity.
  - right. split; [set_solver|]. exists "127.0.0.1". split; [reflexivity | set_solver].
  - vm_compute. reflexivity.
Defined.

(** Loopback names are not one identity for the registry: after a peer
    at 127.0.0.1 declared localhost:9000, a handshake from the same
    address declaring 127.0.0.1:9000 is accepted with status 200, and the
    registry then holds two records for that one peer. *)
Lemma loopback_aliases_get_two_records :
  let s2 := snd (Mesh.meshStreamHandler Scenario.stream2
                   (Scenario.declares "127.0.0.1" "9000") Scenario.one_link) in
  Mesh.byIPAndPort (Mesh.knownServerConnections Scenario.one_link)
    !! "localhost:9000" = Some Scenario.stream1
  /\ last (Mesh.effects s2) = Some (Mesh.Respond Scenario.stream2 200 false)
  /\ Mesh.byIPAndPort (Mesh.knownServerConnections s2) !! "localhost:9000"
     = Some Scenario.stream1
  /\ Mesh.byIPAndPort (Mesh.knownServerConnections s2) !! "127.0.0.1:9000"
     = Some Scenario.stream2.
Proof. vm_compute. repeat split. Qed.

(** C3, at a registry in which a peer is linked as localhost:9000 by an
    inbound stream that stays open. When the second attempt arrives over
    a connection of its own, the session event of that connection is
    handled first and replaces the record kept under the key
    ["undefined"] (no session has an [id]): the attempt is refused with
    404, but the first link's stream is gone from the by-session index.
    And when the outbound stream towards localhost:9000 has closed
    before, its close listener has deleted the identity from
    [byIPAndPort]: the second attempt declaring localhost:9000 is then
    accepted with status 200 and takes the place of the first link. *)
Theorem linked_identity_is_not_kept :
  let linked := Scenario.one_link in
  let own1 := snd (Mesh.meshSessionHandler Scenario.loopback_session linked) in
  let own2 := snd (Mesh.meshStreamHandler Scenario.stream4
                     (Scenario.declares "localhost" "9000") own1) in
  let out1 := snd (Mesh.outboundResponseListener Scenario.outbound "localhost:9000"
                     Scenario.success_response linked) in
  let out2 := snd (Mesh.streamCloseListener "undefined" "1" "localhost:9000" out1) in
  let out3 := snd (Mesh.meshStreamHandler Scenario.stream2
                     (Scenario.declares "localhost" "9000") out2) in
  let recorded (s : Mesh.State) (streamId : string) :=
    Mesh.bySession (Mesh.knownServerConnections s) !! "undefined"
      ≫= fun entry => Mesh.entry_streams entry !! streamId in
  (Mesh.byIPAndPort (Mesh.knownServerConnections linked) !! "localhost:9000"
   = Some Scenario.stream1
   /\ recorded linked "1" = Some Scenario.stream1)
  /\ (Mesh.effects own2
      = Mesh.effects own1 ++ [Mesh.Respond Scenario.stream4 404 true;
                              Mesh.Log "error" "Existing server connection: "]
      /\ recorded own2 "1" = None)
  /\ (Mesh.On Scenario.outbound "close"
        (Mesh.StreamClose "undefined" "1" "localhost:9000") ∈ Mesh.effects out1
      /\ Mesh.byIPAndPort (Mesh.knownServerConnections out2) !! "localhost:9000"
         = None
      /\ last (Mesh.effects out3) = Some (Mesh.Respond Scenario.stream2 200 false)
      /\ Mesh.byIPAndPort (Mesh.knownServerConnections out3) !! "localhost:9000"
         = Some Scenario.stream2
      /\ recorded out3 "3" = Some Scenario.stream2).
Proof.
  cbv zeta. split; [|split].
  - vm_compute. split; reflexivity.
  - split; vm_compute; reflexivity.
  - split; [|vm_compute; repeat split].
    apply list_elem_of_In. vm_compute. repeat (first [left; reflexivity | right]).
Qed.

Section Origin.

Import Mesh Scenario.

(** C6, with the conditions under which a handshake that passes the
    origin check goes on to be accepted: when both headers are present
    and the declared address and the observed one are both loopback
    names, the handshake is accepted with status 200 and the stream is
    recorded, provided no link is on record for the declared identity
    and the session of the stream is known; when the two addresses
    differ and are not both loopback names, the handshake is answered
    with status 400, the stream is ended and the registry is unchanged. *)
Theorem origin_check_decides (s : State) (stream : Stream)
    (headers : gmap string string) (ip port : string) :
  headers !! MESH_IP_HEADER = Some ip ->
  headers !! MESH_PORT_HEADER = Some port ->
  (forall observed entry,
      socket_remoteAddress (stream_session stream) = Some observed ->
      ip ∈ localhostVariants -> observed ∈ localhostVariants ->
      byIPAndPort (knownServerConnections s) !! identity_key ip port = None ->
      bySession (knownServerConnections s)
        !! property_key (session_sessionId (stream_session stream)) = Some entry ->
      exists s',
        meshStreamHandler stream headers s = (Normal tt, s')
        /\ last (effects s') = Some (Respond stream 200 false)
        /\ byIPAndPort (knownServerConnections s') !! identity_key ip port
           = Some stream)
  /\ (Some ip <> socket_remoteAddress (stream_session stream) ->
      ~ (ip ∈ localhostVariants
         /\ exists observed,
             socket_remoteAddress (stream_session stream) = Some observed
             /\ observed ∈ localhostVariants) ->
      meshStreamHandler stream headers s
      = (Normal tt,
         after_effects [Respond stream 400 true; Log "error" "Invalid remote ip: "] s)).
Proof.
  intros Hip Hport. split.
  - intros observed entry Hobs Hin Hoin Hnew Hsession.
    assert (Hok : same_origin ip (socket_remoteAddress (stream_session stream))).
    { right. split; [assumption|]. exists observed. split; assumption. }
    rewrite (meshStreamHandler_accepts s stream headers ip port Hip Hport
               entry Hok Hnew Hsession).
    eexists. split; [reflexivity|]. cbn [knownServerConnections effects byIPAndPort].
    split; [|apply lookup_insert_eq].
    rewrite last_app. reflexivity.
  - intros Hne Hnot.
    apply (meshStreamHandler_mismatch s stream headers ip port Hip Hport).
    intros [Heq | Hboth]; [contradiction | exact (Hnot Hboth)].
Qed.

End Origin.

Lemma origin_check_decides_witness :
  (exists s',
      Mesh.meshStreamHandler Scenario.stream1 (Scenario.declares "localhost" "9000")
        Scenario.one_session = (Normal tt, s')
      /\ last (Mesh.effects s') = Some (Mesh.Respond Scenario.stream1 200 false)
      /\ Mesh.byIPAndPort (Mesh.knownServerConnections s')
           !! identity_key "localhost" "9000" = Some Scenario.stream1)
  /\ Mesh.meshStreamHandler Scenario.stream3 (Scenario.declares "10.0.0.9" "9000")
       Scenario.one_session
     = (Normal tt,
        after_effects [Mesh.Respond Scenario.stream3 400 true;
                       Mesh.Log "error" "Invalid remote ip: "] Scenario.one_session).
Proof.
  split.
  - apply (proj1 (origin_check_decides Scenario.one_session Scenario.stream1
                    (Scenario.declares "localhost" "9000") "localhost" "9000"
                    eq_refl eq_refl) "127.0.0.1"
             {| Mesh.entry_session := Scenario.loopback_session;
                Mesh.entry_streams := ∅ |}).
    + reflexivity.
    + set_solver.
    + set_solver.
    + vm_compute. reflexivity.
    + vm_compute. reflexivity.
  - apply (proj2 (origin_check_decides Scenario.one_session Scenario.stream3
                    (Scenario.declares "10.0.0.9" "9000") "10.0.0.9" "9000"
                    eq_refl eq_refl)).
    + discriminate.
    + intros [Hin _].
      assert (Hout : bool_decide ("10.0.0.9" ∈ Mesh.localhostVariants) = false)
        by reflexivity.
      apply bool_decide_eq_false in Hout. contradiction.
Defined.

(** C6 as stated fails for a loopback pair whose declared identity is
    already linked: the peer at 127.0.0.1 declaring localhost:9000 a second
    time is answered with status 404 and its stream is not recorded. *)
Lemma loopback_handshake_of_linked_identity_is_refused :
  Scenario.declares "localhost" "9000" !! Mesh.MESH_IP_HEADER = Some "localhost"
  /\ Mesh.socket_remoteAddress (Mesh.stream_session Scenario.stream2)
     = Some "127.0.0.1"
  /\ Mesh.meshStreamHandler Scenario.stream2 (Scenario.declares "localhost" "9000")
       Scenario.one_link
     = (Normal tt,
        after_effects [Mesh.Respond Scenario.stream2 404 true;
                       Mesh.Log "error" "Existing server connection: "]
          Scenario.one_link)
  /\ Mesh.byIPAndPort (Mesh.knownServerConnections Scenario.one_link)
       !! "localhost:9000" = Some Scenario.stream1.
Proof. vm_compute. repeat split. Qed.

(** ** Outbound links *)

Section Outbound.

Import Mesh Scenario.

(** The response listener attaches the stream listeners and writes the
    ping; the registry is not touched, whatever the response says. *)
Lemma outboundResponseListener_effects (s : State) (outboundStream : Stream)
    (server : string) (headers : gmap string string) :
  outboundResponseListener outboundStream server headers s
  = (Normal tt,
     after_effects
       [Log "debug" "Outbound mesh stream connected to: ";
        Log "debug" "Processing mesh server stream data: ";
        On outboundStream "close"
          (StreamClose (property_key (session_sessionId (stream_session outboundStream)))
             (property_key (stream_id outboundStream)) server);
        On outboundStream "data" StreamData;
        On outboundStream "end" (StreamEnd server true);
        Log "debug" "Sending ping to: ";
        Write outboundStream "ping"] s).
Proof.
  unfold outboundResponseListener, processMeshStreamData, Js.bind, perform, modify,
    after_effects.
  cbn. rewrite <- !app_assoc. reflexivity.
Qed.

(** C5, at the outbound stream towards the peer registered as
    10.0.0.2:9001 answering with status 200: the listener returns
    normally, has attached the teardown listener and written the ping,
    but the registry is what it was and has no record under that
    identity. *)
Theorem outbound_link_is_not_recorded :
  let result := outboundResponseListener outbound "10.0.0.2:9001" success_response
                  one_session in
  connectTargets "localhost" "8080" ["10.0.0.2:9001"; "localhost:8080"]
    = ["10.0.0.2:9001"]
  /\ fst result = Normal tt
  /\ On outbound "close" (StreamClose "undefined" "1" "10.0.0.2:9001")
       ∈ effects (snd result)
  /\ last (effects (snd result)) = Some (Write outbound "ping")
  /\ knownServerConnections (snd result) = knownServerConnections one_session
  /\ byIPAndPort (knownServerConnections (snd result)) !! "10.0.0.2:9001" = None.
Proof.
  cbv zeta. rewrite outboundResponseListener_effects.
  split; [reflexivity|]. split; [reflexivity|].
  split; [|split; [|split]].
  - cbn [snd after_effects effects]. rewrite elem_of_app. right.
    apply list_elem_of_In. cbn. tauto.
  - cbn [snd after_effects effects]. rewrite last_app. reflexivity.
  - reflexivity.
  - reflexivity.
Qed.

End Outbound.

(** ** Start-up of the coordinating process *)

Section Startup.

Import Lifecycle.

Lemma precedes_none (enabler : Entry) (Q : Entry -> bool) (h : list Entry) :
  Forall (fun e => Q e = false) h -> precedes enabler Q h.
Proof.
  intros Hall pre e post -> HQ.
  rewrite Forall_app, Forall_cons in Hall. destruct Hall as (_ & He & _).
  congruence.
Qed.

Lemma snoc_split (h pre post : list Entry) (e x : Entry) :
  h ++ [e] = pre ++ x :: post ->
  (post = [] /\ pre = h /\ x = e)
  \/ exists post', post = post' ++ [e] /\ h = pre ++ x :: post'.
Proof.
  destruct post as [|y post _] using rev_ind; intros Heq.
  - left. apply app_inj_tail in Heq. destruct Heq as [-> ->]. auto.
  - right. exists post.
    change (pre ++ x :: post ++ [y]) with (pre ++ (x :: post) ++ [y]) in Heq.
    rewrite app_assoc in Heq. apply app_inj_tail in Heq.
    destruct Heq as [-> ->]. auto.
Qed.

Lemma precedes_snoc (enabler : Entry) (Q : Entry -> bool) (h : list Entry)
    (e : Entry) :
  precedes enabler Q h ->
  (Q e = true -> enabler ∈ h) ->
  precedes enabler Q (h ++ [e]).
Proof.
  intros Hh He pre x post Heq HQ.
  apply snoc_split in Heq. destruct Heq as [(-> & -> & ->) | (post' & -> & ->)].
  - apply He. exact HQ.
  - eapply Hh; [reflexivity | exact HQ].
Qed.

Variable port : string.

(** Recording one more entry keeps the process [started], as long as a
    registration is recorded only after the listening event. *)
Lemma started_record (p : Process) (e : Entry) :
  started port p ->
  (is_registration e = true -> listening_event ∈ history p) ->
  started port (record e p).
Proof.
  intros (Hl & Hi & Hp & Hlisten & Hreg & Hin) He.
  unfold started, record. cbn [listeners meshIp meshPort history].
  repeat split; try assumption.
  - rewrite elem_of_app. left. exact Hlisten.
  - apply precedes_snoc; assumption.
  - apply precedes_snoc; [assumption | intros _; exact Hlisten].
Qed.

Lemma started_act (p : Process) (a : Action) :
  started port p ->
  (forall ip prt, a = RegisterServer ip prt -> listening_event ∈ history p) ->
  started port (act a p).
Proof.
  intros Hs Ha. apply started_record; [exact Hs|].
  destruct a; cbn; try discriminate. intros _. eapply Ha. reflexivity.
Qed.

Lemma started_fields (p q : Process) :
  listeners q = listeners p -> meshIp q = meshIp p -> meshPort q = meshPort p ->
  history q = history p ->
  started port p -> started port q.
Proof.
  unfold started. intros -> -> -> ->. tauto.
Qed.

(** A handler keeps the process [started]; the listening handler is the
    one that registers, so it needs the listening event in the history. *)
Lemma started_call (h : Handler) (p : Process) :
  started port p ->
  (h = MeshListeningHandler -> listening_event ∈ history p) ->
  started port (call h p) /\ (forall e, e ∈ history p -> e ∈ history (call h p)).
Proof.
  intros Hs Hh.
  destruct h; cbn [call].
  - split.
    + apply started_act; [exact Hs | discriminate].
    + intros e He. cbn. rewrite elem_of_app. auto.
  - split.
    + unfold meshCloseHandler. eapply started_fields; [..|
        apply started_act; [apply started_act; [exact Hs|]|]]; try reflexivity;
        discriminate.
    + intros e He. cbn. rewrite !elem_of_app. auto.
  - assert (Hb : started port (act (EmitMesh "error")
                                  (act (LogLine "error" "Mesh server error: ") p)))
      by (apply started_act; [apply started_act; [exact Hs|]|]; discriminate).
    split.
    + unfold meshServerErrorHandler. cbv zeta.
      destruct (errorListener _); [exact Hb|].
      eapply started_fields; [..|exact Hb]; reflexivity.
    + intros e He. unfold meshServerErrorHandler. cbv zeta.
      destruct (errorListener _); cbn; rewrite !elem_of_app; auto.
  - split.
    + unfold meshListeningHandler. eapply started_fields; [..|
        apply started_act; [apply started_act; [exact Hs|]|]]; try reflexivity.
      * discriminate.
      * intros ip prt _. cbn. rewrite elem_of_app. left. apply Hh. reflexivity.
    + intros e He. cbn. rewrite !elem_of_app. auto.
  - split.
    + unfold sigIntHandler. eapply started_fields; [..|
        apply started_act; [apply started_act; [exact Hs|]|]]; try reflexivity;
        discriminate.
    + intros e He. cbn. rewrite !elem_of_app. auto.
  - split.
    + unfold workerDisconnectHandler. eapply started_fields; [..|exact Hs];
        reflexivity.
    + intros e He. exact He.
  - split; [exact Hs | auto].
Qed.

Lemma started_call_all (hs : list Handler) (p : Process) :
  started port p ->
  (MeshListeningHandler ∈ hs -> listening_event ∈ history p) ->
  started port (call_all hs p).
Proof.
  revert p. induction hs as [|h hs IH]; intros p Hs Hh; [exact Hs|].
  cbn [call_all]. destruct (is_running p); [|exact Hs].
  destruct (started_call h p Hs) as [Hs' Hmono].
  { intros ->. apply Hh. left. }
  apply IH; [exact Hs'|].
  intros Hin. apply Hmono, Hh. right. exact Hin.
Qed.

(** In the table of [#startMeshServer] the listening handler is
    attached to the listening event of the mesh server and to nothing
    else. *)
Lemma listening_handler_only_on_listening (emitter : Emitter) (event : string) :
  MeshListeningHandler ∈ listeners_for emitter event start_table ->
  emitter = MeshHttp2Server /\ event = "listening".
Proof.
  unfold listeners_for. rewrite list_elem_of_omap.
  intros ([[em ev] h] & Hin & Hf).
  case_bool_decide as Hd; [|discriminate]. destruct Hd as [-> ->].
  injection Hf as ->.
  unfold start_table in Hin. rewrite !elem_of_cons, elem_of_nil in Hin.
  destruct Hin as [H|[H|[H|[H|[H|[H|[H|[]]]]]]]]; inversion H; auto.
Qed.

Lemma on_fields (emitter : Emitter) (event : string) (h : Handler) (p : Process) :
  listeners (on emitter event h p) = listeners p ++ [(emitter, event, h)]
  /\ meshIp (on emitter event h p) = meshIp p
  /\ meshPort (on emitter event h p) = meshPort p
  /\ history (on emitter event h p) = history p.
Proof. repeat split. Qed.

Lemma act_fields (a : Action) (p : Process) :
  listeners (act a p) = listeners p
  /\ meshIp (act a p) = meshIp p
  /\ meshPort (act a p) = meshPort p
  /\ history (act a p) = history p ++ [Did a].
Proof. repeat split. Qed.

Lemma set_counters_fields (reg unreg disc tm : nat) (p : Process) :
  listeners (set_counters reg unreg disc tm p) = listeners p
  /\ meshIp (set_counters reg unreg disc tm p) = meshIp p
  /\ meshPort (set_counters reg unreg disc tm p) = meshPort p
  /\ history (set_counters reg unreg disc tm p) = history p.
Proof. repeat split. Qed.

Lemma precedes_app (enabler : Entry) (Q : Entry -> bool) (h ext : list Entry) :
  precedes enabler Q h ->
  (forall e, e ∈ ext -> Q e = true -> enabler ∈ h) ->
  precedes enabler Q (h ++ ext).
Proof.
  induction ext as [|e ext IH] using rev_ind; intros Hh Hext.
  - rewrite app_nil_r. exact Hh.
  - rewrite app_assoc. apply precedes_snoc.
    + apply IH; [exact Hh|]. intros x Hx. apply Hext.
      rewrite elem_of_app. left. exact Hx.
    + intros HQ. rewrite elem_of_app. left. apply (Hext e); [|exact HQ].
      rewrite elem_of_app. right. left.
Qed.

(** A process that differs from a [started] one by more history, with
    registrations only if the listening event was there already. *)
Lemma started_extend (p q : Process) (ext : list Entry) :
  started port p ->
  listeners q = listeners p -> meshIp q = meshIp p -> meshPort q = meshPort p ->
  history q = history p ++ ext ->
  (forall e, e ∈ ext -> is_registration e = true -> listening_event ∈ history p) ->
  started port q.
Proof.
  intros (Hl & Hi & Hp & Hlisten & Hreg & Hin) Hl' Hi' Hp' Hh Hext.
  unfold started. rewrite Hl', Hi', Hp', Hh. repeat split; try assumption.
  - rewrite elem_of_app. left. exact Hlisten.
  - apply precedes_app; assumption.
  - apply precedes_app; [assumption | intros; exact Hlisten].
Qed.

Lemma sigIntResume_fields (p : Process) :
  listeners (sigIntResume p) = listeners p
  /\ meshIp (sigIntResume p) = meshIp p
  /\ meshPort (sigIntResume p) = meshPort p
  /\ history (sigIntResume p)
     = history p
         ++ [Did ClusterDisconnect; Did ServerClose; Did CloseAllConnections;
             Did (LogLine "log" "Mesh server stopped. Stopping the process in 10 seconds");
             Did (SetTimeout 10000)].
Proof.
  unfold sigIntResume. cbv zeta.
  repeat match goal with
         | |- context [set_counters ?a ?b ?c ?d ?p] =>
             destruct (set_counters_fields a b c d p) as (-> & -> & -> & ->)
         | |- context [act ?a ?p] =>
             destruct (act_fields a p) as (-> & -> & -> & ->)
         end.
  rewrite <- !app_assoc. repeat split.
Qed.

(** One turn of the event loop keeps the process [started]. *)
Lemma started_step (p : Process) (i : Input) :
  started port p -> started port (step p i).
Proof.
  intros Hs. unfold step. destruct (is_running p); [|exact Hs].
  assert (Hr : started port (record (Got i) p))
    by (apply started_record; [exact Hs | discriminate]).
  assert (Hlast : Got i ∈ history (record (Got i) p))
    by (cbn; rewrite elem_of_app; right; left).
  destruct i as [emitter event| | | | |].
  - apply started_call_all; [exact Hr|].
    destruct Hr as (Hl & _). rewrite Hl. intros Hin.
    apply listening_handler_only_on_listening in Hin. destruct Hin as [-> ->].
    exact Hlast.
  - eapply started_fields; [..|exact Hr]; reflexivity.
  - destruct (pendingRegistrations (record (Got RegistrationRejected) p));
      [exact Hr|].
    unfold registrationCatch, exit.
    eapply started_fields; [..|
      apply started_act; [apply started_act;
        [eapply started_fields; [..|exact Hr]|]|]]; try reflexivity; discriminate.
  - destruct (pendingUnRegistrations (record (Got UnRegistrationResolved) p));
      [exact Hr|].
    destruct (sigIntResume_fields
                (set_counters
                   (pendingRegistrations (record (Got UnRegistrationResolved) p)) n
                   (disconnectCallbacks (record (Got UnRegistrationResolved) p))
                   (timers (record (Got UnRegistrationResolved) p))
                   (record (Got UnRegistrationResolved) p)))
      as (Hl' & Hi' & Hp' & Hh').
    eapply started_extend; [exact Hr | exact Hl' | exact Hi' | exact Hp' | exact Hh' |].
    intros e He Hreg. rewrite !elem_of_cons, elem_of_nil in He.
    destruct He as [->|[->|[->|[->|[->|[]]]]]]; discriminate Hreg.
  - destruct (disconnectCallbacks (record (Got ClusterDisconnected) p));
      [exact Hr|].
    unfold exit. eapply started_fields; [..|apply started_act; [exact Hr|]];
      try reflexivity; discriminate.
  - destruct (timers (record (Got TimerFired) p)); [exact Hr|].
    unfold exit. eapply started_fields; [..|apply started_act; [exact Hr|]];
      try reflexivity; discriminate.
Qed.

Lemma started_run (inputs : list Input) (p : Process) :
  started port p -> started port (run p inputs).
Proof.
  revert p. unfold run.
  induction inputs as [|i inputs IH]; intros p Hs; [exact Hs|].
  cbn [foldl]. apply IH, started_step, Hs.
Qed.

Lemma not_started_act (p : Process) (a : Action) :
  not_started port p -> is_registration (Did a) = false ->
  not_started port (act a p).
Proof.
  intros (Hl & Hi & Hp & Hc) Ha. unfold not_started, calm, act, record.
  cbn [listeners meshIp meshPort history]. repeat split; try assumption.
  apply Forall_app. split; [exact Hc|]. constructor; [|constructor].
  split; [exact Ha | reflexivity].
Qed.

Lemma not_started_foldl {A : Type} (f : Process -> A -> Process) (l : list A)
    (p : Process) :
  (forall q x, not_started port q -> not_started port (f q x)) ->
  not_started port p -> not_started port (foldl f p l).
Proof.
  intros Hf. revert p. induction l as [|x l IH]; intros p Hp; [exact Hp|].
  cbn [foldl]. apply IH, Hf, Hp.
Qed.

Lemma quiet_act (a : Action) (p : Process) : quiet p -> quiet (act a p).
Proof. intros H. exact H. Qed.

(** The loop of [#connectToMeshServers] registers nothing and leaves
    nothing pending, wherever it stops. *)
Lemma not_started_connectOne (reachable unregistered : string -> bool)
    (targets : list string) (p : Process) (going : bool) :
  not_started port p -> quiet p ->
  not_started port (fst (foldl (connectOne reachable unregistered) (p, going) targets))
  /\ quiet (fst (foldl (connectOne reachable unregistered) (p, going) targets)).
Proof.
  revert p going. induction targets as [|server targets IH]; intros p going Hp Hq;
    [split; assumption|].
  cbn [foldl connectOne]. destruct going; [|apply IH; assumption].
  destruct (reachable server); apply IH;
    repeat (apply not_started_act; [|reflexivity]); try exact Hp; exact Hq.
Qed.

Lemma not_started_connect (reachable unregistered : string -> bool)
    (otherMeshServers : list string) (p : Process) :
  not_started port p -> quiet p ->
  not_started port
    (fst (connectToMeshServers reachable unregistered otherMeshServers p))
  /\ quiet (fst (connectToMeshServers reachable unregistered otherMeshServers p)).
Proof.
  intros Hp Hq. unfold connectToMeshServers. cbv zeta.
  assert (Hlog : forall (targets : list string) (q : Process),
             not_started port q -> quiet q ->
             not_started port
               (foldl (fun p server => act (LogLine "log" server) p) q targets)
             /\ quiet (foldl (fun p server => act (LogLine "log" server) p) q targets)).
  { induction targets as [|t targets IH]; intros q Hn Hquiet; [split; assumption|].
    cbn [foldl]. apply IH; [apply not_started_act; [exact Hn|reflexivity]|exact Hquiet]. }
  match goal with
  | |- context [foldl _ (foldl ?f ?q ?targets, true) ?targets] =>
      destruct (Hlog targets q) as [Hn Hquiet]
  end.
  - apply not_started_act; [exact Hp | reflexivity].
  - exact Hq.
  - apply not_started_connectOne; assumption.
Qed.

(** [#startMeshServer] builds the table and calls [listen]. *)
Lemma startMeshServer_fields (q : Process) :
  listeners (startMeshServer q) = listeners q ++ start_table
  /\ meshIp (startMeshServer q) = meshIp q
  /\ meshPort (startMeshServer q) = meshPort q
  /\ history (startMeshServer q)
     = history q ++ [Did CreateServer; Did (Listen (meshPort q) (meshIp q))].
Proof.
  unfold startMeshServer. cbv zeta.
  repeat match goal with
         | |- context [act ?a ?p] =>
             destruct (act_fields a p) as (-> & -> & -> & ->)
         | |- context [on ?em ?ev ?h ?p] =>
             destruct (on_fields em ev h p) as (-> & -> & -> & ->)
         end.
  rewrite <- !app_assoc. repeat split.
Qed.

Lemma quiet_startMeshServer (q : Process) : quiet q -> quiet (startMeshServer q).
Proof. intros H. exact H. Qed.

Lemma started_startMeshServer (q : Process) :
  not_started port q -> started port (startMeshServer q).
Proof.
  intros (Hl & Hi & Hp & Hc).
  destruct (startMeshServer_fields q) as (Hl' & Hi' & Hp' & Hh').
  unfold started. rewrite Hl', Hi', Hp', Hh', Hl, Hi, Hp.
  split; [reflexivity|]. split; [reflexivity|]. split; [reflexivity|].
  assert (Hall : Forall (fun e => is_registration e = false /\ is_input e = false)
                   (history q ++ [Did CreateServer; Did (Listen port "localhost")])).
  { rewrite Forall_app. split; [exact Hc|].
    repeat constructor. }
  split; [|split].
  - rewrite elem_of_app. right. right. left.
  - apply precedes_none. eapply Forall_impl; [exact Hall|]. cbn. tauto.
  - apply precedes_none. eapply Forall_impl; [exact Hall|]. cbn. tauto.
Qed.

Lemma not_started_owned (listens : bool) :
  not_started port (owned listens (construct port))
  /\ quiet (owned listens (construct port)).
Proof.
  destruct listens; unfold not_started, calm, quiet; cbn; repeat split; constructor.
Qed.

(** [start] on the coordinating process either establishes [started],
    or, when an awaited unregistration of an unreachable server does not
    resolve, leaves the process without mesh server and listeners. *)
Lemma start_cases (listens : bool) (reachable unregistered : string -> bool)
    (otherServers : list string) :
  let p := start true reachable unregistered otherServers
             (owned listens (construct port)) in
  quiet p /\ (started port p \/ not_started port p).
Proof.
  unfold start.
  destruct (not_started_owned listens) as [Hn Hq].
  destruct (not_started_connect reachable unregistered otherServers
              (act (LogLine "log" "Other servers: ")
                 (act GetOtherMeshServers (owned listens (construct port)))))
    as [Hn' Hq'].
  { apply not_started_act; [|reflexivity].
    apply not_started_act; [|reflexivity]. exact Hn. }
  { exact Hq. }
  destruct (connectToMeshServers reachable unregistered otherServers _)
    as [q completed].
  cbn [fst] in Hn', Hq'. destruct completed.
  - split; [apply quiet_startMeshServer, Hq'|].
    left. apply started_startMeshServer, Hn'.
  - split; [exact Hq'|]. right. exact Hn'.
Qed.

(** A process without listeners and with nothing pending only records
    what it is given. *)
Lemma unstarted_step (p : Process) (i : Input) :
  listeners p = [] -> quiet p ->
  step p i = record (Got i) p.
Proof.
  intros Hl (Hr & Hu & Hd & Ht & Hs). unfold step, is_running. rewrite Hs.
  destruct i as [emitter event| | | | |]; cbn [record listeners pendingRegistrations
    pendingUnRegistrations disconnectCallbacks timers].
  - rewrite Hl. reflexivity.
  - rewrite Hr, Hu, Hd, Ht. destruct p; cbn in *; subst; reflexivity.
  - rewrite Hr. reflexivity.
  - rewrite Hu. reflexivity.
  - rewrite Hd. reflexivity.
  - rewrite Ht. reflexivity.
Qed.

Lemma unstarted_run (inputs : list Input) (p : Process) :
  listeners p = [] -> quiet p ->
  listeners (run p inputs) = [] /\ quiet (run p inputs)
  /\ history (run p inputs) = history p ++ (Got <$> inputs).
Proof.
  revert p. unfold run. induction inputs as [|i inputs IH]; intros p Hl Hq.
  - cbn. rewrite app_nil_r. auto.
  - cbn [foldl fmap list_fmap]. rewrite (unstarted_step p i Hl Hq).
    destruct (IH (record (Got i) p) Hl Hq) as (Hl' & Hq' & Hh').
    rewrite Hh'. cbn [record history]. rewrite <- app_assoc. auto.
Qed.

(** C7: whatever the runtime delivers after [start] on the
    coordinating process, every call of the registration function in the
    history comes after the listening event of the mesh server (and so
    after the call of [listen]); and whenever a registration is pending,
    its rejection makes the process exit with code 1. This holds whether
    or not the owner listens for the instance's errors, and whether or
    not the unregistrations awaited during [start] resolve. *)
Theorem registration_only_after_listening (listens : bool)
    (reachable unregistered : string -> bool)
    (otherServers : list string) (inputs : list Input) :
  let p := run (start true reachable unregistered otherServers
                  (owned listens (construct port))) inputs in
  (forall pre e post,
      history p = pre ++ e :: post -> is_registration e = true ->
      listening_event ∈ pre /\ Did (Listen port "localhost") ∈ pre)
  /\ (forall n,
        status p = Running -> pendingRegistrations p = S n ->
        status (step p RegistrationRejected) = Exited 1
        /\ last (history (step p RegistrationRejected)) = Some (Did (Exit 1))).
Proof.
  intros p.
  destruct (start_cases listens reachable unregistered otherServers) as [Hq Hcases].
  split.
  - intros pre e post Heq He.
    destruct Hcases as [Hstarted | (Hl & _ & _ & Hcalm)].
    + assert (Hs : started port p) by apply started_run, Hstarted.
      destruct Hs as (_ & _ & _ & _ & Hreg & Hin).
      pose proof (Hreg pre e post Heq He) as Hlistening.
      split; [exact Hlistening|].
      apply list_elem_of_split in Hlistening.
      destruct Hlistening as (pre1 & post1 & ->).
      rewrite elem_of_app. left.
      apply (Hin pre1 listening_event (post1 ++ e :: post)); [|reflexivity].
      rewrite Heq, <- app_assoc. reflexivity.
    + exfalso.
      destruct (unstarted_run inputs _ Hl Hq) as (_ & _ & Hh).
      fold p in Hh. rewrite Heq in Hh.
      assert (Hin : e ∈ history (start true reachable unregistered otherServers
                                   (owned listens (construct port)))
                        ++ (Got <$> inputs))
        by (rewrite <- Hh, elem_of_app; right; left).
      rewrite elem_of_app in Hin. destruct Hin as [Hin|Hin].
      * unfold calm in Hcalm. rewrite Forall_forall in Hcalm.
        destruct (Hcalm e Hin) as [Hno _]. congruence.
      * apply list_elem_of_fmap in Hin. destruct Hin as (i & -> & _). discriminate.
  - intros n Hrun Hpend. unfold step, is_running. rewrite Hrun.
    cbn [record pendingRegistrations]. rewrite Hpend.
    unfold registrationCatch, exit, set_status, act, record.
    cbn [status history]. split; [reflexivity|].
    rewrite last_snoc. reflexivity.
Qed.

End Startup.

Lemma registration_only_after_listening_witness :
  let p := Lifecycle.run (Lifecycle.start true (fun _ => true) (fun _ => true)
                            ["10.0.0.2:9001"]
                            (Lifecycle.owned true (Lifecycle.construct "8080")))
             [Lifecycle.Emitted Lifecycle.MeshHttp2Server "listening"] in
  (listening_event ∈ removelast (Lifecycle.history p)
   /\ Lifecycle.Did (Lifecycle.Listen "8080" "localhost")
        ∈ removelast (Lifecycle.history p))
  /\ (Lifecycle.status (Lifecycle.step p Lifecycle.RegistrationRejected)
      = Lifecycle.Exited 1
      /\ last (Lifecycle.history (Lifecycle.step p Lifecycle.RegistrationRejected))
         = Some (Lifecycle.Did (Lifecycle.Exit 1))).
Proof.
  intros p. split.
  - apply (proj1 (registration_only_after_listening "8080" true (fun _ => true)
                    (fun _ => true) ["10.0.0.2:9001"]
                    [Lifecycle.Emitted Lifecycle.MeshHttp2Server "listening"])
             (removelast (Lifecycle.history p))
             (Lifecycle.Did (Lifecycle.RegisterServer "localhost" "8080")) []).
    + vm_compute. reflexivity.
    + reflexivity.
  - apply (proj2 (registration_only_after_listening "8080" true (fun _ => true)
                    (fun _ => true) ["10.0.0.2:9001"]
                    [Lifecycle.Emitted Lifecycle.MeshHttp2Server "listening"]) 0%nat).
    + reflexivity.
    + reflexivity.
Defined.

(** * Further properties *)

(** ** Masking *)

Section Masking.

Import WsH2Stream.

Lemma lxor_byte_range (a b : Z) :
  0 <= a < 256 -> 0 <= b < 256 -> 0 <= Z.lxor a b < 256.
Proof.
  intros Ha Hb.
  assert (Hnn : 0 <= Z.lxor a b) by (apply Z.lxor_nonneg; lia).
  split; [exact Hnn|].
  destruct (Z.eq_dec (Z.lxor a b) 0) as [E|E]; [lia|].
  change 256 with (2 ^ 8). apply Z.log2_lt_pow2; [lia|].
  pose proof (Z.log2_lxor a b ltac:(lia) ltac:(lia)) as Hlog.
  assert (Hla : Z.log2 a < 8).
  { destruct (Z.eq_dec a 0) as [->|]; [reflexivity|].
    apply Z.log2_lt_pow2; lia. }
  assert (Hlb : Z.log2 b < 8).
  { destruct (Z.eq_dec b 0) as [->|]; [reflexivity|].
    apply Z.log2_lt_pow2; lia. }
  lia.
Qed.

Lemma xor_byte_twice (b : byte) (m : Z) :
  0 <= m < 256 ->
  to_uint8 (Z.lxor (byte_val (to_uint8 (Z.lxor (byte_val b) m))) m) = b.
Proof.
  intros Hm. pose proof (byte_val_range b) as Hb.
  rewrite byte_val_to_uint8 by (apply lxor_byte_range; assumption).
  rewrite Z.lxor_assoc, Z.lxor_nilpotent, Z.lxor_0_r.
  apply to_uint8_byte_val.
Qed.

Lemma imap_involutive {A : Type} (k : nat -> A -> A) (l : list A) :
  (forall i x, k i (k i x) = x) -> imap k (imap k l) = l.
Proof.
  revert k. induction l as [|x l IH]; intros k Hk; [reflexivity|].
  cbn. rewrite Hk. f_equal. apply IH. intros i y. apply Hk.
Qed.

(** X1: Unmasking is its own inverse: applying the mapper of [#parseFrame]
    to a payload it has already mapped, with the same key, gives the
    payload back. *)
Theorem unmask_twice (f : FragmentDetails) :
  unmask (with_payload (unmask f) f) = payload f.
Proof.
  unfold unmask, with_payload. cbn [usesMasking maskingKey payload].
  destruct (usesMasking f); [|reflexivity].
  apply imap_involutive. intros i b. apply xor_byte_twice.
  destruct (default [] (maskingKey f) !! (i mod 4)%nat) as [kb|]; cbn.
  - apply byte_val_range.
  - lia.
Qed.

(** Unmasking keeps the length of the payload. *)
Lemma unmask_length (f : FragmentDetails) : length (unmask f) = length (payload f).
Proof.
  unfold unmask. destruct (usesMasking f); [apply length_imap | reflexivity].
Qed.

End Masking.

(** ** What the decoder accepts *)

Section Decoder.

Import WsH2Stream.

Variable host : ByteOrder.

(** X2: The decoder raises an error for exactly one kind of input: a 64-bit
    length marker followed by one to seven bytes; the error is the
    RangeError of the 64-bit view. Every other chunk decodes. *)
Theorem fragmentInterpreter_raises_exactly (frag : list byte) :
  (index_and frag 1 127 = 127 /\ (3 <= length frag <= 9)%nat ->
   fragmentInterpreter host frag
   = Throw (RangeError "byte length of BigUint64Array should be a multiple of 8"))
  /\ (~ (index_and frag 1 127 = 127 /\ (3 <= length frag <= 9)%nat) ->
      exists r, fragmentInterpreter host frag = Normal r).
Proof.
  destruct frag as [|b0 [|b1 rest]].
  - split; [intros [H _]; discriminate H | intros _; eexists; reflexivity].
  - split; [intros [H _]; discriminate H | intros _; eexists; reflexivity].
  - unfold fragmentInterpreter, index_and, slice.
    cbn [length Nat.eqb lookup list_lookup from_option drop Nat.sub Nat.add].
    set (field := Z.land (byte_val b1) 127).
    destruct (field =? 126) eqn:E126.
    + apply Z.eqb_eq in E126. split; [intros [H _]; lia|].
      intros _. cbn [bindC]. eexists. reflexivity.
    + destruct (field =? 127) eqn:E127.
      * apply Z.eqb_eq in E127.
        destruct rest as [|r1 [|r2 [|r3 [|r4 [|r5 [|r6 [|r7 [|r8 rest]]]]]]]];
          cbn [length];
          (split; [intros [_ Hlen]; try lia; reflexivity
                  | intros Hno; try (exfalso; apply Hno; split; [exact E127 | lia]);
                    eexists; reflexivity]).
      * apply Z.eqb_neq in E127. split; [intros [H _]; contradiction|].
        intros _. cbn [bindC]. eexists. reflexivity.
Qed.

(** X3: Where a decoded fragment's fields come from: the flag bits and the
    opcode from the first byte, the mask flag from the top bit of the
    second, and everything after the length field is kept, as the key (at
    most four bytes, only when masked) followed by the payload. The
    declared length plays no part in where the payload ends. *)
Theorem decoded_fragment_layout (frag : list byte) (f : FragmentDetails) :
  fragmentInterpreter host frag = Normal (Some f) ->
  isFinal f = index_and frag 0 128
  /\ opcode f = index_and frag 0 15
  /\ usesMasking f = negb (index_and frag 1 128 =? 0)
  /\ (usesMasking f = false -> maskingKey f = None)
  /\ (length (default [] (maskingKey f)) <= 4)%nat
  /\ default [] (maskingKey f) ++ payload f
     = drop (header_length (index_and frag 1 127)) frag.
Proof.
  unfold fragmentInterpreter, header_length.
  destruct (length frag =? 0)%nat; [discriminate|].
  set (field := index_and frag 1 127).
  assert (Hkey : forall off : nat,
             take 4 (drop off frag) ++ drop (off + 4) frag = drop off frag).
  { intros off. rewrite <- drop_drop. apply take_drop. }
  assert (Hslice : forall off : nat,
             slice frag off (off + 4) = take 4 (drop off frag)).
  { intros off. unfold slice. f_equal. lia. }
  assert (Hfinish : forall (len : LengthValue) (off : nat),
             Normal (Some
               {| isFinal := index_and frag 0 128; rsv1 := index_and frag 0 64;
                  rsv2 := index_and frag 0 32; rsv3 := index_and frag 0 16;
                  opcode := index_and frag 0 15; payloadLength := len;
                  maskingKey := if index_and frag 1 128 =? 0 then None
                                else Some (slice frag off (off + 4));
                  usesMasking := negb (index_and frag 1 128 =? 0);
                  payload := drop (if index_and frag 1 128 =? 0 then off
                                   else (off + 4)%nat) frag |})
             = Normal (Some f) ->
             isFinal f = index_and frag 0 128
             /\ opcode f = index_and frag 0 15
             /\ usesMasking f = negb (index_and frag 1 128 =? 0)
             /\ (usesMasking f = false -> maskingKey f = None)
             /\ (length (default [] (maskingKey f)) <= 4)%nat
             /\ default [] (maskingKey f) ++ payload f = drop off frag).
  { intros len off [= <-]. cbn [isFinal opcode usesMasking maskingKey payload].
    destruct (index_and frag 1 128 =? 0); cbn [negb default].
    - repeat split; cbn; try lia; try discriminate.
    - rewrite Hslice. split; [reflexivity|]. split; [reflexivity|].
      split; [reflexivity|]. split; [discriminate|].
      split; [simpl; rewrite length_take; lia | simpl; apply Hkey]. }
  destruct (field =? 126).
  - cbn [bindC]. apply Hfinish.
  - destruct (field =? 127).
    + destruct (BigUint64Array_of_buffer_first host (slice frag 2 10)) as [len|];
        [|discriminate]. cbn [bindC]. apply Hfinish.
    + cbn [bindC]. apply Hfinish.
Qed.

End Decoder.

(** ** Reassembly and control frames *)

Section Delivery.

Import WsH2Stream.

Variable host : ByteOrder.

Lemma dataListener_pushes (chunk : list byte) (r : option FragmentDetails)
    (c : Channel) :
  fragmentInterpreter host chunk = Normal r ->
  dataListener host chunk c
  = parseFrame (set_fragments (currentFrameFragments c ++ [r]) c).
Proof.
  intros Hdec. unfold dataListener, Js.bind, lift, modify. rewrite Hdec. reflexivity.
Qed.

Lemma unmask_all_defined (fs : list FragmentDetails) :
  unmask_all (Some <$> fs) = Normal (unmask <$> fs).
Proof.
  induction fs as [|f fs IH]; [reflexivity|].
  cbn. rewrite IH. reflexivity.
Qed.

Lemma text_type_test (op : Z) :
  bool_decide (frame_type_of op = "text") = (op =? OPCODES.TEXT).
Proof.
  unfold frame_type_of. destruct (op =? OPCODES.TEXT); [reflexivity|].
  destruct (op =? OPCODES.BINARY); reflexivity.
Qed.

(** The parse step on an accumulator of decoded fragments whose last one
    is final and not a control frame. *)
Lemma parseFrame_delivers (fs : list FragmentDetails) (f : FragmentDetails)
    (c : Channel) :
  isFinal f <> 0 -> opcode f < 8 ->
  currentFrameFragments c = Some <$> (fs ++ [f]) ->
  parseFrame c
  = match logger c with
    | Some lines =>
        (Normal tt,
         delivered (frame_event (opcode (default f (head fs)))
                      (concat (unmask <$> (fs ++ [f])))) lines c)
    | None => (Throw (undefined_read "debug"), c)
    end.
Proof.
  intros Hfin Hop Hfs.
  assert (Hlast : last (Some <$> (fs ++ [f])) = Some (Some f))
    by (rewrite fmap_app; apply last_snoc).
  assert (Hfirst : (Some <$> (fs ++ [f])) !! 0%nat
                   = Some (Some (default f (head fs))))
    by (destruct fs; reflexivity).
  assert (Hdata : (8 <=? opcode f) = false) by (apply Z.leb_gt; exact Hop).
  apply Z.eqb_neq in Hfin.
  unfold parseFrame, Js.bind, gets. rewrite Hfs, Hlast, Hfirst.
  cbn [default from_option id]. rewrite Hfin, Hdata, unmask_all_defined.
  unfold lift, log, emit, modify, set_fragments, delivered, frame_event.
  destruct (logger c) as [lines|]; [|reflexivity].
  rewrite text_type_test. reflexivity.
Qed.

(** X4: Reassembly: when the fragment that arrives is final and not a
    control frame, and the accumulator holds decoded fragments, a channel
    that was given a logger emits one frame event. Its opcode is that of
    the first fragment, its payload the unmasked payloads of all
    fragments in arrival order; one line is logged, the accumulator is
    emptied and nothing is written to the stream. A channel without a
    logger throws at the log line instead: no event is emitted and the
    fragments, the new one included, stay in the accumulator. *)
Theorem final_fragment_delivers_message (chunk : list byte)
    (earlier : list FragmentDetails) (f : FragmentDetails) (c : Channel) :
  fragmentInterpreter host chunk = Normal (Some f) ->
  isFinal f <> 0 -> opcode f < 8 ->
  currentFrameFragments c = Some <$> earlier ->
  dataListener host chunk c
  = match logger c with
    | Some lines =>
        (Normal tt,
         delivered (frame_event (opcode (default f (head earlier)))
                      (concat (unmask <$> (earlier ++ [f])))) lines c)
    | None =>
        (Throw (undefined_read "debug"),
         set_fragments (currentFrameFragments c ++ [Some f]) c)
    end.
Proof.
  intros Hdec Hfin Hop Hfs.
  rewrite (dataListener_pushes chunk (Some f) c Hdec).
  rewrite (parseFrame_delivers earlier f _ Hfin Hop).
  - cbn [set_fragments logger]. destruct (logger c); reflexivity.
  - cbn. rewrite Hfs, fmap_app. reflexivity.
Qed.

(** X5: Suspension: a fragment that is not final is appended to the
    accumulator and nothing else happens, whatever the accumulator holds:
    no event, no write, no log line. *)
Theorem non_final_fragment_is_kept (chunk : list byte) (f : FragmentDetails)
    (c : Channel) :
  fragmentInterpreter host chunk = Normal (Some f) ->
  isFinal f = 0 ->
  dataListener host chunk c
  = (Normal tt, set_fragments (currentFrameFragments c ++ [Some f]) c).
Proof.
  intros Hdec Hfin.
  rewrite (dataListener_pushes chunk (Some f) c Hdec).
  unfold parseFrame, Js.bind, gets, ret. cbn [set_fragments currentFrameFragments].
  rewrite last_snoc. cbn [default from_option id]. rewrite Hfin. reflexivity.
Qed.

(** The channel after a control frame was handled and popped. *)
Lemma pop_after_push (fs : list (option FragmentDetails)) (f : option FragmentDetails) :
  removelast (fs ++ [f]) = fs.
Proof. apply removelast_last. Qed.

(** X6: A final Close frame, or a final control frame with an opcode the
    channel does not know, makes a channel that was given a logger end
    the stream once; the fragment is taken out again, so the accumulator
    is what it was, and no event is emitted. A channel without a logger
    throws at the log line instead: the stream is not ended and the
    fragment stays in the accumulator. *)
Theorem close_frame_ends_stream (chunk : list byte) (f : FragmentDetails)
    (c : Channel) :
  fragmentInterpreter host chunk = Normal (Some f) ->
  isFinal f <> 0 -> 8 <= opcode f ->
  opcode f <> OPCODES.PING -> opcode f <> OPCODES.PONG ->
  dataListener host chunk c
  = match logger c with
    | Some lines =>
        (Normal tt,
         {| currentFrameFragments := currentFrameFragments c;
            logger := Some (lines ++ [if opcode f =? OPCODES.CLOSE
                                      then "Close frame received."
                                      else "Unknown opcode"]);
            written := written c;
            endCalls := S (endCalls c);
            emitted := emitted c |})
    | None =>
        (Throw (undefined_read (if opcode f =? OPCODES.CLOSE then "debug"
                                else "error")),
         set_fragments (currentFrameFragments c ++ [Some f]) c)
    end.
Proof.
  intros Hdec Hfin Hctl Hping Hpong.
  rewrite (dataListener_pushes chunk (Some f) c Hdec).
  unfold parseFrame, Js.bind at 1 2, gets. cbn [set_fragments currentFrameFragments].
  rewrite last_snoc. cbn [default from_option id].
  apply Z.eqb_neq in Hfin, Hping, Hpong. rewrite Hfin, Hping, Hpong.
  apply Z.leb_le in Hctl. rewrite Hctl.
  unfold Js.bind, log, stream_end, modify, set_fragments.
  cbn [logger currentFrameFragments written endCalls emitted].
  destruct (logger c) as [lines|];
    destruct (opcode f =? OPCODES.CLOSE);
    cbn [logger currentFrameFragments written endCalls emitted];
    rewrite ?pop_after_push; reflexivity.
Qed.

(** X7: A final Pong frame is surfaced by a channel that was given a
    logger as one pong event carrying the frame's payload as received;
    the fragment is taken out again and nothing is written. A channel
    without a logger throws at the log line instead: no event is emitted
    and the fragment stays in the accumulator. *)
Theorem pong_frame_is_surfaced (chunk : list byte) (f : FragmentDetails)
    (c : Channel) :
  fragmentInterpreter host chunk = Normal (Some f) ->
  isFinal f <> 0 -> opcode f = OPCODES.PONG ->
  dataListener host chunk c
  = match logger c with
    | Some lines =>
        (Normal tt,
         {| currentFrameFragments := currentFrameFragments c;
            logger := Some (lines ++ ["Pong received."]);
            written := written c;
            endCalls := endCalls c;
            emitted := emitted c ++ [EvPong (payload f)] |})
    | None =>
        (Throw (undefined_read "debug"),
         set_fragments (currentFrameFragments c ++ [Some f]) c)
    end.
Proof.
  intros Hdec Hfin Hop.
  rewrite (dataListener_pushes chunk (Some f) c Hdec).
  unfold parseFrame, Js.bind at 1 2, gets. cbn [set_fragments currentFrameFragments].
  rewrite last_snoc. cbn [default from_option id].
  apply Z.eqb_neq in Hfin. rewrite Hfin, Hop.
  change (8 <=? OPCODES.PONG) with true.
  change (OPCODES.PONG =? OPCODES.CLOSE) with false.
  change (OPCODES.PONG =? OPCODES.PING) with false.
  change (OPCODES.PONG =? OPCODES.PONG) with true. cbv iota.
  unfold Js.bind, log, emit, modify, set_fragments.
  cbn [logger currentFrameFragments written endCalls emitted].
  destruct (logger c) as [lines|]; [|reflexivity].
  cbn [logger currentFrameFragments written endCalls emitted].
  rewrite pop_after_push. reflexivity.
Qed.

End Delivery.

(** ** What the channel can send *)

Section Sending.

Import WsH2Stream.

(** X8: Whatever [#sendFrame] is asked to send, it writes at most one chunk;
    what it writes is the payload behind a header of two or three bytes
    with the final bit set, the reserved bits clear, the opcode asked for
    (Text or Binary) and the mask bit clear. *)
Theorem sendFrame_writes_one_unmasked_final_frame (options : FrameOptions)
    (c : Channel) :
  written (snd (sendFrame options c)) = written c
  \/ exists header data,
      written (snd (sendFrame options c)) = written c ++ [header ++ data]
      /\ fst (sendFrame options c) = Normal tt
      /\ opt_payload options = Some data
      /\ data_opcode (opt_opcode options)
      /\ (length header = 2 \/ length header = 3)%nat
      /\ index_and header 0 128 = 128
      /\ index_and header 0 112 = 0
      /\ index_and header 0 15 = opt_opcode options
      /\ index_and header 1 128 = 0.
Proof.
  destruct options as [op pl].
  destruct (Z.eq_dec op OPCODES.TEXT) as [Ht|Ht];
    [|destruct (Z.eq_dec op OPCODES.BINARY) as [Hb|Hb]].
  3:{ left. unfold sendFrame, Js.bind, lift, ret. cbn [opt_opcode opt_payload].
      apply Z.eqb_neq in Ht, Hb. rewrite Ht, Hb. cbn [orb].
      rewrite !public_OPCODES_undefined.
      destruct (op =? OPCODES.CLOSE), (op =? OPCODES.PING), (op =? OPCODES.PONG);
        reflexivity. }
  all: assert (Hop : data_opcode op) by (unfold data_opcode; tauto).
  all: destruct pl as [data|];
    [|left; subst op; reflexivity].
  all: destruct (Z.lt_ge_cases (Z.of_nat (length data)) 126) as [Hs|Hm].
  1,3: right;
    exists [to_uint8 (Z.lor 128 op); to_uint8 (Z.of_nat (length data))], data;
    rewrite sendFrame_short by (assumption || lia);
    destruct (short_length_bits (length data) ltac:(lia)) as [_ H128];
    unfold index_and; cbn [lookup list_lookup from_option];
    rewrite (byte_val_to_uint8 (Z.of_nat (length data))) by lia;
    subst op; repeat split; auto.
  all: destruct (Z.lt_ge_cases (Z.of_nat (length data)) 65536) as [Hmed|Hlong].
  1,3: right;
    exists [to_uint8 (Z.lor 128 op); x7e;
            to_uint8 (Z.of_nat (length data) mod 65536)], data;
    rewrite sendFrame_medium by (assumption || lia);
    subst op; repeat split; auto.
  all: left; rewrite sendFrame_long by (assumption || lia); reflexivity.
Qed.

(** X9: Of the send operations only [sendText] can put a frame on the
    stream: [ping()], [pong()] and [sendBinary(data)] throw for every
    channel and every argument, and leave the channel as it was. *)
Theorem control_and_binary_senders_throw (c : Channel) (data : Binary.Argument) :
  (exists e, ping c = (Throw e, c))
  /\ (exists e, pong c = (Throw e, c))
  /\ (exists e, Binary.sendBinary data c = (Throw e, c)).
Proof.
  split; [|split].
  - eexists. apply pong_throws.
  - eexists. apply pong_throws.
  - destruct data; eexists; reflexivity.
Qed.

Variable host : ByteOrder.

(** X10: A text of fewer than 126 bytes sent by one channel is written
    as one chunk. The data listener of a channel with an empty
    accumulator that receives this chunk decodes the frame that was sent;
    when that channel was given a logger it delivers one frame event of
    type text with the same bytes, and without a logger it throws at the
    log line, with the decoded fragment left in the accumulator and no
    event. *)
Theorem short_text_reaches_peer (data : list byte) (sender peer : Channel) :
  (length data < 126)%nat ->
  currentFrameFragments peer = [] ->
  exists wire,
    sendText data sender = (Normal tt, wrote wire sender)
    /\ dataListener host wire peer
       = match logger peer with
         | Some lines =>
             (Normal tt, delivered (frame_event OPCODES.TEXT data) lines peer)
         | None =>
             (Throw (undefined_read "debug"),
              set_fragments [Some (plain_frame OPCODES.TEXT data)] peer)
         end.
Proof.
  intros Hlen Hempty.
  assert (Hop : data_opcode OPCODES.TEXT) by (left; reflexivity).
  eexists. split; [apply (sendFrame_short OPCODES.TEXT data sender Hop Hlen)|].
  rewrite (dataListener_pushes host _ _ peer
             (fragmentInterpreter_short host OPCODES.TEXT data Hop Hlen)).
  rewrite (parseFrame_delivers [] (plain_frame OPCODES.TEXT data)).
  - cbn [app fmap list_fmap unmask plain_frame usesMasking payload concat head
         default from_option id opcode set_fragments logger].
    rewrite app_nil_r, Hempty. destruct (logger peer); reflexivity.
  - discriminate.
  - reflexivity.
  - cbn. rewrite Hempty. reflexivity.
Qed.

End Sending.

(** ** Concatenating typed arrays *)

Section Concatenation.

Import TypedArrays.

Variable Value : Type.
Variable convert : Kind -> Value -> Value.
Variable zero : Kind -> Value.

Lemma total_length (arrays : list (TypedArray Value)) (n : nat) :
  foldl (fun acc array => (acc + length (elements array))%nat) n arrays
  = (n + length (concat (elements <$> arrays)))%nat.
Proof.
  revert n. induction arrays as [|array arrays IH]; intros n;
    cbn [foldl fmap list_fmap concat].
  - cbn [length]. lia.
  - rewrite IH, length_app. lia.
Qed.

(** Writing [array] right behind the part already filled. *)
Lemma set_behind (species : Kind) (filled padding : list Value)
    (array : TypedArray Value) :
  is_bigint (kind array) = is_bigint species ->
  (length (elements array) <= length padding)%nat ->
  set Value convert {| kind := species; elements := filled ++ padding |} array
      (length filled)
  = Normal {| kind := species;
              elements := (filled ++ (store Value convert (kind array) species
                                        <$> elements array))
                          ++ drop (length (elements array)) padding |}.
Proof.
  intros Hcontent Hfit. unfold set. cbn [kind elements].
  rewrite Hcontent, Bool.eqb_reflx. cbn [negb].
  assert (Hle : (length filled + length (elements array)
                 <=? length (filled ++ padding))%nat = true)
    by (apply Nat.leb_le; rewrite length_app; lia).
  rewrite Hle. do 2 f_equal.
  rewrite take_app_length, drop_app_ge by lia.
  rewrite <- app_assoc. do 2 f_equal. f_equal. lia.
Qed.

(** Once the loop has thrown, the remaining arrays change nothing. *)
Lemma fill_thrown (e : Error) (arrays : list (TypedArray Value)) :
  foldl (fun state array =>
           bindC state (fun '(result, offset) =>
             bindC (set Value convert result array offset) (fun result =>
               Normal (result, (offset + length (elements array))%nat))))
        (Throw e) arrays
  = Throw e.
Proof. induction arrays as [|array arrays IH]; [reflexivity|]. exact IH. Qed.

Lemma fill_from (species : Kind) (arrays : list (TypedArray Value))
    (filled padding : list Value) :
  length padding = length (concat (elements <$> arrays)) ->
  foldl (fun state array =>
           bindC state (fun '(result, offset) =>
             bindC (set Value convert result array offset) (fun result =>
               Normal (result, (offset + length (elements array))%nat))))
        (Normal ({| kind := species; elements := filled ++ padding |},
                 length filled)) arrays
  = if forallb (fun array => Bool.eqb (is_bigint (kind array)) (is_bigint species))
               arrays
    then Normal ({| kind := species;
                    elements :=
                      filled ++ concat ((fun array =>
                                           store Value convert (kind array) species
                                             <$> elements array) <$> arrays) |},
                 (length filled + length (concat (elements <$> arrays)))%nat)
    else Throw (TypeError "Cannot mix BigInt and other types, use explicit conversions").
Proof.
  revert filled padding.
  induction arrays as [|array arrays IH]; intros filled padding Hlen.
  - cbn in *. apply nil_length_inv in Hlen. subst padding.
    rewrite Nat.add_0_r. reflexivity.
  - cbn [foldl fmap list_fmap concat bindC forallb] in *.
    rewrite length_app in Hlen.
    destruct (Bool.eqb (is_bigint (kind array)) (is_bigint species)) eqn:Hcontent.
    + apply Bool.eqb_prop in Hcontent.
      rewrite set_behind by (assumption || lia). cbn [bindC andb].
      replace (length filled + length (elements array))%nat
        with (length (filled ++ (store Value convert (kind array) species
                                   <$> elements array)))
        by (rewrite length_app, length_fmap; reflexivity).
      rewrite IH by (rewrite length_drop; lia).
      destruct (forallb _ arrays); [|reflexivity].
      rewrite !length_app, length_fmap, <- app_assoc. do 2 f_equal. lia.
    + unfold set at 2. cbn [kind elements].
      replace (Bool.eqb (is_bigint species) (is_bigint (kind array))) with false
        by (destruct (is_bigint species), (is_bigint (kind array));
            (reflexivity || discriminate)).
      cbn [negb bindC andb].
      apply fill_thrown.
Qed.

Lemma stored_same_kind (species : Kind) (arrays : list (TypedArray Value)) :
  Forall (fun array => kind array = species) arrays ->
  concat ((fun array => store Value convert (kind array) species <$> elements array)
            <$> arrays)
  = concat (elements <$> arrays).
Proof.
  induction 1 as [|array rest Hk Hrest IH]; [reflexivity|].
  cbn [fmap list_fmap concat]. rewrite IH. f_equal.
  unfold store. rewrite Hk, bool_decide_eq_true_2 by reflexivity.
  apply list_fmap_id.
Qed.

(** X11: [concatTypedArrays] throws exactly when one of the arrays has
    another content type than the result (a BigInt array among Number
    arrays or the other way round); the error is the TypeError of [set].
    Otherwise it returns an array of the species asked for (a
    [Uint8Array] when none is given) that holds the elements of the
    arrays one after the other, each converted to the species unless its
    array is of that species already: the new array is overwritten
    completely and no [set] is out of bounds. For arrays of the species
    itself the result is their plain concatenation. *)
Theorem concatTypedArrays_is_concatenation (arrays : list (TypedArray Value))
    (arraySpecies : option Kind) :
  let species := default Uint8Array arraySpecies in
  concatTypedArrays Value convert zero arrays arraySpecies
  = (if forallb (fun array => Bool.eqb (is_bigint (kind array)) (is_bigint species))
                arrays
     then Normal {| kind := species;
                    elements :=
                      concat ((fun array =>
                                 store Value convert (kind array) species
                                   <$> elements array) <$> arrays) |}
     else Throw (TypeError "Cannot mix BigInt and other types, use explicit conversions"))
  /\ (Forall (fun array => kind array = species) arrays ->
      concatTypedArrays Value convert zero arrays arraySpecies
      = Normal {| kind := species; elements := concat (elements <$> arrays) |}).
Proof.
  intros species.
  assert (Hall : concatTypedArrays Value convert zero arrays arraySpecies
                 = if forallb (fun array => Bool.eqb (is_bigint (kind array))
                                                     (is_bigint species)) arrays
                   then Normal {| kind := species;
                                  elements :=
                                    concat ((fun array =>
                                               store Value convert (kind array) species
                                                 <$> elements array) <$> arrays) |}
                   else Throw (TypeError "Cannot mix BigInt and other types, use explicit conversions")).
  { unfold concatTypedArrays. fold species. rewrite total_length. cbn [Nat.add].
    pose proof (fill_from species arrays []
                  (replicate (length (concat (elements <$> arrays))) (zero species))
                  (length_replicate _ _)) as Hfill.
    cbn [app length Nat.add] in Hfill. unfold new. rewrite Hfill.
    destruct (forallb _ arrays); reflexivity. }
  split; [exact Hall|].
  intros Hsame. rewrite Hall.
  assert (Hok : forallb (fun array => Bool.eqb (is_bigint (kind array))
                                               (is_bigint species)) arrays = true).
  { apply forallb_forall. intros array Hin.
    rewrite Forall_forall in Hsame. apply list_elem_of_In in Hin.
    rewrite (Hsame array Hin). apply Bool.eqb_reflx. }
  rewrite Hok, (stored_same_kind species arrays Hsame). reflexivity.
Qed.

End Concatenation.

(** ** The order of calls on a plain stream *)

Section PlainStream.

Import H2Stream.

Lemma well_ordered_construct (options_logger : option (list string)) :
  well_ordered (construct options_logger).
Proof. unfold well_ordered. cbn. constructor. Qed.

Lemma well_ordered_use (s : State) (u : Use) :
  well_ordered s -> well_ordered (use s u).
Proof.
  unfold well_ordered, use. intros Hs.
  destruct u as [headers options | data | endStatus].
  - unfold respond, Js.bind, gets.
    destruct (sentHeaders s) as [sent|] eqn:Hsent.
    + assert (Hsame : forall r : Completion unit * State,
                 sentHeaders (snd r) = sentHeaders s -> calls (snd r) = calls s ->
                 match sentHeaders (snd r) with
                 | None => Forall is_bare (calls (snd r))
                 | Some h =>
                     exists trailers before after,
                       calls (snd r) = before ++ CallRespond (Some h) trailers :: after
                       /\ Forall is_bare before
                       /\ Forall (fun call => ~ is_respond call) after
                 end).
      { intros r -> ->. rewrite Hsent. exact Hs. }
      destruct (bool_decide (errorProtocol s = "throw")).
      * apply Hsame; reflexivity.
      * unfold logger_error. destruct (logger s); apply Hsame; reflexivity.
    + unfold end_, Js.bind, stream_call, modify, ret.
      destruct headers as [headers|];
        destruct (from_option endStream false options);
        cbn [snd sentHeaders calls].
      * exists (from_option waitForTrailers false options), (calls s), [CallEnd None].
        rewrite <- app_assoc. split; [reflexivity|]. split; [exact Hs|].
        constructor; [|constructor]. cbn. tauto.
      * exists (from_option waitForTrailers false options), (calls s), [].
        split; [reflexivity|]. split; [exact Hs | constructor].
      * repeat (apply Forall_app; split); try exact Hs;
          (constructor; [exact I|constructor]).
      * apply Forall_app. split; [exact Hs|]. constructor; [exact I|constructor].
  - unfold sendData, Js.bind, gets.
    destruct (sentHeaders s) as [sent|] eqn:Hsent; cbn [snd throw].
    + unfold stream_call, modify. cbn [snd sentHeaders calls]. rewrite Hsent.
      destruct Hs as (trailers & before & after & Hcalls & Hbefore & Hafter).
      exists trailers, before, (after ++ [CallWrite data]).
      rewrite Hcalls, <- app_assoc. split; [reflexivity|]. split; [exact Hbefore|].
      apply Forall_app. split; [exact Hafter|]. constructor; [|constructor].
      cbn. tauto.
    + rewrite Hsent. exact Hs.
  - unfold end_, Js.bind, modify, stream_call, modify. cbn [snd sentHeaders calls].
    destruct (sentHeaders s) as [sent|] eqn:Hsent.
    + destruct Hs as (trailers & before & after & Hcalls & Hbefore & Hafter).
      exists trailers, before, (after ++ [CallEnd endStatus]).
      rewrite Hcalls, <- app_assoc. split; [reflexivity|]. split; [exact Hbefore|].
      apply Forall_app. split; [exact Hafter|]. constructor; [|constructor].
      cbn. tauto.
    + apply Forall_app. split; [exact Hs|]. constructor; [|constructor].
      exact I.
Qed.

(** X12: However [respond] (with or without a headers object),
    [sendData] and [end] are called on a stream, in whatever order and
    however often, no data is written to the underlying stream before a
    [respond] that carried headers; once a [respond] carried headers,
    these are the headers the stream remembers, and no further [respond]
    reaches the underlying stream. A [respond] without headers is not
    remembered: until one carries headers the underlying stream sees only
    [end] calls and such [respond] calls, any number of them. *)
Theorem plain_stream_calls_are_ordered (options_logger : option (list string))
    (uses : list Use) :
  well_ordered (foldl use (construct options_logger) uses).
Proof.
  generalize (well_ordered_construct options_logger).
  generalize (construct options_logger) as s.
  induction uses as [|u uses IH]; intros s Hs; [exact Hs|].
  cbn [foldl]. apply IH, well_ordered_use, Hs.
Qed.

End PlainStream.

(** ** The not-found handler *)

Section NotFound.

Import H2Stream NotFoundHandler.

(** X13: What the handler does without a filter. A stream without sent
    headers whose underlying stream is open and has not answered is
    answered with status 404 and ended. When the underlying stream is
    closed, destroyed or has answered already, that [respond] throws: the
    wrapper is left remembering the 404 headers and is not ended. A
    stream that has sent headers keeps them and sees no further
    [respond]; [end] is called on it, with REFUSED_STREAM, exactly when
    [closeOpenStreams] is set and neither the wrapper nor the underlying
    stream is closed, and otherwise nothing happens at all. *)
Theorem notFoundHandler_answers_once (config : Config)
    (incomingHeaders : gmap string string) (raw : Raw) (s : State) :
  filter config = None ->
  (sentHeaders s = None ->
   rawClosed raw = false -> rawHeadersSent raw = false ->
   notFoundHandler config incomingHeaders raw s
   = (Normal tt,
      {| sentHeaders := Some not_found_headers;
         closed := true; errorProtocol := errorProtocol s; logger := logger s;
         calls := calls s
                    ++ [CallRespond (Some not_found_headers) false;
                        CallEnd None] |}))
  /\ (sentHeaders s = None ->
      rawClosed raw = true \/ rawHeadersSent raw = true ->
      exists e,
        notFoundHandler config incomingHeaders raw s
        = (Throw e,
           {| sentHeaders := Some not_found_headers;
              closed := closed s; errorProtocol := errorProtocol s;
              logger := logger s;
              calls := calls s ++ [CallRespond (Some not_found_headers) false] |}))
  /\ (forall sent, sentHeaders s = Some sent ->
      let s' := snd (notFoundHandler config incomingHeaders raw s) in
      if closeOpenStreams config && negb (closed s || rawClosed raw)
      then sentHeaders s' = Some sent /\ closed s' = true
           /\ calls s'
              = calls s ++ [CallEnd (Some H2Session.NGHTTP2_REFUSED_STREAM)]
      else notFoundHandler config incomingHeaders raw s = (Normal tt, s)).
Proof.
  intros Hfilter. destruct config as [f header closeOpen]. cbn in Hfilter. subst f.
  destruct s as [sent isClosed protocol lg cs]. cbn [sentHeaders closed calls].
  destruct raw as [rc rh]. cbn [rawClosed rawHeadersSent].
  split; [|split].
  - intros -> -> ->.
    unfold notFoundHandler, respond_and_end, Js.bind, ret, gets, respond, Js.bind,
      gets, end_, stream_call, modify, Js.bind. cbn. rewrite <- app_assoc.
    reflexivity.
  - intros -> Hraw.
    unfold notFoundHandler, respond_and_end, Js.bind, ret, gets, throw, stream_call,
      modify. cbn [filter rawClosed rawHeadersSent negb sentHeaders closed
                   errorProtocol logger calls fst snd].
    destruct Hraw as [-> | ->]; [|rewrite orb_true_r];
      cbn [orb]; eexists; reflexivity.
  - intros sent' ->.
    unfold notFoundHandler, Js.bind, ret, gets, closed_getter, end_, stream_call,
      modify, Js.bind. cbn.
    destruct closeOpen, isClosed, rc; cbn; try reflexivity.
    repeat split.
Qed.

End NotFound.

(** ** Categorising incoming streams *)

(** The upgrade response carries status OK whatever was asked for. *)
Lemma handshake_status (acceptedProtocols : list string)
    (incomingHeaders : gmap string string) :
  snd (WsH2Stream.handshake acceptedProtocols incomingHeaders)
    !! WsH2Stream.HTTP2_HEADER_STATUS
  = Some (WsH2Stream.HNum WsH2Stream.HTTP_STATUS_OK).
Proof.
  assert (Hkeys : WsH2Stream.HTTP2_HEADER_WS_PROTO <> WsH2Stream.HTTP2_HEADER_STATUS)
    by discriminate.
  unfold WsH2Stream.handshake. cbn [snd].
  destruct (incomingHeaders !! WsH2Stream.HTTP2_HEADER_WS_PROTO) as [value|];
    [destruct (WsH2Stream.truthy value)|]; cbn [fmap option_fmap option_map];
    try (destruct (filter _ _)); simplify_map_eq; reflexivity.
Qed.

Section Session.

Import H2Session.

Variable acceptedProtocols : list string.

Lemma added_effects (stream : nat) (headers : gmap string string) (s : State)
    (tail : list Effect) :
  effects (streamListener acceptedProtocols stream headers s) = effects s ++ tail ->
  added acceptedProtocols stream headers s = tail.
Proof.
  intros H. unfold added. rewrite H. apply drop_app_length.
Qed.

(** X14: What the session does with an incoming stream. A request that is not
    a CONNECT is wrapped, registered and announced without any answer on
    the raw stream. A websocket CONNECT is wrapped, registered and
    announced after exactly one answer, with status 200. Any other
    CONNECT is neither registered nor announced: the first answer on the
    raw stream has status 501 and ends the stream, and the first close
    carries REFUSED_STREAM (the listener's own repeat of the two calls
    comes after [categorise] has made them). *)
Theorem session_stream_outcomes (stream : nat) (headers : gmap string string)
    (s : State) :
  let s' := streamListener acceptedProtocols stream headers s in
  let new := added acceptedProtocols stream headers s in
  (headers !! HTTP2_HEADER_METHOD <> Some "CONNECT" ->
   streams s' = <[ stream := Plain ]> (streams s)
   /\ filter is_raw_respond new = []
   /\ last new = Some (EmitStream Plain))
  /\ (headers !! HTTP2_HEADER_METHOD = Some "CONNECT" ->
      headers !! HTTP2_HEADER_PROTOCOL = Some "websocket" ->
      exists requested response,
        streams s' = <[ stream := Ws requested ]> (streams s)
        /\ filter is_raw_respond new = [RawRespond response false]
        /\ response !! WsH2Stream.HTTP2_HEADER_STATUS
           = Some (WsH2Stream.HNum WsH2Stream.HTTP_STATUS_OK)
        /\ filter is_raw_close new = []
        /\ last new = Some (EmitStream (Ws requested)))
  /\ (headers !! HTTP2_HEADER_METHOD = Some "CONNECT" ->
      headers !! HTTP2_HEADER_PROTOCOL <> Some "websocket" ->
      streams s' = streams s
      /\ head (filter is_raw_respond new)
         = Some (RawRespond {[ WsH2Stream.HTTP2_HEADER_STATUS :=
                                 WsH2Stream.HNum HTTP_STATUS_NOT_IMPLEMENTED ]} true)
      /\ head (filter is_raw_close new) = Some (RawClose NGHTTP2_REFUSED_STREAM)
      /\ filter is_emit new = []).
Proof.
  cbv zeta. split; [|split].
  - intros Hm.
    assert (E : effects (streamListener acceptedProtocols stream headers s)
                = effects s ++ [Logged "debug" "Stream Initiated with headers";
                                RawOn "close"; RawOn "error"; EmitStream Plain]).
    { unfold streamListener, categorise.
      rewrite bool_decide_eq_false_2 by exact Hm. cbn. rewrite <- app_assoc.
      reflexivity. }
    rewrite (added_effects _ _ _ _ E).
    unfold streamListener, categorise.
    rewrite bool_decide_eq_false_2 by exact Hm. repeat split.
  - intros Hm Hp.
    destruct (WsH2Stream.handshake acceptedProtocols headers)
      as [requested response] eqn:Hhs.
    exists requested, response.
    assert (E : effects (streamListener acceptedProtocols stream headers s)
                = effects s ++ [Logged "debug" "Stream Initiated with headers";
                                RawRespond response false;
                                RawOn "data"; RawOn "end"; RawOn "error";
                                RawOn "close"; RawOn "error";
                                EmitStream (Ws requested)]).
    { unfold streamListener, categorise, new_WsH2Stream.
      rewrite !bool_decide_eq_true_2 by assumption. rewrite Hhs.
      cbn. rewrite <- !app_assoc. reflexivity. }
    rewrite (added_effects _ _ _ _ E).
    unfold streamListener, categorise, new_WsH2Stream.
    rewrite !bool_decide_eq_true_2 by assumption. rewrite Hhs.
    split; [reflexivity|]. split; [reflexivity|]. split; [|split; reflexivity].
    pose proof (handshake_status acceptedProtocols headers) as Hstatus.
    rewrite Hhs in Hstatus. exact Hstatus.
  - intros Hm Hp.
    destruct (bool_decide (headers !! HTTP2_HEADER_PROTOCOL = Some "webtransport"))
      eqn:Hwt.
    + assert (E : effects (streamListener acceptedProtocols stream headers s)
                  = effects s
                      ++ [Logged "debug" "Stream Initiated with headers";
                          Logged "error" "WebTransport not implemented.";
                          RawRespond {[ WsH2Stream.HTTP2_HEADER_STATUS :=
                                          WsH2Stream.HNum HTTP_STATUS_NOT_IMPLEMENTED ]}
                            true;
                          RawClose NGHTTP2_REFUSED_STREAM;
                          Logged "warn" "Stream not handled.";
                          RawRespond {[ WsH2Stream.HTTP2_HEADER_STATUS :=
                                          WsH2Stream.HNum HTTP_STATUS_NOT_IMPLEMENTED ]}
                            false;
                          RawClose NGHTTP2_REFUSED_STREAM]).
      { unfold streamListener, categorise.
        rewrite bool_decide_eq_true_2 by assumption.
        rewrite bool_decide_eq_false_2 by assumption. rewrite Hwt.
        cbn. rewrite <- !app_assoc. reflexivity. }
      rewrite (added_effects _ _ _ _ E).
      unfold streamListener, categorise.
      rewrite bool_decide_eq_true_2 by assumption.
      rewrite bool_decide_eq_false_2 by assumption. rewrite Hwt.
      repeat split.
    + assert (E : effects (streamListener acceptedProtocols stream headers s)
                  = effects s
                      ++ [Logged "debug" "Stream Initiated with headers";
                          RawRespond {[ WsH2Stream.HTTP2_HEADER_STATUS :=
                                          WsH2Stream.HNum HTTP_STATUS_NOT_IMPLEMENTED ]}
                            true;
                          RawClose NGHTTP2_REFUSED_STREAM;
                          Logged "warn" "Stream not handled.";
                          RawRespond {[ WsH2Stream.HTTP2_HEADER_STATUS :=
                                          WsH2Stream.HNum HTTP_STATUS_NOT_IMPLEMENTED ]}
                            false;
                          RawClose NGHTTP2_REFUSED_STREAM]).
      { unfold streamListener, categorise.
        rewrite bool_decide_eq_true_2 by assumption.
        rewrite bool_decide_eq_false_2 by assumption. rewrite Hwt.
        cbn. rewrite <- !app_assoc. reflexivity. }
      rewrite (added_effects _ _ _ _ E).
      unfold streamListener, categorise.
      rewrite bool_decide_eq_true_2 by assumption.
      rewrite bool_decide_eq_false_2 by assumption. rewrite Hwt.
      repeat split.
Qed.

(** X15: The close of a raw stream undoes what its arrival did to [#streams],
    for a raw stream that was not registered before. *)
Theorem stream_close_undoes_arrival (stream : nat) (headers : gmap string string)
    (s : State) :
  streams s !! stream = None ->
  streams (streamCloseListener stream
             (streamListener acceptedProtocols stream headers s))
  = streams s.
Proof.
  intros Hfresh. unfold streamCloseListener, streamListener.
  destruct (categorise acceptedProtocols headers) as [[wrapper|] made];
    cbn [streams].
  - apply delete_insert_id; exact Hfresh.
  - apply delete_id; exact Hfresh.
Qed.

End Session.

(** ** The console logger *)

Section Logging.

Import ConsoleLogger.

Lemma index_below_downward (n : Number) (j k : nat) :
  (k <= j)%nat -> index_below j n = true -> index_below k n = true.
Proof.
  destruct n as [num den| | |]; cbn; try (intros; assumption).
  intros Hkj Hj. apply Z.ltb_lt in Hj. apply Z.ltb_lt. nia.
Qed.

(** What a level index that passed the checks silences. *)
Lemma silenced_prefix (n : Number) :
  exists threshold : nat,
    forall j : nat, (j < 6)%nat -> negb (index_below j n) = (threshold <=? j)%nat.
Proof.
  pose proof (index_below_downward n 1 0 ltac:(lia)) as H10.
  pose proof (index_below_downward n 2 1 ltac:(lia)) as H21.
  pose proof (index_below_downward n 3 2 ltac:(lia)) as H32.
  pose proof (index_below_downward n 4 3 ltac:(lia)) as H43.
  pose proof (index_below_downward n 5 4 ltac:(lia)) as H54.
  destruct (index_below 0 n) eqn:B0, (index_below 1 n) eqn:B1,
    (index_below 2 n) eqn:B2, (index_below 3 n) eqn:B3,
    (index_below 4 n) eqn:B4, (index_below 5 n) eqn:B5;
    try (specialize (H10 eq_refl); discriminate H10);
    try (specialize (H21 eq_refl); discriminate H21);
    try (specialize (H32 eq_refl); discriminate H32);
    try (specialize (H43 eq_refl); discriminate H43);
    try (specialize (H54 eq_refl); discriminate H54).
  1: exists 6%nat. 2: exists 5%nat. 3: exists 4%nat. 4: exists 3%nat.
  5: exists 2%nat. 6: exists 1%nat. 7: exists 0%nat.
  all: intros j Hj;
    destruct j as [|[|[|[|[|[|j]]]]]]; try lia;
    rewrite ?B0, ?B1, ?B2, ?B3, ?B4, ?B5; reflexivity.
Qed.

Lemma prints_position (levelIndex : Number) (j : nat) (name : string) :
  levels !! j = Some name ->
  prints (imap (fun index name => (name, negb (index_below index levelIndex))) levels)
         name
  = Some (negb (index_below j levelIndex)).
Proof.
  intros Hj.
  destruct j as [|[|[|[|[|[|j]]]]]]; cbn in Hj; try discriminate Hj;
    injection Hj as <-; reflexivity.
Qed.

(** X16: Whenever [getConsoleLogger] returns a logger, that logger has all
    six methods and a threshold in the order debug, info, warn, error,
    log, mandatory: the methods before the threshold are silenced, the
    ones from it on print. For a level given by name the threshold is the
    position of that name (so level "log" silences [error]); without a
    level nothing is silenced. *)
Theorem logger_has_a_threshold (level : Level) (logger : Logger) :
  getConsoleLogger level = Normal logger ->
  exists threshold : nat,
    (forall (j : nat) (name : string),
        levels !! j = Some name ->
        prints logger name = Some (threshold <=? j)%nat)
    /\ (forall s, level = LevelString s -> indexOf s levels = Some threshold)
    /\ (level = LevelOther -> threshold = 0%nat).
Proof.
  unfold getConsoleLogger.
  assert (Hbound : forall (j : nat) (name : string),
             levels !! j = Some name -> (j < 6)%nat).
  { intros j name Hj. apply lookup_lt_Some in Hj. exact Hj. }
  destruct level as [n | s |].
  - destruct (below_zero n || at_least n (length levels)); [discriminate|].
    cbn [bindC]. intros [= <-].
    destruct (silenced_prefix n) as [threshold Ht].
    exists threshold. split; [|split; discriminate].
    intros j name Hj.
    transitivity (Some (negb (index_below j n)));
      [exact (prints_position n j name Hj)|].
    f_equal. apply Ht. eapply Hbound, Hj.
  - destruct (indexOf s levels) as [i|] eqn:Hi; [|discriminate].
    cbn [bindC]. intros [= <-]. exists i. split; [|split].
    + intros j name Hj.
      transitivity (Some (negb (index_below j (Finite (Z.of_nat i) 1))));
        [exact (prints_position (Finite (Z.of_nat i) 1) j name Hj)|].
      f_equal.
      cbn [index_below]. destruct (Nat.leb_spec i j) as [Hle|Hgt].
      * apply negb_true_iff, Z.ltb_ge. lia.
      * apply negb_false_iff, Z.ltb_lt. lia.
    + intros s' [= <-]. exact Hi.
    + discriminate.
  - cbn [bindC]. intros [= <-]. exists 0%nat. split; [|split].
    + intros j name Hj.
      transitivity (Some (negb (index_below j (Finite 0 1))));
        [exact (prints_position (Finite 0 1) j name Hj)|].
      f_equal.
      cbn [index_below]. apply negb_true_iff, Z.ltb_ge. lia.
    + discriminate.
    + reflexivity.
Qed.

Lemma indexOf_None (s : string) (l : list string) :
  indexOf s l = None <-> s ∉ l.
Proof.
  induction l as [|x l IH]; cbn.
  - split; [intros _; apply not_elem_of_nil | reflexivity].
  - rewrite not_elem_of_cons. case_bool_decide as Hx.
    + split; [discriminate | intros [Hne _]; congruence].
    + destruct (indexOf s l); cbn.
      * split; [discriminate|]. intros [_ Hnot]. apply IH in Hnot. discriminate Hnot.
      * split; [|reflexivity]. intros _. split; [congruence|].
        apply IH. reflexivity.
Qed.

(** X17: The configurations [getConsoleLogger] refuses: a name that is not
    one of the six levels, and a number below 0 or not below 6. *)
Theorem getConsoleLogger_refusals (level : Level) :
  Js.is_throw (getConsoleLogger level) = true
  <-> (exists s, level = LevelString s /\ s ∉ levels)
      \/ (exists n, level = LevelNumber n
                    /\ (below_zero n = true \/ at_least n 6 = true)).
Proof.
  unfold getConsoleLogger. destruct level as [n | s |].
  - change (length levels) with 6%nat.
    assert (Hright : below_zero n = true \/ at_least n 6 = true ->
                     (exists s, LevelNumber n = LevelString s /\ s ∉ levels)
                     \/ (exists n', LevelNumber n = LevelNumber n'
                                     /\ (below_zero n' = true \/ at_least n' 6 = true))).
    { intros H. right. exists n. split; [reflexivity | exact H]. }
    destruct (below_zero n) eqn:Hb; [|destruct (at_least n 6) eqn:Ha]; cbn.
    + split; [intros _; apply Hright; left; reflexivity | reflexivity].
    + split; [intros _; apply Hright; right; reflexivity | reflexivity].
    + split; [discriminate|].
      intros [(s & H & _) | (n' & H & Hn')]; [discriminate H|].
      injection H as <-. destruct Hn'; congruence.
  - pose proof (indexOf_None s levels) as Hin.
    destruct (indexOf s levels) as [i|] eqn:Hi; cbn.
    + split; [discriminate|].
      intros [(s' & [= <-] & Hnot) | (n & [=] & _)].
      apply Hin in Hnot. discriminate Hnot.
    + split; [|reflexivity]. intros _. left. exists s. split; [reflexivity|].
      apply Hin. reflexivity.
  - cbn. split; [discriminate|].
    intros [(s & [=] & _) | (n & [=] & _)].
Qed.

End Logging.

(** ** The link registry over time *)

Section Registry.

Import Mesh.

Lemma meshStreamHandler_missing (s : State) (stream : Stream)
    (headers : gmap string string) :
  headers !! MESH_IP_HEADER = None \/ headers !! MESH_PORT_HEADER = None ->
  meshStreamHandler stream headers s
  = (Normal tt,
     after_effects [Respond stream 400 true; Log "error" "Missing required headers: "] s).
Proof.
  intros Hmissing. unfold meshStreamHandler.
  assert (Hout : (_ <- perform (Respond stream 400 true) ;;
                  perform (Log "error" "Missing required headers: "))%js s
                 = (Normal tt,
                    after_effects [Respond stream 400 true;
                                   Log "error" "Missing required headers: "] s)).
  { unfold Js.bind, perform, modify, after_effects. cbn.
    rewrite <- app_assoc. reflexivity. }
  destruct (headers !! MESH_IP_HEADER), (headers !! MESH_PORT_HEADER);
    try exact Hout.
  destruct Hmissing; discriminate.
Qed.

Lemma meshStreamHandler_unknown_session (s : State) (stream : Stream)
    (headers : gmap string string) (ip port : string) :
  headers !! MESH_IP_HEADER = Some ip ->
  headers !! MESH_PORT_HEADER = Some port ->
  same_origin ip (socket_remoteAddress (stream_session stream)) ->
  byIPAndPort (knownServerConnections s) !! identity_key ip port = None ->
  bySession (knownServerConnections s)
    !! property_key (session_sessionId (stream_session stream)) = None ->
  meshStreamHandler stream headers s = (Throw (undefined_read "streams"), s).
Proof.
  intros Hip Hport Hok Hnew Hsession. unfold meshStreamHandler. rewrite Hip, Hport.
  rewrite <- origin_guard in Hok. rewrite Hok.
  unfold Js.bind, gets, identity_key in *. rewrite Hnew, Hsession. reflexivity.
Qed.

(** X18: Every handshake that returns has answered the stream exactly once.
    A refusal (status 400 or 404) ends the stream and leaves the registry
    as it was; only an acceptance (status 200, stream left open) changes
    it, and then the stream is on record under the identity it declared.
    When the handler throws instead, nothing was answered and nothing
    changed. *)
Theorem handshake_answers_once (s : State) (stream : Stream)
    (headers : gmap string string) :
  (exists e, meshStreamHandler stream headers s = (Throw e, s))
  \/ exists s' new status,
      meshStreamHandler stream headers s = (Normal tt, s')
      /\ effects s' = effects s ++ new
      /\ filter is_answer new = [Respond stream status (negb (status =? 200))]
      /\ ((status = 200
           /\ exists ip port,
               headers !! MESH_IP_HEADER = Some ip
               /\ headers !! MESH_PORT_HEADER = Some port
               /\ byIPAndPort (knownServerConnections s') !! identity_key ip port
                  = Some stream)
          \/ ((status = 400 \/ status = 404)
              /\ knownServerConnections s' = knownServerConnections s)).
Proof.
  destruct (headers !! MESH_IP_HEADER) as [ip|] eqn:Hip;
    [destruct (headers !! MESH_PORT_HEADER) as [port|] eqn:Hport|].
  2,3: right; eexists _, _, 400;
    (split; [apply meshStreamHandler_missing; auto|]);
    split; [reflexivity|]; split; [reflexivity|]; right; split; [tauto | reflexivity].
  destruct (bool_decide (Some ip ≠ socket_remoteAddress (stream_session stream))
            && negb (includes (Some ip)
                     && includes (socket_remoteAddress (stream_session stream))))
    eqn:Hguard.
  - right. eexists _, _, 400. split.
    + apply (meshStreamHandler_mismatch s stream headers ip port Hip Hport).
      rewrite <- origin_guard. congruence.
    + split; [reflexivity|]. split; [reflexivity|]. right. split; [tauto | reflexivity].
  - apply origin_guard in Hguard.
    destruct (byIPAndPort (knownServerConnections s) !! identity_key ip port)
      as [linked|] eqn:Hlinked.
    + right. eexists _, _, 404. split.
      * apply (meshStreamHandler_existing s stream headers ip port Hip Hport linked
                 Hguard Hlinked).
      * split; [reflexivity|]. split; [reflexivity|]. right.
        split; [tauto | reflexivity].
    + destruct (bySession (knownServerConnections s)
                  !! property_key (session_sessionId (stream_session stream)))
        as [entry|] eqn:Hsession.
      * right. eexists _, _, 200. split.
        -- apply (meshStreamHandler_accepts s stream headers ip port Hip Hport entry
                    Hguard Hlinked Hsession).
        -- split; [reflexivity|]. split; [reflexivity|]. left.
           split; [reflexivity|]. exists ip, port.
           split; [reflexivity|]. split; [reflexivity|].
           cbn. apply lookup_insert_eq.
      * left. eexists.
        apply (meshStreamHandler_unknown_session s stream headers ip port Hip Hport
                 Hguard Hlinked Hsession).
Qed.

(** X19: Accepting a link and then running the close listener that was
    attached to its stream gives back the registry as it was before, in
    both indexes, when neither the identity nor the stream id was in use. *)
Theorem accepted_link_close_restores_registry (s : State) (stream : Stream)
    (headers : gmap string string) (ip port : string) (entry : SessionEntry) :
  headers !! MESH_IP_HEADER = Some ip ->
  headers !! MESH_PORT_HEADER = Some port ->
  same_origin ip (socket_remoteAddress (stream_session stream)) ->
  byIPAndPort (knownServerConnections s) !! identity_key ip port = None ->
  bySession (knownServerConnections s)
    !! property_key (session_sessionId (stream_session stream)) = Some entry ->
  entry_streams entry !! property_key (stream_id stream) = None ->
  let accepted := snd (meshStreamHandler stream headers s) in
  let sessionId := property_key (session_sessionId (stream_session stream)) in
  let streamId := property_key (stream_id stream) in
  On stream "close" (StreamClose sessionId streamId (identity_key ip port))
    ∈ effects accepted
  /\ knownServerConnections
       (snd (streamCloseListener sessionId streamId (identity_key ip port) accepted))
     = knownServerConnections s.
Proof.
  intros Hip Hport Hok Hnew Hsession Hfresh. cbv zeta.
  rewrite (meshStreamHandler_accepts s stream headers ip port Hip Hport entry
             Hok Hnew Hsession).
  cbn [snd effects]. split.
  - rewrite elem_of_app. right. apply list_elem_of_In. cbn. tauto.
  - unfold streamCloseListener, Js.bind, perform, set_known, modify, gets.
    cbn [snd fst knownServerConnections bySession byIPAndPort effects].
    rewrite lookup_insert_eq. cbn [entry_session entry_streams].
    rewrite insert_insert_eq, (delete_insert_id _ _ _ Hfresh),
      (delete_insert_id _ _ _ Hnew).
    destruct entry as [session streams]. cbn [entry_session entry_streams].
    rewrite (insert_id _ _ _ Hsession).
    destruct (knownServerConnections s). reflexivity.
Qed.


(** X21: The close listener that the response listener attaches to an
    outbound stream removes the record of the peer's identity whichever
    stream holds it. So after a peer was linked inbound and the outbound
    stream towards the same identity closed, a second inbound handshake
    declaring that identity is accepted, although the first inbound stream
    is still open. *)
Theorem outbound_close_unlinks_inbound (s : State) (inbound outboundStream second : Stream)
    (response headers : gmap string string) (ip port : string) (entry : SessionEntry) :
  headers !! MESH_IP_HEADER = Some ip ->
  headers !! MESH_PORT_HEADER = Some port ->
  same_origin ip (socket_remoteAddress (stream_session second)) ->
  byIPAndPort (knownServerConnections s) !! identity_key ip port = Some inbound ->
  bySession (knownServerConnections s)
    !! property_key (session_sessionId (stream_session second)) = Some entry ->
  let sessionId := property_key (session_sessionId (stream_session outboundStream)) in
  let streamId := property_key (stream_id outboundStream) in
  let s1 := snd (outboundResponseListener outboundStream (identity_key ip port)
                   response s) in
  let s2 := snd (streamCloseListener sessionId streamId (identity_key ip port) s1) in
  let s3 := snd (meshStreamHandler second headers s2) in
  On outboundStream "close" (StreamClose sessionId streamId (identity_key ip port))
    ∈ effects s1
  /\ byIPAndPort (knownServerConnections s1) !! identity_key ip port = Some inbound
  /\ byIPAndPort (knownServerConnections s2) !! identity_key ip port = None
  /\ last (effects s3) = Some (Respond second 200 false)
  /\ byIPAndPort (knownServerConnections s3) !! identity_key ip port = Some second.
Proof.
  intros Hip Hport Hok Hlinked Hsession. cbv zeta.
  rewrite outboundResponseListener_effects. cbn [snd].
  set (s1 := after_effects _ s).
  assert (Hk1 : knownServerConnections s1 = knownServerConnections s) by reflexivity.
  destruct (streamCloseListener_forgets s1
              (property_key (session_sessionId (stream_session outboundStream)))
              (property_key (stream_id outboundStream)) (identity_key ip port))
    as (_ & Hgone & _ & Hsessions).
  set (s2 := snd (streamCloseListener _ _ _ s1)) in *.
  destruct (Hsessions (property_key (session_sessionId (stream_session second))))
    as [entry' Hentry'].
  { rewrite Hk1, Hsession. eauto. }
  split; [|split; [|split]].
  - subst s1. cbn [after_effects effects]. rewrite elem_of_app. right.
    apply list_elem_of_In. cbn. tauto.
  - rewrite Hk1. exact Hlinked.
  - exact Hgone.
  - rewrite (meshStreamHandler_accepts s2 second headers ip port Hip Hport entry'
               Hok Hgone Hentry').
    cbn [snd effects knownServerConnections byIPAndPort]. split.
    + rewrite last_app. reflexivity.
    + apply lookup_insert_eq.
Qed.

End Registry.

(** ** Runs of the coordinating process *)

Section Runs.

Import Lifecycle.

Variable port : string.

Lemma listeners_for_table (emitter : Emitter) (event : string) (h : Handler)
    (table : list (Emitter * string * Handler)) :
  h ∈ listeners_for emitter event table -> (emitter, event, h) ∈ table.
Proof.
  unfold listeners_for. rewrite list_elem_of_omap.
  intros ([[em ev] h'] & Hin & Hf).
  case_bool_decide as Hd; [|discriminate]. destruct Hd as [-> ->].
  injection Hf as ->. exact Hin.
Qed.

(** What one handler of the table does when it is called for the event
    it is attached to. *)
Lemma call_facts (p0 q : Process) (h : Handler) (emitter : Emitter) (event : string) :
  (emitter, event, h) ∈ start_table ->
  meshIp q = "localhost" -> meshPort q = port ->
  exists rest,
    history (call h q) = history q ++ rest
    /\ Forall (allowed port p0 (Emitted emitter event)) rest
    /\ meshIp (call h q) = meshIp q /\ meshPort (call h q) = meshPort q
    /\ ((0 < pendingUnRegistrations (call h q))%nat ->
        (0 < pendingUnRegistrations q)%nat \/ unregistration port ∈ rest)
    /\ (forall code, status (call h q) = Exited code -> status q = Exited code).
Proof.
  intros Hin Hip Hport. unfold start_table in Hin.
  rewrite !elem_of_cons, elem_of_nil in Hin.
  destruct Hin as [H|[H|[H|[H|[H|[H|[H|[]]]]]]]]; injection H as -> -> ->;
    cbn [call].
  - exists [Did RecordSession].
    split; [reflexivity|]. split; [repeat constructor|].
    split; [reflexivity|]. split; [reflexivity|]. split; [tauto|tauto].
  - exists [Did (LogLine "info" "Mesh server stopped listening. Stopping the process");
            Did ClusterDisconnect].
    split; [cbn; rewrite <- app_assoc; reflexivity|].
    split; [repeat constructor; cbn; auto|].
    split; [reflexivity|]. split; [reflexivity|]. split; [tauto|tauto].
  - exists [Did (LogLine "error" "Mesh server error: "); Did (EmitMesh "error")].
    unfold meshServerErrorHandler. cbv zeta.
    destruct (errorListener _).
    + split; [cbn; rewrite <- app_assoc; reflexivity|].
      split; [repeat constructor|].
      split; [reflexivity|]. split; [reflexivity|]. split; [tauto|tauto].
    + split; [cbn; rewrite <- app_assoc; reflexivity|].
      split; [repeat constructor|].
      split; [reflexivity|]. split; [reflexivity|]. split; [tauto|].
      cbn. discriminate.
  - exists [Did (LogLine "log" "Mesh server listening on: ");
            Did (RegisterServer (meshIp q) (meshPort q))].
    split; [cbn; rewrite <- app_assoc; reflexivity|].
    split; [rewrite Hip, Hport; repeat constructor|].
    split; [reflexivity|]. split; [reflexivity|]. split; [tauto|tauto].
  - exists [Did (LogLine "log" "SIGINT received. Stopping mesh server");
            Did (UnRegisterServer (meshIp q) (meshPort q))].
    split; [cbn; rewrite <- app_assoc; reflexivity|].
    split; [rewrite Hip, Hport; repeat constructor|].
    split; [reflexivity|]. split; [reflexivity|].
    split; [|tauto].
    intros _. right. rewrite Hip, Hport. unfold unregistration. right. left.
  - exists []. split; [cbn; rewrite app_nil_r; reflexivity|].
    split; [constructor|].
    split; [reflexivity|]. split; [reflexivity|]. split; [tauto|].
    cbn. discriminate.
  - exists []. split; [cbn; rewrite app_nil_r; reflexivity|].
    split; [constructor|].
    split; [reflexivity|]. split; [reflexivity|]. split; [tauto|tauto].
Qed.

Lemma call_all_facts (p0 : Process) (emitter : Emitter) (event : string)
    (hs : list Handler) (q : Process) :
  (forall h, h ∈ hs -> (emitter, event, h) ∈ start_table) ->
  meshIp q = "localhost" -> meshPort q = port ->
  exists rest,
    history (call_all hs q) = history q ++ rest
    /\ Forall (allowed port p0 (Emitted emitter event)) rest
    /\ ((0 < pendingUnRegistrations (call_all hs q))%nat ->
        (0 < pendingUnRegistrations q)%nat \/ unregistration port ∈ rest)
    /\ (forall code, status (call_all hs q) = Exited code -> status q = Exited code).
Proof.
  revert q. induction hs as [|h hs IH]; intros q Hhs Hip Hport; cbn [call_all].
  - exists []. rewrite app_nil_r. repeat split; auto.
  - destruct (is_running q).
    + destruct (call_facts p0 q h emitter event (Hhs h ltac:(left)) Hip Hport)
        as (r1 & Hh1 & Ha1 & Hip1 & Hport1 & Hun1 & Hst1).
      destruct (IH (call h q)) as (r2 & Hh2 & Ha2 & Hun2 & Hst2).
      { intros h' Hh'. apply Hhs. right. exact Hh'. }
      { congruence. }
      { congruence. }
      exists (r1 ++ r2). rewrite Hh2, Hh1, <- app_assoc.
      split; [reflexivity|]. split; [apply Forall_app; split; assumption|].
      split.
      * intros Hpos. rewrite elem_of_app.
        destruct (Hun2 Hpos) as [Hq|Hin]; [|tauto].
        destruct (Hun1 Hq) as [Hq'|Hin]; tauto.
      * intros code Hcode. apply Hst1, Hst2, Hcode.
    + exists []. rewrite app_nil_r. repeat split; auto.
Qed.

(** One turn of the loop on a running process: the input is recorded,
    followed by entries the input allows. *)
Lemma step_facts (p : Process) (i : Input) :
  started port p -> is_running p = true ->
  exists rest,
    history (step p i) = history p ++ Got i :: rest
    /\ Forall (allowed port p i) rest
    /\ ((0 < pendingUnRegistrations (step p i))%nat ->
        (0 < pendingUnRegistrations p)%nat \/ unregistration port ∈ rest)
    /\ (forall code, status (step p i) = Exited code -> Did (Exit code) ∈ rest).
Proof.
  intros (Hl & Hip & Hport & _) Hrun. unfold step. rewrite Hrun.
  assert (Hstatus : status p = Running)
    by (unfold is_running in Hrun; destruct (status p); congruence).
  destruct i as [emitter event| | | | |].
  - destruct (call_all_facts p emitter event
                (listeners_for emitter event (listeners (record (Got (Emitted emitter event)) p)))
                (record (Got (Emitted emitter event)) p))
      as (rest & Hh & Ha & Hun & Hst).
    { intros h Hh. apply listeners_for_table in Hh. cbn [record listeners] in Hh.
      rewrite Hl in Hh. exact Hh. }
    { exact Hip. }
    { exact Hport. }
    exists rest. rewrite Hh. cbn [record history]. rewrite <- app_assoc.
    split; [reflexivity|]. split; [exact Ha|]. split; [exact Hun|].
    intros code Hcode. apply Hst in Hcode. cbn in Hcode. congruence.
  - exists []. split; [reflexivity|]. split; [constructor|].
    split; [intros Hpos; left; exact Hpos|].
    intros code Hcode. cbn in Hcode. congruence.
  - cbn [record pendingRegistrations].
    destruct (pendingRegistrations p) as [|n].
    + exists []. split; [reflexivity|]. split; [constructor|].
      split; [intros Hpos; left; exact Hpos|].
      intros code Hcode. cbn in Hcode. congruence.
    + exists [Did (LogLine "error" "Error registering server: "); Did (Exit 1)].
      split; [cbn; rewrite <- !app_assoc; reflexivity|].
      split; [repeat constructor; cbn; auto|].
      split; [intros Hpos; left; exact Hpos|].
      intros code [= <-]. right. left.
  - cbn [record pendingUnRegistrations].
    destruct (pendingUnRegistrations p) as [|n] eqn:Hn.
    + exists []. split; [reflexivity|]. split; [constructor|].
      split; [intros Hpos; left; cbn in Hpos; lia|].
      intros code Hcode. cbn in Hcode. congruence.
    + destruct (sigIntResume_fields
                  (set_counters (pendingRegistrations p) n (disconnectCallbacks p)
                     (timers p) (record (Got UnRegistrationResolved) p)))
        as (_ & _ & _ & Hh).
      exists [Did ClusterDisconnect; Did ServerClose; Did CloseAllConnections;
              Did (LogLine "log" "Mesh server stopped. Stopping the process in 10 seconds");
              Did (SetTimeout 10000)].
      split; [etrans; [exact Hh|]; cbn [set_counters record history];
              rewrite <- app_assoc; reflexivity|].
      split.
      { repeat (apply List.Forall_cons); try apply List.Forall_nil; cbn;
          try exact I; try right; (split; [reflexivity|lia]). }
      split; [intros _; left; lia|].
      intros code Hcode. exfalso. revert Hcode. unfold sigIntResume.
      cbn. congruence.
  - cbn [record disconnectCallbacks].
    destruct (disconnectCallbacks p) as [|n].
    + exists []. split; [reflexivity|]. split; [constructor|].
      split; [intros Hpos; left; exact Hpos|].
      intros code Hcode. cbn in Hcode. congruence.
    + exists [Did (Exit 0)]. split; [cbn; rewrite <- app_assoc; reflexivity|].
      split; [constructor; [cbn; right; auto|constructor]|].
      split; [intros Hpos; left; exact Hpos|].
      intros code [= <-]. left.
  - cbn [record timers].
    destruct (timers p) as [|n].
    + exists []. split; [reflexivity|]. split; [constructor|].
      split; [intros Hpos; left; exact Hpos|].
      intros code Hcode. cbn in Hcode. congruence.
    + exists [Did (Exit 0)]. split; [cbn; rewrite <- app_assoc; reflexivity|].
      split; [constructor; [cbn; right; auto|constructor]|].
      split; [intros Hpos; left; exact Hpos|].
      intros code [= <-]. left.
Qed.

Lemma allowed_from_the_loop (p : Process) (i : Input) (e : Entry) :
  allowed port p i e -> from_the_loop port e.
Proof.
  destruct e as [|a]; [intros []|]. destruct a; cbn; tauto.
Qed.

(** An invariant of the running steps is an invariant of every run. *)
Lemma run_invariant (I : Process -> Prop) :
  (forall p i, started port p -> is_running p = true -> I p -> I (step p i)) ->
  forall inputs p, started port p -> I p -> I (run p inputs).
Proof.
  intros Hstep inputs. unfold run.
  induction inputs as [|i inputs IH]; intros p Hs Hp; [exact Hp|].
  cbn [foldl]. apply IH; [apply started_step, Hs|].
  destruct (is_running p) eqn:Hrun.
  - apply Hstep; assumption.
  - unfold step. rewrite Hrun. exact Hp.
Qed.

Lemma concat_singletons {A B : Type} (f : A -> B) (l : list A) :
  concat ((fun x => [f x]) <$> l) = f <$> l.
Proof. induction l as [|x l IH]; [reflexivity|]. cbn. rewrite IH. reflexivity. Qed.

Lemma foldl_fields (f : Process -> string -> Process) (g : string -> list Entry) :
  (forall p x, meshIp (f p x) = meshIp p /\ meshPort (f p x) = meshPort p
               /\ history (f p x) = history p ++ g x) ->
  forall l p, meshIp (foldl f p l) = meshIp p /\ meshPort (foldl f p l) = meshPort p
              /\ history (foldl f p l) = history p ++ concat (g <$> l).
Proof.
  intros Hf l. induction l as [|x l IH]; intros p; cbn [foldl fmap list_fmap concat].
  - rewrite app_nil_r. repeat split.
  - destruct (IH (f p x)) as (-> & -> & ->).
    destruct (Hf p x) as (-> & -> & ->).
    rewrite <- app_assoc. repeat split.
Qed.

(** Once the loop has stopped, the remaining servers change nothing. *)
Lemma connectOne_stopped (reachable unregistered : string -> bool)
    (targets : list string) (p : Process) :
  foldl (connectOne reachable unregistered) (p, false) targets = (p, false).
Proof. induction targets as [|t targets IH]; [reflexivity|]. exact IH. Qed.

Lemma connectOne_fields (reachable unregistered : string -> bool)
    (targets : list string) (p : Process) :
  let r := foldl (connectOne reachable unregistered) (p, true) targets in
  meshIp (fst r) = meshIp p /\ meshPort (fst r) = meshPort p
  /\ history (fst r)
     = history p
         ++ concat (connect_entries reachable <$> visited reachable unregistered targets)
  /\ snd r = completes reachable unregistered targets.
Proof.
  revert p. induction targets as [|t targets IH]; intros p.
  - cbn. rewrite app_nil_r. repeat split.
  - cbn [foldl connectOne visited completes forallb fmap list_fmap concat].
    unfold connect_entries at 1.
    destruct (reachable t); cbn [orb].
    + destruct (IH (act (ConnectTo t)
                      (act (LogLine "debug" "Connecting to mesh server: ") p)))
        as (-> & -> & -> & ->).
      cbn [act record history meshIp meshPort]. rewrite <- !app_assoc.
      repeat split.
    + destruct (unregistered t); cbn [andb].
      * destruct (IH (act (UnRegisterPeer t)
                        (act (LogLine "debug" "Unregistering unreachable mesh server: ")
                           (act (LogLine "error" "Error connecting to mesh server: ")
                              (act (LogLine "debug" "Connecting to mesh server: ") p)))))
          as (-> & -> & -> & ->).
        cbn [act record history meshIp meshPort]. rewrite <- !app_assoc.
        repeat split.
      * rewrite connectOne_stopped.
        cbn [fst snd act record history meshIp meshPort fmap list_fmap concat].
        rewrite app_nil_r, <- !app_assoc. repeat split.
Qed.

Lemma connectToMeshServers_fields (reachable unregistered : string -> bool)
    (otherMeshServers : list string) (p : Process) :
  let targets := Mesh.connectTargets (meshIp p) (meshPort p) otherMeshServers in
  let r := connectToMeshServers reachable unregistered otherMeshServers p in
  meshIp (fst r) = meshIp p /\ meshPort (fst r) = meshPort p
  /\ history (fst r)
     = history p
         ++ [Did (LogLine "debug" "Other mesh servers: ")]
         ++ ((fun server => Did (LogLine "log" server)) <$> targets)
         ++ concat (connect_entries reachable
                      <$> visited reachable unregistered targets)
  /\ snd r = completes reachable unregistered targets.
Proof.
  intros targets. unfold connectToMeshServers. cbv zeta.
  change (Mesh.connectTargets _ _ otherMeshServers) with targets.
  match goal with
  | |- context [foldl _ (foldl ?f0 ?p0 targets, true) targets] =>
      destruct (connectOne_fields reachable unregistered targets
                  (foldl f0 p0 targets)) as (-> & -> & -> & ->);
      destruct (foldl_fields f0 (fun server => [Did (LogLine "log" server)]))
        with (l := targets) (p := p0) as (-> & -> & ->)
  end.
  - intros q x. repeat split.
  - rewrite concat_singletons. cbn [act record history meshIp meshPort].
    rewrite <- !app_assoc. repeat split.
Qed.

Lemma start_fields (listens : bool) (reachable unregistered : string -> bool)
    (otherServers : list string) :
  history (start true reachable unregistered otherServers
             (owned listens (construct port)))
  = start_entries port reachable unregistered otherServers.
Proof.
  unfold start.
  destruct (connectToMeshServers_fields reachable unregistered otherServers
              (act (LogLine "log" "Other servers: ")
                 (act GetOtherMeshServers (owned listens (construct port)))))
    as (Hip & Hport & Hh & Hc).
  destruct (connectToMeshServers reachable unregistered otherServers _)
    as [q completed].
  cbn [fst snd] in Hip, Hport, Hh, Hc.
  assert (Hport0 : meshPort (act (LogLine "log" "Other servers: ")
                              (act GetOtherMeshServers (owned listens (construct port))))
                   = port) by (destruct listens; reflexivity).
  assert (Hip0 : meshIp (act (LogLine "log" "Other servers: ")
                          (act GetOtherMeshServers (owned listens (construct port))))
                 = "localhost") by (destruct listens; reflexivity).
  assert (Hh0 : history (act (LogLine "log" "Other servers: ")
                          (act GetOtherMeshServers (owned listens (construct port))))
                = [Did GetOtherMeshServers; Did (LogLine "log" "Other servers: ")])
    by (destruct listens; reflexivity).
  rewrite Hip0, Hport0 in *. rewrite Hh0 in Hh.
  unfold start_entries. cbv zeta. rewrite <- Hc.
  destruct completed.
  - destruct (startMeshServer_fields q) as (_ & _ & _ & ->).
    rewrite Hh, Hip, Hport. cbn. rewrite <- ?app_assoc. reflexivity.
  - rewrite Hh. cbn. rewrite <- ?app_assoc, ?app_nil_r. reflexivity.
Qed.

(** The history of a run: what [start] records, followed by inputs and
    what the handlers record. *)
Lemma run_history (listens : bool) (reachable unregistered : string -> bool)
    (otherServers : list string) (inputs : list Input) :
  exists tail,
    history (run (start true reachable unregistered otherServers
                    (owned listens (construct port))) inputs)
    = start_entries port reachable unregistered otherServers ++ tail
    /\ Forall (from_the_loop port) tail.
Proof.
  destruct (start_cases port listens reachable unregistered otherServers)
    as [Hq [Hstarted | (Hl & _)]].
  - apply (run_invariant
             (fun p => exists tail,
                  history p
                  = start_entries port reachable unregistered otherServers ++ tail
                  /\ Forall (from_the_loop port) tail)).
    + intros p i Hs Hrun (tail & Hh & Htail).
      destruct (step_facts p i Hs Hrun) as (rest & Hstep & Hrest & _).
      exists (tail ++ Got i :: rest). rewrite Hstep, Hh, <- app_assoc.
      split; [reflexivity|]. apply Forall_app. split; [exact Htail|].
      constructor; [exact I|].
      eapply Forall_impl; [exact Hrest|]. intros e. apply allowed_from_the_loop.
    + exact Hstarted.
    + exists []. rewrite app_nil_r.
      split; [apply start_fields|constructor].
  - destruct (unstarted_run inputs _ Hl Hq) as (_ & _ & Hh).
    exists (Got <$> inputs). rewrite Hh, start_fields. split; [reflexivity|].
    apply Forall_fmap, Forall_true. intros i. exact I.
Qed.

End Runs.

(** ** The coordinator from its configuration to the end of a run *)

(** The constructor checks [registerServerFn] and [getOtherMeshServesFn]
    but not [unRegisterServerFn], which [#sigIntHandler] and the [catch]
    block of [#connectToMeshServers] call. The runs of [Lifecycle] are
    those in which that call can be made, so the statements below take a
    configuration that provides the function. They hold whether or not
    the owner of the instance listens for its errors ([listens]) and
    whether or not the unregistrations awaited by [start] resolve
    ([unregistered]). *)

Section Coordinator.

Import Lifecycle.

Lemma connect_entries_connect (reachable : string -> bool) (targets : list string)
    (server : string) :
  Did (ConnectTo server) ∈ concat (connect_entries reachable <$> targets)
  <-> server ∈ targets /\ reachable server = true.
Proof.
  induction targets as [|t targets IH]; cbn [fmap list_fmap concat].
  - rewrite !elem_of_nil. tauto.
  - rewrite elem_of_app, IH, elem_of_cons. unfold connect_entries.
    destruct (reachable t) eqn:Ht;
      rewrite !elem_of_cons, elem_of_nil; split.
    + intros [[H|[H|[]]]|H]; [discriminate| |tauto].
      injection H as ->. tauto.
    + intros [[->|H] Hr]; [|tauto]. left. right. left. reflexivity.
    + intros [[H|[H|[H|[H|[]]]]]|H]; try discriminate. tauto.
    + intros [[->|H] Hr]; [congruence|tauto].
Qed.

Lemma connect_entries_unregister (reachable : string -> bool)
    (targets : list string) (server : string) :
  Did (UnRegisterPeer server) ∈ concat (connect_entries reachable <$> targets)
  <-> server ∈ targets /\ reachable server = false.
Proof.
  induction targets as [|t targets IH]; cbn [fmap list_fmap concat].
  - rewrite !elem_of_nil. tauto.
  - rewrite elem_of_app, IH, elem_of_cons. unfold connect_entries.
    destruct (reachable t) eqn:Ht;
      rewrite !elem_of_cons, elem_of_nil; split.
    + intros [[H|[H|[]]]|H]; try discriminate. tauto.
    + intros [[->|H] Hr]; [congruence|tauto].
    + intros [[H|[H|[H|[H|[]]]]]|H]; try discriminate; [|tauto].
      injection H as ->. tauto.
    + intros [[->|H] Hr]; [|tauto]. left. right. right. right. left. reflexivity.
Qed.

(** The entries of the connection loop are log lines, connections and
    unregistrations of peers. *)
Lemma connect_entries_kinds (reachable : string -> bool) (targets : list string) :
  Forall (fun e => exists a, e = Did a
                   /\ match a with
                      | LogLine _ _ | ConnectTo _ | UnRegisterPeer _ => True
                      | _ => False
                      end)
         (concat (connect_entries reachable <$> targets)).
Proof.
  induction targets as [|t targets IH]; cbn [fmap list_fmap concat]; [constructor|].
  apply Forall_app. split; [|exact IH]. unfold connect_entries.
  destruct (reachable t); repeat constructor; eexists; split; reflexivity || exact I.
Qed.

Lemma visited_listed (reachable unregistered : string -> bool)
    (targets : list string) (server : string) :
  server ∈ visited reachable unregistered targets -> server ∈ targets.
Proof.
  induction targets as [|t targets IH]; cbn [visited]; [tauto|].
  rewrite !elem_of_cons. intros [->|H]; [tauto|].
  destruct (reachable t || unregistered t); [auto|].
  apply elem_of_nil in H. destruct H.
Qed.

Lemma visited_all (reachable unregistered : string -> bool) (targets : list string) :
  completes reachable unregistered targets = true ->
  visited reachable unregistered targets = targets.
Proof.
  unfold completes. induction targets as [|t targets IH]; cbn [visited forallb];
    [reflexivity|].
  intros H. apply andb_prop in H. destruct H as [-> H]. rewrite (IH H). reflexivity.
Qed.

Lemma new_Mesh_construct (config : MeshConfig.Config) (p0 : Process) :
  MeshConfig.new_Mesh config = Normal p0 -> p0 = construct (meshPort_of config).
Proof.
  unfold MeshConfig.new_Mesh, meshPort_of.
  destruct (MeshConfig.registerServerFn config); [|discriminate].
  destruct (MeshConfig.getOtherMeshServesFn config); [|discriminate].
  cbn [negb].
  destruct (MeshConfig.port config) as [p|]; [|discriminate].
  destruct (MeshConfig.ip config) as [address|]; [|discriminate].
  destruct (MeshConfig.local_sub_network address); [|discriminate].
  intros [= <-]. reflexivity.
Qed.

(** What [start] records holds no input, no registration and no step of
    the shutdown. *)
Lemma start_entries_quiet (port : string) (reachable unregistered : string -> bool)
    (otherServers : list string) :
  Forall (fun e => is_shutdown_step e = false /\ is_unregistration e = false
                   /\ forall i, e <> Got i)
         (start_entries port reachable unregistered otherServers).
Proof.
  unfold start_entries. cbv zeta.
  generalize (Mesh.connectTargets "localhost" port otherServers). intros targets.
  repeat (apply Forall_app; split).
  - repeat constructor; discriminate.
  - induction targets as [|t targets IH]; [constructor|].
    constructor; [repeat split; discriminate|exact IH].
  - eapply Forall_impl; [apply connect_entries_kinds|].
    intros e (a & -> & Ha). destruct a; try destruct Ha; repeat split; discriminate.
  - destruct (completes _ _ _); repeat constructor; discriminate.
Qed.

(** X22: The servers a coordinator built from an accepted configuration
    with all three directory functions connects to, in every run. The
    loop goes through the listed servers whose string differs from
    ["localhost:<config.port || 8080>"] ([config.ip] plays no part), in
    the order listed, and stops behind the first one whose connection
    throws and whose awaited unregistration does not resolve. A
    connection is made exactly to the servers the loop gets to whose
    connection does not throw; [unRegisterServerFn] is called for the
    ones it gets to whose connection throws, and for no server it does
    not get to. The mesh server is created and listens exactly when the
    loop has run to its end, which it does when every unreachable server
    is unregistered. *)
Theorem connects_to_the_other_listed_servers (config : MeshConfig.Config)
    (p0 : Process) (listens : bool) (reachable unregistered : string -> bool)
    (otherServers : list string) (inputs : list Input) :
  MeshConfig.new_Mesh config = Normal p0 ->
  MeshConfig.unRegisterServerFn config = true ->
  let h := history (run (start true reachable unregistered otherServers
                           (owned listens p0)) inputs) in
  let targets :=
    filter (fun server => server <> own_address config) otherServers in
  let reached := visited reachable unregistered targets in
  (forall server,
      Did (ConnectTo server) ∈ h <-> server ∈ reached /\ reachable server = true)
  /\ (forall server,
        server ∈ reached -> reachable server = false ->
        Did (UnRegisterPeer server) ∈ h)
  /\ (forall server, Did (UnRegisterPeer server) ∈ h -> server ∈ reached)
  /\ (forall server,
        server ∈ reached ->
        server ∈ otherServers /\ server <> own_address config)
  /\ (completes reachable unregistered targets = true -> reached = targets)
  /\ (Did (Listen (meshPort_of config) "localhost") ∈ h
      <-> completes reachable unregistered targets = true).
Proof.
  intros Hnew _ h targets reached. apply new_Mesh_construct in Hnew. subst p0.
  destruct (run_history (meshPort_of config) listens reachable unregistered
              otherServers inputs) as (tail & Hh & Htail).
  fold h in Hh.
  assert (Htargets : Mesh.connectTargets "localhost" (meshPort_of config) otherServers
                     = targets) by reflexivity.
  unfold start_entries in Hh. cbv zeta in Hh. rewrite Htargets in Hh. fold reached in Hh.
  rewrite Forall_forall in Htail.
  assert (Hconnect : forall server,
             Did (ConnectTo server) ∈ h
             <-> Did (ConnectTo server) ∈ concat (connect_entries reachable <$> reached)).
  { intros server. rewrite Hh.
    rewrite !elem_of_app, !elem_of_cons, !elem_of_nil, list_elem_of_fmap.
    split; [|tauto].
    intros [[H|[H|[H|H]]]|H];
      [destruct H as [H|[H|[H|[]]]]; discriminate
      |destruct H as (y & H & _); discriminate
      |exact H
      |destruct (completes _ _ _);
         [rewrite !elem_of_cons, elem_of_nil in H;
          destruct H as [H|[H|[]]]; discriminate
         |apply elem_of_nil in H; destruct H]|].
    destruct (Htail _ H). }
  assert (Hunregister : forall server,
             Did (UnRegisterPeer server) ∈ h
             <-> Did (UnRegisterPeer server)
                 ∈ concat (connect_entries reachable <$> reached)).
  { intros server. rewrite Hh.
    rewrite !elem_of_app, !elem_of_cons, !elem_of_nil, list_elem_of_fmap.
    split; [|tauto].
    intros [[H|[H|[H|H]]]|H];
      [destruct H as [H|[H|[H|[]]]]; discriminate
      |destruct H as (y & H & _); discriminate
      |exact H
      |destruct (completes _ _ _);
         [rewrite !elem_of_cons, elem_of_nil in H;
          destruct H as [H|[H|[]]]; discriminate
         |apply elem_of_nil in H; destruct H]|].
    destruct (Htail _ H). }
  split; [|split; [|split; [|split; [|split]]]].
  - intros server. rewrite Hconnect. apply connect_entries_connect.
  - intros server Hin Hr. rewrite Hunregister, connect_entries_unregister. tauto.
  - intros server Hin. rewrite Hunregister, connect_entries_unregister in Hin. tauto.
  - intros server Hin. apply visited_listed in Hin.
    unfold targets in Hin. rewrite list_elem_of_filter in Hin. tauto.
  - apply visited_all.
  - rewrite Hh, !elem_of_app. split.
    + intros [[H|[H|[H|H]]]|H].
      * rewrite !elem_of_cons, elem_of_nil in H.
        destruct H as [H|[H|[H|[]]]]; discriminate.
      * apply list_elem_of_fmap in H. destruct H as (y & H & _). discriminate.
      * pose proof (connect_entries_kinds reachable reached) as Hk.
        rewrite Forall_forall in Hk. destruct (Hk _ H) as (a & [= <-] & []).
      * destruct (completes _ _ _); [reflexivity|].
        apply elem_of_nil in H. destruct H.
      * destruct (Htail _ H).
    + intros ->. left. right. right. right. right. left.
Qed.

(** X23: Whatever address an accepted configuration with all three
    directory functions gives as [config.ip], every call of [listen],
    [registerServerFn] and [unRegisterServerFn] for the node itself, in
    every run, names the address ["localhost"] and the port
    [config.port || 8080]. *)
Theorem node_is_announced_as_localhost (config : MeshConfig.Config)
    (p0 : Process) (listens : bool) (reachable unregistered : string -> bool)
    (otherServers : list string) (inputs : list Input) :
  MeshConfig.new_Mesh config = Normal p0 ->
  MeshConfig.unRegisterServerFn config = true ->
  Forall (announced_as "localhost" (meshPort_of config))
         (history (run (start true reachable unregistered otherServers
                          (owned listens p0)) inputs)).
Proof.
  intros Hnew _. apply new_Mesh_construct in Hnew. subst p0.
  destruct (run_history (meshPort_of config) listens reachable unregistered
              otherServers inputs) as (tail & -> & Htail).
  apply Forall_app. split.
  - unfold start_entries. cbv zeta.
    generalize (Mesh.connectTargets "localhost" (meshPort_of config) otherServers).
    intros targets. repeat (apply Forall_app; split).
    + repeat constructor.
    + induction targets as [|t targets IH]; constructor; [exact I|exact IH].
    + eapply Forall_impl; [apply connect_entries_kinds|].
      intros e (a & -> & Ha). destruct a; try destruct Ha; exact I.
    + destruct (completes _ _ _); repeat constructor.
  - eapply Forall_impl; [exact Htail|].
    intros [i|a]; [intros _; exact I|]. destruct a; cbn; tauto.
Qed.

(** X24: In every run of a coordinator that has all three directory
    functions, the mesh server is closed, the connections are closed and
    the exit timer is set only after [unRegisterServerFn] was called for
    the node and its promise resolved, and that call is made only after a
    SIGINT. *)
Theorem shutdown_follows_unregistration (config : MeshConfig.Config)
    (p0 : Process) (listens : bool) (reachable unregistered : string -> bool)
    (otherServers : list string) (inputs : list Input) :
  MeshConfig.new_Mesh config = Normal p0 ->
  MeshConfig.unRegisterServerFn config = true ->
  let h := history (run (start true reachable unregistered otherServers
                           (owned listens p0)) inputs) in
  precedes (unregistration (meshPort_of config)) is_shutdown_step h
  /\ precedes (Got UnRegistrationResolved) is_shutdown_step h
  /\ precedes (Got (Emitted ProcessObject "SIGINT")) is_unregistration h.
Proof.
  intros Hnew _ h. apply new_Mesh_construct in Hnew. subst p0. subst h.
  set (port := meshPort_of config).
  pose proof (start_entries_quiet port reachable unregistered otherServers) as Hquiet.
  destruct (start_cases port listens reachable unregistered otherServers)
    as [Hq [Hstarted | (Hl & _)]].
  - cut ((fun p =>
            ((0 < pendingUnRegistrations p)%nat -> unregistration port ∈ history p)
            /\ precedes (unregistration port) is_shutdown_step (history p)
            /\ precedes (Got UnRegistrationResolved) is_shutdown_step (history p)
            /\ precedes (Got (Emitted ProcessObject "SIGINT")) is_unregistration
                 (history p))
           (run (start true reachable unregistered otherServers
                   (owned listens (construct port))) inputs)).
    { cbv beta. tauto. }
    apply (run_invariant port).
    + intros p i Hs Hrun (Hpending & Hun & Hres & Hsig).
      destruct (step_facts port p i Hs Hrun) as (rest & Hh & Hrest & Hpos & _).
      rewrite Hh. rewrite Forall_forall in Hrest.
      change (history p ++ Got i :: rest) with (history p ++ [Got i] ++ rest).
      rewrite !app_assoc.
      split; [|split; [|split]].
      * intros H. rewrite <- app_assoc, elem_of_app. destruct (Hpos H) as [H'|H'].
        -- left. apply Hpending, H'.
        -- right. right. exact H'.
      * apply precedes_app; [apply precedes_snoc; [exact Hun|discriminate]|].
        intros e He HQ. rewrite elem_of_app. left. apply Hpending.
        specialize (Hrest e He).
        destruct e as [|a]; [discriminate|]. destruct a; try discriminate;
          cbn in Hrest; tauto.
      * apply precedes_app; [apply precedes_snoc; [exact Hres|discriminate]|].
        intros e He HQ. rewrite elem_of_app. right.
        specialize (Hrest e He).
        destruct e as [|a]; [discriminate|]. destruct a; try discriminate;
          cbn in Hrest; destruct Hrest as [-> _]; left.
      * apply precedes_app; [apply precedes_snoc; [exact Hsig|discriminate]|].
        intros e He HQ. rewrite elem_of_app. right.
        specialize (Hrest e He).
        destruct e as [|a]; [discriminate|]. destruct a; try discriminate.
        cbn in Hrest. destruct Hrest as (_ & _ & ->). left.
    + exact Hstarted.
    + rewrite (start_fields port listens reachable unregistered otherServers).
      destruct Hq as (_ & Hu & _).
      split; [rewrite Hu; lia|].
      split; [|split]; apply precedes_none;
        (eapply Forall_impl; [exact Hquiet|]); cbv beta; tauto.
  - destruct (unstarted_run inputs _ Hl Hq) as (_ & _ & Hh).
    rewrite Hh, (start_fields port listens reachable unregistered otherServers).
    assert (Hall : Forall (fun e => is_shutdown_step e = false
                                    /\ is_unregistration e = false)
                     (start_entries port reachable unregistered otherServers
                        ++ (Got <$> inputs))).
    { apply Forall_app. split.
      - eapply Forall_impl; [exact Hquiet|]. cbv beta. tauto.
      - apply Forall_fmap, Forall_true. intros i. split; reflexivity. }
    split; [|split]; apply precedes_none;
      (eapply Forall_impl; [exact Hall|]); cbv beta; tauto.
Qed.

(** X25: In every run of a coordinator that has all three directory
    functions, [process.exit] ends the process with code 1 only after a
    registration was rejected, and with code 0 only after the callback of
    [cluster.disconnect] or the shutdown timer ran; it is called with no
    other code. *)
Theorem exit_codes_tell_the_cause (config : MeshConfig.Config)
    (p0 : Process) (listens : bool) (reachable unregistered : string -> bool)
    (otherServers : list string) (inputs : list Input) (code : Z) :
  MeshConfig.new_Mesh config = Normal p0 ->
  MeshConfig.unRegisterServerFn config = true ->
  let p := run (start true reachable unregistered otherServers
                  (owned listens p0)) inputs in
  status p = Exited code ->
  (code = 1 /\ Got RegistrationRejected ∈ history p)
  \/ (code = 0 /\ (Got ClusterDisconnected ∈ history p
                  \/ Got TimerFired ∈ history p)).
Proof.
  intros Hnew _ p. apply new_Mesh_construct in Hnew. subst p0. subst p.
  set (port := meshPort_of config).
  destruct (start_cases port listens reachable unregistered otherServers)
    as [Hq [Hstarted | (Hl & _)]].
  - revert code.
    apply (run_invariant port
             (fun p => forall code, status p = Exited code ->
                (code = 1 /\ Got RegistrationRejected ∈ history p)
                \/ (code = 0 /\ (Got ClusterDisconnected ∈ history p
                                \/ Got TimerFired ∈ history p)))).
    + intros p i Hs Hrun _ code Hcode.
      destruct (step_facts port p i Hs Hrun) as (rest & Hh & Hrest & _ & Hexit).
      rewrite Hh. rewrite Forall_forall in Hrest.
      specialize (Hrest _ (Hexit code Hcode)). cbn in Hrest.
      assert (Hi : Got i ∈ history p ++ Got i :: rest)
        by (rewrite elem_of_app; right; left).
      destruct Hrest as [(-> & ->)|(-> & [->| ->])]; auto.
    + exact Hstarted.
    + intros code. destruct Hq as (_ & _ & _ & _ & ->). discriminate.
  - destruct (unstarted_run inputs _ Hl Hq) as (_ & (_ & _ & _ & _ & Hs) & _).
    rewrite Hs. discriminate.
Qed.

End Coordinator.

(** ** Examples of the further properties *)

Section ChannelExamples.

Import WsH2Stream.

Lemma fragmentInterpreter_raises_exactly_witness :
  fragmentInterpreter LittleEndian Samples.truncated
  = Throw (RangeError "byte length of BigUint64Array should be a multiple of 8")
  /\ exists r, fragmentInterpreter LittleEndian Scenario.ping_chunk = Normal r.
Proof.
  split.
  - apply (proj1 (fragmentInterpreter_raises_exactly LittleEndian Samples.truncated)).
    split; [reflexivity|simpl; lia].
  - apply (proj2 (fragmentInterpreter_raises_exactly LittleEndian Scenario.ping_chunk)).
    intros [H _]. vm_compute in H. discriminate.
Defined.

Lemma decoded_fragment_layout_witness :
  let f := Samples.masked_fragment in
  let frag := Samples.masked_text in
  isFinal f = index_and frag 0 128
  /\ opcode f = index_and frag 0 15
  /\ usesMasking f = negb (index_and frag 1 128 =? 0)
  /\ (usesMasking f = false -> maskingKey f = None)
  /\ (length (default [] (maskingKey f)) <= 4)%nat
  /\ default [] (maskingKey f) ++ payload f
     = drop (header_length (index_and frag 1 127)) frag.
Proof.
  apply (decoded_fragment_layout LittleEndian Samples.masked_text Samples.masked_fragment).
  reflexivity.
Defined.

Lemma final_fragment_delivers_message_witness :
  dataListener LittleEndian Samples.last_chunk Scenario.mid_message
  = (Normal tt,
     delivered (frame_event OPCODES.BINARY [x0a; x0b; x0c]) [] Scenario.mid_message).
Proof.
  apply (final_fragment_delivers_message LittleEndian Samples.last_chunk
           [Scenario.first_fragment] Samples.last_fragment Scenario.mid_message).
  - reflexivity.
  - simpl. lia.
  - simpl. lia.
  - reflexivity.
Defined.

Lemma non_final_fragment_is_kept_witness :
  dataListener LittleEndian Samples.first_chunk Scenario.idle
  = (Normal tt, set_fragments [Some Scenario.first_fragment] Scenario.idle).
Proof.
  apply (non_final_fragment_is_kept LittleEndian Samples.first_chunk
           Scenario.first_fragment Scenario.idle).
  - reflexivity.
  - reflexivity.
Defined.

Lemma close_frame_ends_stream_witness :
  dataListener LittleEndian Samples.close_chunk Scenario.mid_message
  = (Normal tt,
     {| currentFrameFragments := [Some Scenario.first_fragment];
        logger := Some ["Close frame received."];
        written := []; endCalls := 1; emitted := [] |}).
Proof.
  apply (close_frame_ends_stream LittleEndian Samples.close_chunk
           (Samples.control_fragment OPCODES.CLOSE) Scenario.mid_message).
  - reflexivity.
  - simpl. lia.
  - vm_compute. discriminate.
  - vm_compute. discriminate.
  - vm_compute. discriminate.
Defined.

Lemma pong_frame_is_surfaced_witness :
  dataListener LittleEndian Samples.pong_chunk Scenario.mid_message
  = (Normal tt,
     {| currentFrameFragments := [Some Scenario.first_fragment];
        logger := Some ["Pong received."];
        written := []; endCalls := 0; emitted := [EvPong []] |}).
Proof.
  apply (pong_frame_is_surfaced LittleEndian Samples.pong_chunk
           (Samples.control_fragment OPCODES.PONG) Scenario.mid_message).
  - reflexivity.
  - simpl. lia.
  - reflexivity.
Defined.

Lemma short_text_reaches_peer_witness :
  exists wire,
    sendText Samples.hi Scenario.idle = (Normal tt, wrote wire Scenario.idle)
    /\ dataListener LittleEndian wire Scenario.idle
       = (Normal tt, delivered (frame_event OPCODES.TEXT Samples.hi) [] Scenario.idle).
Proof.
  apply (short_text_reaches_peer LittleEndian Samples.hi Scenario.idle Scenario.idle).
  - simpl. lia.
  - reflexivity.
Defined.

End ChannelExamples.

Section HandlerExamples.

Lemma concatTypedArrays_is_concatenation_witness :
  TypedArrays.concatTypedArrays Z (fun _ v => v mod 256) (fun _ => 0)
    Samples.byte_arrays None
  = Normal {| TypedArrays.kind := TypedArrays.Uint8Array;
              TypedArrays.elements := concat (TypedArrays.elements <$> Samples.byte_arrays) |}.
Proof.
  apply (proj2 (concatTypedArrays_is_concatenation Z (fun _ v => v mod 256)
                  (fun _ => 0) Samples.byte_arrays None)).
  repeat constructor.
Defined.

Lemma notFoundHandler_answers_once_witness :
  NotFoundHandler.notFoundHandler Samples.closing ∅ Samples.open_raw
    (H2Stream.construct (Some []))
  = (Normal tt,
     {| H2Stream.sentHeaders := Some NotFoundHandler.not_found_headers;
        H2Stream.closed := true; H2Stream.errorProtocol := "logger";
        H2Stream.logger := Some [];
        H2Stream.calls :=
          [] ++ [H2Stream.CallRespond (Some NotFoundHandler.not_found_headers) false;
                 H2Stream.CallEnd None] |})
  /\ (exists e,
        NotFoundHandler.notFoundHandler Samples.closing ∅ Samples.closed_raw
          (H2Stream.construct (Some []))
        = (Throw e,
           {| H2Stream.sentHeaders := Some NotFoundHandler.not_found_headers;
              H2Stream.closed := false; H2Stream.errorProtocol := "logger";
              H2Stream.logger := Some [];
              H2Stream.calls :=
                [] ++ [H2Stream.CallRespond
                         (Some NotFoundHandler.not_found_headers) false] |}))
  /\ (let answered := snd (H2Stream.respond (Some Scenario.ok_headers) None
                             (H2Stream.construct (Some []))) in
      let s' := snd (NotFoundHandler.notFoundHandler Samples.closing ∅
                       Samples.open_raw answered) in
      H2Stream.sentHeaders s' = Some Scenario.ok_headers
      /\ H2Stream.closed s' = true
      /\ H2Stream.calls s'
         = H2Stream.calls answered
             ++ [H2Stream.CallEnd (Some H2Session.NGHTTP2_REFUSED_STREAM)]).
Proof.
  split; [|split].
  - apply (proj1 (notFoundHandler_answers_once Samples.closing ∅ Samples.open_raw
                    (H2Stream.construct (Some [])) eq_refl));
      reflexivity.
  - apply (proj1 (proj2 (notFoundHandler_answers_once Samples.closing ∅
                           Samples.closed_raw (H2Stream.construct (Some []))
                           eq_refl))).
    + reflexivity.
    + left. reflexivity.
  - apply (proj2 (proj2 (notFoundHandler_answers_once Samples.closing ∅
                           Samples.open_raw
                           (snd (H2Stream.respond (Some Scenario.ok_headers) None
                                   (H2Stream.construct (Some []))))
                           eq_refl)) Scenario.ok_headers).
    reflexivity.
Defined.

Lemma session_stream_outcomes_witness :
  let plain := H2Session.streamListener Scenario.allow_list 1 Samples.get_request
                 Samples.fresh_session in
  let refused := H2Session.streamListener Scenario.allow_list 1
                   Samples.webtransport_request Samples.fresh_session in
  H2Session.streams plain = <[ 1%nat := H2Session.Plain ]> ∅
  /\ H2Session.streams refused = ∅
  /\ filter is_emit
       (added Scenario.allow_list 1 Samples.webtransport_request Samples.fresh_session)
     = [].
Proof.
  intros plain refused.
  pose proof (session_stream_outcomes Scenario.allow_list 1 Samples.get_request
                Samples.fresh_session) as Hplain.
  pose proof (session_stream_outcomes Scenario.allow_list 1 Samples.webtransport_request
                Samples.fresh_session) as Hrefused.
  cbv zeta in Hplain, Hrefused.
  destruct Hplain as (Hplain & _). destruct Hrefused as (_ & _ & Hrefused).
  split; [|split].
  - apply Hplain. vm_compute. discriminate.
  - apply Hrefused; [reflexivity|vm_compute; discriminate].
  - apply Hrefused; [reflexivity|vm_compute; discriminate].
Defined.

Lemma stream_close_undoes_arrival_witness :
  H2Session.streams
    (H2Session.streamCloseListener 1
       (H2Session.streamListener Scenario.allow_list 1 Samples.websocket_request
          Samples.fresh_session))
  = H2Session.streams Samples.fresh_session.
Proof.
  apply (stream_close_undoes_arrival Scenario.allow_list 1 Samples.websocket_request
           Samples.fresh_session).
  reflexivity.
Defined.

Lemma logger_has_a_threshold_witness :
  exists threshold : nat,
    (forall (j : nat) (name : string),
        ConsoleLogger.levels !! j = Some name ->
        ConsoleLogger.prints Samples.warn_logger name = Some (threshold <=? j)%nat)
    /\ (forall s, ConsoleLogger.LevelString "warn" = ConsoleLogger.LevelString s ->
                  ConsoleLogger.indexOf s ConsoleLogger.levels = Some threshold)
    /\ (ConsoleLogger.LevelString "warn" = ConsoleLogger.LevelOther -> threshold = 0%nat).
Proof.
  apply (logger_has_a_threshold (ConsoleLogger.LevelString "warn") Samples.warn_logger).
  reflexivity.
Defined.

Lemma getConsoleLogger_refusals_witness :
  Js.is_throw (ConsoleLogger.getConsoleLogger
                 (ConsoleLogger.LevelNumber (ConsoleLogger.Finite 6 1))) = true.
Proof.
  apply (proj2 (getConsoleLogger_refusals
                  (ConsoleLogger.LevelNumber (ConsoleLogger.Finite 6 1)))).
  right. exists (ConsoleLogger.Finite 6 1). split; [reflexivity|].
  right. reflexivity.
Defined.

End HandlerExamples.

Section RegistryExamples.

Import Mesh.

Lemma accepted_link_close_restores_registry_witness :
  let accepted := snd (meshStreamHandler Scenario.stream1
                         (Scenario.declares "localhost" "9000") Scenario.one_session) in
  On Scenario.stream1 "close" (StreamClose "undefined" "1" "localhost:9000")
    ∈ effects accepted
  /\ knownServerConnections
       (snd (streamCloseListener "undefined" "1" "localhost:9000" accepted))
     = knownServerConnections Scenario.one_session.
Proof.
  apply (accepted_link_close_restores_registry Scenario.one_session Scenario.stream1
           (Scenario.declares "localhost" "9000") "localhost" "9000"
           Samples.loopback_entry).
  - reflexivity.
  - reflexivity.
  - right. split; [set_solver|]. exists "127.0.0.1". split; [reflexivity | set_solver].
  - vm_compute. reflexivity.
  - vm_compute. reflexivity.
  - vm_compute. reflexivity.
Defined.


Lemma outbound_close_unlinks_inbound_witness :
  let s1 := snd (outboundResponseListener Scenario.outbound "localhost:9000"
                   Scenario.success_response Scenario.one_link) in
  let s2 := snd (streamCloseListener "undefined" "1" "localhost:9000" s1) in
  let s3 := snd (meshStreamHandler Scenario.stream2
                   (Scenario.declares "localhost" "9000") s2) in
  On Scenario.outbound "close" (StreamClose "undefined" "1" "localhost:9000")
    ∈ effects s1
  /\ byIPAndPort (knownServerConnections s1) !! "localhost:9000"
     = Some Scenario.stream1
  /\ byIPAndPort (knownServerConnections s2) !! "localhost:9000" = None
  /\ last (effects s3) = Some (Respond Scenario.stream2 200 false)
  /\ byIPAndPort (knownServerConnections s3) !! "localhost:9000"
     = Some Scenario.stream2.
Proof.
  apply (outbound_close_unlinks_inbound Scenario.one_link Scenario.stream1
           Scenario.outbound Scenario.stream2 Scenario.success_response
           (Scenario.declares "localhost" "9000") "localhost" "9000"
           Samples.loopback_entry1).
  - reflexivity.
  - reflexivity.
  - right. split; [set_solver|]. exists "127.0.0.1". split; [reflexivity | set_solver].
  - vm_compute. reflexivity.
  - vm_compute. reflexivity.
Defined.

End RegistryExamples.

Section CoordinatorExamples.

Import Lifecycle.

Lemma connects_to_the_other_listed_servers_witness :
  let h := history (run (start true (fun _ => true) (fun _ => true) Samples.directory
                           (owned true (construct "9000"))) []) in
  let stuck := history (run (start true (fun _ => false) (fun _ => false)
                               Samples.directory (owned true (construct "9000")))
                          [Emitted MeshHttp2Server "listening"]) in
  (Did (ConnectTo "10.0.0.5:9000") ∈ h
   /\ ~ Did (ConnectTo "localhost:9000") ∈ h
   /\ Did (Listen "9000" "localhost") ∈ h)
  /\ (Did (UnRegisterPeer "10.0.0.2:9001") ∈ stuck
      /\ ~ Did (UnRegisterPeer "10.0.0.5:9000") ∈ stuck
      /\ ~ Did (Listen "9000" "localhost") ∈ stuck).
Proof.
  intros h stuck.
  pose proof (connects_to_the_other_listed_servers Samples.private_node
                (construct "9000") true (fun _ => true) (fun _ => true)
                Samples.directory [] eq_refl eq_refl) as H.
  pose proof (connects_to_the_other_listed_servers Samples.private_node
                (construct "9000") true (fun _ => false) (fun _ => false)
                Samples.directory [Emitted MeshHttp2Server "listening"]
                eq_refl eq_refl) as H'.
  cbv zeta in H, H'.
  destruct H as (Hconnect & _ & _ & Hlisted & _ & Hlisten).
  destruct H' as (_ & Hcall & Hcalled & _ & _ & Hlisten').
  split; [split; [|split]|split; [|split]].
  - apply Hconnect. split; [|reflexivity].
    apply list_elem_of_In. vm_compute. repeat (first [left; reflexivity | right]).
  - intros Hin. apply Hconnect in Hin. destruct Hin as [Hin _].
    apply Hlisted in Hin. destruct Hin as [_ Hne]. apply Hne. reflexivity.
  - apply Hlisten. reflexivity.
  - apply Hcall; [|reflexivity].
    apply list_elem_of_In. vm_compute. left. reflexivity.
  - intros Hin. apply Hcalled in Hin. apply list_elem_of_In in Hin.
    vm_compute in Hin. destruct Hin as [Hin|[]]. discriminate.
  - intros Hin. apply Hlisten' in Hin. vm_compute in Hin. discriminate.
Defined.

Lemma node_is_announced_as_localhost_witness :
  Forall (announced_as "localhost" "9000")
         (history (run (start true (fun _ => true) (fun _ => true) Samples.directory
                          (owned false (construct "9000")))
                     [Emitted MeshHttp2Server "listening";
                      Emitted ProcessObject "SIGINT"])).
Proof.
  apply (node_is_announced_as_localhost Samples.private_node (construct "9000")
           false (fun _ => true) (fun _ => true) Samples.directory
           [Emitted MeshHttp2Server "listening"; Emitted ProcessObject "SIGINT"]).
  - reflexivity.
  - reflexivity.
Defined.

Lemma shutdown_follows_unregistration_witness :
  let h := history (run (start true (fun _ => true) (fun _ => true) Samples.directory
                           (owned false (construct "9000")))
                      [Emitted ProcessObject "SIGINT"; UnRegistrationResolved]) in
  precedes (unregistration "9000") is_shutdown_step h
  /\ precedes (Got UnRegistrationResolved) is_shutdown_step h
  /\ precedes (Got (Emitted ProcessObject "SIGINT")) is_unregistration h.
Proof.
  apply (shutdown_follows_unregistration Samples.private_node (construct "9000")
           false (fun _ => true) (fun _ => true) Samples.directory
           [Emitted ProcessObject "SIGINT"; UnRegistrationResolved]).
  - reflexivity.
  - reflexivity.
Defined.

Lemma exit_codes_tell_the_cause_witness :
  let p := run (start true (fun _ => true) (fun _ => true) Samples.directory
                  (owned false (construct "9000")))
             [Emitted MeshHttp2Server "listening"; RegistrationRejected] in
  (1 = 1 /\ Got RegistrationRejected ∈ history p)
  \/ (1 = 0 /\ (Got ClusterDisconnected ∈ history p \/ Got TimerFired ∈ history p)).
Proof.
  apply (exit_codes_tell_the_cause Samples.private_node (construct "9000")
           false (fun _ => true) (fun _ => true) Samples.directory
           [Emitted MeshHttp2Server "listening"; RegistrationRejected] 1).
  - reflexivity.
  - reflexivity.
  - reflexivity.
Defined.

End CoordinatorExamples.
